(** * Mineracao: the GitHub miner for TypeScript + React + Jest repositories

    A shallow embedding of [scripts/mine_ts_react_jest] (the REST-paginated
    revision with the source-scan fallback, the GraphQL revisions that came
    before it) and the properties of its HTTP client, technology detector,
    noise filter and pagination driver.

    Conventions of the embedding:
    - a JavaScript string is the [string] of the bytes of its UTF-8
      encoding (a surrogate that stands alone is encoded like any code
      point of three bytes);
    - a JavaScript number that the scripts treat as an integer (epoch seconds,
      byte counts, page numbers, counters) is a [Z]; the wait of the
      back-off, which is computed in double precision and can be NaN, is a
      [Num.t];
    - an [async] function is a computation in the monad [M]: it reads the
      clock and the network of an environment [Env], threads a [World]
      (clock, requests issued, sleeps, console) and ends with a value, a
      thrown error, or never ends ([Hang], for the two unbounded loops);
    - the bodies that the GitHub REST API answers with follow the API schema
      and are typed ([Body]); the content of [package.json], which is
      arbitrary user data, is an untyped [JSON] value. *)

From Stdlib Require Import ZArith Ascii String DecimalString.
From stdpp Require Import gmap strings list.

#[local] Set Warnings "-register-all".
Local Open Scope Z_scope.

(** ** The case data of Unicode

    The tables of the Unicode Character Database, version 14.0, that
    lower-casing reads. *)

Module Ucd.

(** The simple lower-case mappings: an entry [(lo, hi, step, delta)] maps
    every [step]-th code point from [lo] to [hi] to itself plus [delta].
    U+0130, which maps to two code points, is not in the table. *)
Definition lowerTable : list (Z * Z * Z * Z) :=
  [(65, 90, 1, 32); (192, 214, 1, 32); (216, 222, 1, 32); (256, 302, 2, 1);
   (306, 310, 2, 1); (313, 327, 2, 1); (330, 374, 2, 1);
   (376, 376, 1, -121); (377, 381, 2, 1); (385, 385, 1, 210);
   (386, 388, 2, 1); (390, 390, 1, 206); (391, 391, 1, 1);
   (393, 394, 1, 205); (395, 395, 1, 1); (398, 398, 1, 79);
   (399, 399, 1, 202); (400, 400, 1, 203); (401, 401, 1, 1);
   (403, 403, 1, 205); (404, 404, 1, 207); (406, 406, 1, 211);
   (407, 407, 1, 209); (408, 408, 1, 1); (412, 412, 1, 211);
   (413, 413, 1, 213); (415, 415, 1, 214); (416, 420, 2, 1);
   (422, 422, 1, 218); (423, 423, 1, 1); (425, 425, 1, 218);
   (428, 428, 1, 1); (430, 430, 1, 218); (431, 431, 1, 1);
   (433, 434, 1, 217); (435, 437, 2, 1); (439, 439, 1, 219);
   (440, 440, 1, 1); (444, 444, 1, 1); (452, 452, 1, 2); (453, 453, 1, 1);
   (455, 455, 1, 2); (456, 456, 1, 1); (458, 458, 1, 2); (459, 475, 2, 1);
   (478, 494, 2, 1); (497, 497, 1, 2); (498, 500, 2, 1); (502, 502, 1, -97);
   (503, 503, 1, -56); (504, 542, 2, 1); (544, 544, 1, -130);
   (546, 562, 2, 1); (570, 570, 1, 10795); (571, 571, 1, 1);
   (573, 573, 1, -163); (574, 574, 1, 10792); (577, 577, 1, 1);
   (579, 579, 1, -195); (580, 580, 1, 69); (581, 581, 1, 71);
   (582, 590, 2, 1); (880, 882, 2, 1); (886, 886, 1, 1); (895, 895, 1, 116);
   (902, 902, 1, 38); (904, 906, 1, 37); (908, 908, 1, 64);
   (910, 911, 1, 63); (913, 929, 1, 32); (931, 939, 1, 32);
   (975, 975, 1, 8); (984, 1006, 2, 1); (1012, 1012, 1, -60);
   (1015, 1015, 1, 1); (1017, 1017, 1, -7); (1018, 1018, 1, 1);
   (1021, 1023, 1, -130); (1024, 1039, 1, 80); (1040, 1071, 1, 32);
   (1120, 1152, 2, 1); (1162, 1214, 2, 1); (1216, 1216, 1, 15);
   (1217, 1229, 2, 1); (1232, 1326, 2, 1); (1329, 1366, 1, 48);
   (4256, 4293, 1, 7264); (4295, 4295, 1, 7264); (4301, 4301, 1, 7264);
   (5024, 5103, 1, 38864); (5104, 5109, 1, 8); (7312, 7354, 1, -3008);
   (7357, 7359, 1, -3008); (7680, 7828, 2, 1); (7838, 7838, 1, -7615);
   (7840, 7934, 2, 1); (7944, 7951, 1, -8); (7960, 7965, 1, -8);
   (7976, 7983, 1, -8); (7992, 7999, 1, -8); (8008, 8013, 1, -8);
   (8025, 8031, 2, -8); (8040, 8047, 1, -8); (8072, 8079, 1, -8);
   (8088, 8095, 1, -8); (8104, 8111, 1, -8); (8120, 8121, 1, -8);
   (8122, 8123, 1, -74); (8124, 8124, 1, -9); (8136, 8139, 1, -86);
   (8140, 8140, 1, -9); (8152, 8153, 1, -8); (8154, 8155, 1, -100);
   (8168, 8169, 1, -8); (8170, 8171, 1, -112); (8172, 8172, 1, -7);
   (8184, 8185, 1, -128); (8186, 8187, 1, -126); (8188, 8188, 1, -9);
   (8486, 8486, 1, -7517); (8490, 8490, 1, -8383); (8491, 8491, 1, -8262);
   (8498, 8498, 1, 28); (8544, 8559, 1, 16); (8579, 8579, 1, 1);
   (9398, 9423, 1, 26); (11264, 11311, 1, 48); (11360, 11360, 1, 1);
   (11362, 11362, 1, -10743); (11363, 11363, 1, -3814);
   (11364, 11364, 1, -10727); (11367, 11371, 2, 1);
   (11373, 11373, 1, -10780); (11374, 11374, 1, -10749);
   (11375, 11375, 1, -10783); (11376, 11376, 1, -10782);
   (11378, 11378, 1, 1); (11381, 11381, 1, 1); (11390, 11391, 1, -10815);
   (11392, 11490, 2, 1); (11499, 11501, 2, 1); (11506, 11506, 1, 1);
   (42560, 42604, 2, 1); (42624, 42650, 2, 1); (42786, 42798, 2, 1);
   (42802, 42862, 2, 1); (42873, 42875, 2, 1); (42877, 42877, 1, -35332);
   (42878, 42886, 2, 1); (42891, 42891, 1, 1); (42893, 42893, 1, -42280);
   (42896, 42898, 2, 1); (42902, 42920, 2, 1); (42922, 42922, 1, -42308);
   (42923, 42923, 1, -42319); (42924, 42924, 1, -42315);
   (42925, 42925, 1, -42305); (42926, 42926, 1, -42308);
   (42928, 42928, 1, -42258); (42929, 42929, 1, -42282);
   (42930, 42930, 1, -42261); (42931, 42931, 1, 928); (42932, 42946, 2, 1);
   (42948, 42948, 1, -48); (42949, 42949, 1, -42307);
   (42950, 42950, 1, -35384); (42951, 42953, 2, 1); (42960, 42960, 1, 1);
   (42966, 42968, 2, 1); (42997, 42997, 1, 1); (65313, 65338, 1, 32);
   (66560, 66599, 1, 40); (66736, 66771, 1, 40); (66928, 66938, 1, 39);
   (66940, 66954, 1, 39); (66956, 66962, 1, 39); (66964, 66965, 1, 39);
   (68736, 68786, 1, 64); (71840, 71871, 1, 32); (93760, 93791, 1, 32);
   (125184, 125217, 1, 34)].

(** The code points with the property Case_Ignorable, as ranges. *)
Definition ignorableRanges : list (Z * Z) :=
  [(39, 39); (46, 46); (58, 58); (94, 94); (96, 96); (168, 168); (173, 173);
   (175, 175); (180, 180); (183, 184); (688, 879); (884, 885); (890, 890);
   (900, 901); (903, 903); (1155, 1161); (1369, 1369); (1375, 1375);
   (1425, 1469); (1471, 1471); (1473, 1474); (1476, 1477); (1479, 1479);
   (1524, 1524); (1536, 1541); (1552, 1562); (1564, 1564); (1600, 1600);
   (1611, 1631); (1648, 1648); (1750, 1757); (1759, 1768); (1770, 1773);
   (1807, 1807); (1809, 1809); (1840, 1866); (1958, 1968); (2027, 2037);
   (2042, 2042); (2045, 2045); (2070, 2093); (2137, 2139); (2184, 2184);
   (2192, 2193); (2200, 2207); (2249, 2306); (2362, 2362); (2364, 2364);
   (2369, 2376); (2381, 2381); (2385, 2391); (2402, 2403); (2417, 2417);
   (2433, 2433); (2492, 2492); (2497, 2500); (2509, 2509); (2530, 2531);
   (2558, 2558); (2561, 2562); (2620, 2620); (2625, 2626); (2631, 2632);
   (2635, 2637); (2641, 2641); (2672, 2673); (2677, 2677); (2689, 2690);
   (2748, 2748); (2753, 2757); (2759, 2760); (2765, 2765); (2786, 2787);
   (2810, 2815); (2817, 2817); (2876, 2876); (2879, 2879); (2881, 2884);
   (2893, 2893); (2901, 2902); (2914, 2915); (2946, 2946); (3008, 3008);
   (3021, 3021); (3072, 3072); (3076, 3076); (3132, 3132); (3134, 3136);
   (3142, 3144); (3146, 3149); (3157, 3158); (3170, 3171); (3201, 3201);
   (3260, 3260); (3263, 3263); (3270, 3270); (3276, 3277); (3298, 3299);
   (3328, 3329); (3387, 3388); (3393, 3396); (3405, 3405); (3426, 3427);
   (3457, 3457); (3530, 3530); (3538, 3540); (3542, 3542); (3633, 3633);
   (3636, 3642); (3654, 3662); (3761, 3761); (3764, 3772); (3782, 3782);
   (3784, 3789); (3864, 3865); (3893, 3893); (3895, 3895); (3897, 3897);
   (3953, 3966); (3968, 3972); (3974, 3975); (3981, 3991); (3993, 4028);
   (4038, 4038); (4141, 4144); (4146, 4151); (4153, 4154); (4157, 4158);
   (4184, 4185); (4190, 4192); (4209, 4212); (4226, 4226); (4229, 4230);
   (4237, 4237); (4253, 4253); (4348, 4348); (4957, 4959); (5906, 5908);
   (5938, 5939); (5970, 5971); (6002, 6003); (6068, 6069); (6071, 6077);
   (6086, 6086); (6089, 6099); (6103, 6103); (6109, 6109); (6155, 6159);
   (6211, 6211); (6277, 6278); (6313, 6313); (6432, 6434); (6439, 6440);
   (6450, 6450); (6457, 6459); (6679, 6680); (6683, 6683); (6742, 6742);
   (6744, 6750); (6752, 6752); (6754, 6754); (6757, 6764); (6771, 6780);
   (6783, 6783); (6823, 6823); (6832, 6862); (6912, 6915); (6964, 6964);
   (6966, 6970); (6972, 6972); (6978, 6978); (7019, 7027); (7040, 7041);
   (7074, 7077); (7080, 7081); (7083, 7085); (7142, 7142); (7144, 7145);
   (7149, 7149); (7151, 7153); (7212, 7219); (7222, 7223); (7288, 7293);
   (7376, 7378); (7380, 7392); (7394, 7400); (7405, 7405); (7412, 7412);
   (7416, 7417); (7468, 7530); (7544, 7544); (7579, 7679); (8125, 8125);
   (8127, 8129); (8141, 8143); (8157, 8159); (8173, 8175); (8189, 8190);
   (8203, 8207); (8216, 8217); (8228, 8228); (8231, 8231); (8234, 8238);
   (8288, 8292); (8294, 8303); (8305, 8305); (8319, 8319); (8336, 8348);
   (8400, 8432); (11388, 11389); (11503, 11505); (11631, 11631);
   (11647, 11647); (11744, 11775); (11823, 11823); (12293, 12293);
   (12330, 12333); (12337, 12341); (12347, 12347); (12441, 12446);
   (12540, 12542); (40981, 40981); (42232, 42237); (42508, 42508);
   (42607, 42610); (42612, 42621); (42623, 42623); (42652, 42655);
   (42736, 42737); (42752, 42785); (42864, 42864); (42888, 42890);
   (42994, 42996); (43000, 43001); (43010, 43010); (43014, 43014);
   (43019, 43019); (43045, 43046); (43052, 43052); (43204, 43205);
   (43232, 43249); (43263, 43263); (43302, 43309); (43335, 43345);
   (43392, 43394); (43443, 43443); (43446, 43449); (43452, 43453);
   (43471, 43471); (43493, 43494); (43561, 43566); (43569, 43570);
   (43573, 43574); (43587, 43587); (43596, 43596); (43632, 43632);
   (43644, 43644); (43696, 43696); (43698, 43700); (43703, 43704);
   (43710, 43711); (43713, 43713); (43741, 43741); (43756, 43757);
   (43763, 43764); (43766, 43766); (43867, 43871); (43881, 43883);
   (44005, 44005); (44008, 44008); (44013, 44013); (64286, 64286);
   (64434, 64450); (65024, 65039); (65043, 65043); (65056, 65071);
   (65106, 65106); (65109, 65109); (65279, 65279); (65287, 65287);
   (65294, 65294); (65306, 65306); (65342, 65342); (65344, 65344);
   (65392, 65392); (65438, 65439); (65507, 65507); (65529, 65531);
   (66045, 66045); (66272, 66272); (66422, 66426); (67456, 67461);
   (67463, 67504); (67506, 67514); (68097, 68099); (68101, 68102);
   (68108, 68111); (68152, 68154); (68159, 68159); (68325, 68326);
   (68900, 68903); (69291, 69292); (69446, 69456); (69506, 69509);
   (69633, 69633); (69688, 69702); (69744, 69744); (69747, 69748);
   (69759, 69761); (69811, 69814); (69817, 69818); (69821, 69821);
   (69826, 69826); (69837, 69837); (69888, 69890); (69927, 69931);
   (69933, 69940); (70003, 70003); (70016, 70017); (70070, 70078);
   (70089, 70092); (70095, 70095); (70191, 70193); (70196, 70196);
   (70198, 70199); (70206, 70206); (70367, 70367); (70371, 70378);
   (70400, 70401); (70459, 70460); (70464, 70464); (70502, 70508);
   (70512, 70516); (70712, 70719); (70722, 70724); (70726, 70726);
   (70750, 70750); (70835, 70840); (70842, 70842); (70847, 70848);
   (70850, 70851); (71090, 71093); (71100, 71101); (71103, 71104);
   (71132, 71133); (71219, 71226); (71229, 71229); (71231, 71232);
   (71339, 71339); (71341, 71341); (71344, 71349); (71351, 71351);
   (71453, 71455); (71458, 71461); (71463, 71467); (71727, 71735);
   (71737, 71738); (71995, 71996); (71998, 71998); (72003, 72003);
   (72148, 72151); (72154, 72155); (72160, 72160); (72193, 72202);
   (72243, 72248); (72251, 72254); (72263, 72263); (72273, 72278);
   (72281, 72283); (72330, 72342); (72344, 72345); (72752, 72758);
   (72760, 72765); (72767, 72767); (72850, 72871); (72874, 72880);
   (72882, 72883); (72885, 72886); (73009, 73014); (73018, 73018);
   (73020, 73021); (73023, 73029); (73031, 73031); (73104, 73105);
   (73109, 73109); (73111, 73111); (73459, 73460); (78896, 78904);
   (92912, 92916); (92976, 92982); (92992, 92995); (94031, 94031);
   (94095, 94111); (94176, 94177); (94179, 94180); (110576, 110579);
   (110581, 110587); (110589, 110590); (113821, 113822); (113824, 113827);
   (118528, 118573); (118576, 118598); (119143, 119145); (119155, 119170);
   (119173, 119179); (119210, 119213); (119362, 119364); (121344, 121398);
   (121403, 121452); (121461, 121461); (121476, 121476); (121499, 121503);
   (121505, 121519); (122880, 122886); (122888, 122904); (122907, 122913);
   (122915, 122916); (122918, 122922); (123184, 123197); (123566, 123566);
   (123628, 123631); (125136, 125142); (125252, 125259); (127995, 127999);
   (917505, 917505); (917536, 917631); (917760, 917999)].

(** The code points with the property Cased and without Case_Ignorable. *)
Definition casedRanges : list (Z * Z) :=
  [(65, 90); (97, 122); (170, 170); (181, 181); (186, 186); (192, 214);
   (216, 246); (248, 442); (444, 447); (452, 659); (661, 687); (880, 883);
   (886, 887); (891, 893); (895, 895); (902, 902); (904, 906); (908, 908);
   (910, 929); (931, 1013); (1015, 1153); (1162, 1327); (1329, 1366);
   (1376, 1416); (4256, 4293); (4295, 4295); (4301, 4301); (4304, 4346);
   (4349, 4351); (5024, 5109); (5112, 5117); (7296, 7304); (7312, 7354);
   (7357, 7359); (7424, 7467); (7531, 7543); (7545, 7578); (7680, 7957);
   (7960, 7965); (7968, 8005); (8008, 8013); (8016, 8023); (8025, 8025);
   (8027, 8027); (8029, 8029); (8031, 8061); (8064, 8116); (8118, 8124);
   (8126, 8126); (8130, 8132); (8134, 8140); (8144, 8147); (8150, 8155);
   (8160, 8172); (8178, 8180); (8182, 8188); (8450, 8450); (8455, 8455);
   (8458, 8467); (8469, 8469); (8473, 8477); (8484, 8484); (8486, 8486);
   (8488, 8488); (8490, 8493); (8495, 8500); (8505, 8505); (8508, 8511);
   (8517, 8521); (8526, 8526); (8544, 8575); (8579, 8580); (9398, 9449);
   (11264, 11387); (11390, 11492); (11499, 11502); (11506, 11507);
   (11520, 11557); (11559, 11559); (11565, 11565); (42560, 42605);
   (42624, 42651); (42786, 42863); (42865, 42887); (42891, 42894);
   (42896, 42954); (42960, 42961); (42963, 42963); (42965, 42969);
   (42997, 42998); (43002, 43002); (43824, 43866); (43872, 43880);
   (43888, 43967); (64256, 64262); (64275, 64279); (65313, 65338);
   (65345, 65370); (66560, 66639); (66736, 66771); (66776, 66811);
   (66928, 66938); (66940, 66954); (66956, 66962); (66964, 66965);
   (66967, 66977); (66979, 66993); (66995, 67001); (67003, 67004);
   (68736, 68786); (68800, 68850); (71840, 71903); (93760, 93823);
   (119808, 119892); (119894, 119964); (119966, 119967); (119970, 119970);
   (119973, 119974); (119977, 119980); (119982, 119993); (119995, 119995);
   (119997, 120003); (120005, 120069); (120071, 120074); (120077, 120084);
   (120086, 120092); (120094, 120121); (120123, 120126); (120128, 120132);
   (120134, 120134); (120138, 120144); (120146, 120485); (120488, 120512);
   (120514, 120538); (120540, 120570); (120572, 120596); (120598, 120628);
   (120630, 120654); (120656, 120686); (120688, 120712); (120714, 120744);
   (120746, 120770); (120772, 120779); (122624, 122633); (122635, 122654);
   (125184, 125251); (127280, 127305); (127312, 127337); (127344, 127369)].

Definition inEntry (c : Z) (e : Z * Z * Z * Z) : bool :=
  let '(lo, hi, step, _) := e in
  (lo <=? c) && (c <=? hi) && ((c - lo) mod step =? 0).

Fixpoint lookup (c : Z) (table : list (Z * Z * Z * Z)) : Z :=
  match table with
  | [] => c
  | e :: table' => if inEntry c e then c + e.2 else lookup c table'
  end.

(** The simple lower-case mapping of the code point [c]. *)
Definition lowerCp (c : Z) : Z := lookup c lowerTable.

Definition inRanges (c : Z) (l : list (Z * Z)) : bool :=
  existsb (fun r => (r.1 <=? c) && (c <=? r.2)) l.

Definition caseIgnorable (c : Z) : bool := inRanges c ignorableRanges.

(** Cased, and not skipped as case-ignorable. *)
Definition casedLetter (c : Z) : bool := inRanges c casedRanges.

End Ucd.

(** ** Text as code points *)

Module Utf8.

(** What a text holds at a place: a code point, well encoded, or a byte that
    belongs to no well-formed sequence (the text of a JavaScript string has
    none). *)
Inductive Unit :=
| Cp (c : Z)
| Raw (b : ascii).

Definition byte (a : ascii) : Z := Z.of_N (N_of_ascii a).

Definition chr (n : Z) : ascii := ascii_of_N (Z.to_N n).

(** A continuation byte, [10xxxxxx] *)
Definition cont (b : Z) : bool := (128 <=? b) && (b <=? 191).

(** The code point that the byte [b1] and the bytes after it encode, and how
    many of the bytes after it belong to it, when they are a well-formed
    sequence: the shortest encoding of a code point up to U+10FFFF.  A
    surrogate, which stands alone in a JavaScript string that was cut
    within a pair, is read like any code point of three bytes. *)
Definition headCp (b1 : Z) (rest : string) : option (Z * nat) :=
  if b1 <? 128 then Some (b1, 0%nat)
  else
    match rest with
    | String a2 rest2 =>
        let b2 := byte a2 in
        if (194 <=? b1) && (b1 <=? 223) then
          if cont b2 then Some ((b1 - 192) * 64 + (b2 - 128), 1%nat)
          else None
        else
          match rest2 with
          | String a3 rest3 =>
              let b3 := byte a3 in
              if (224 <=? b1) && (b1 <=? 239) then
                if cont b2 && cont b3 && ((160 <=? b2) || negb (b1 =? 224))
                then Some (((b1 - 224) * 64 + (b2 - 128)) * 64 + (b3 - 128),
                           2%nat)
                else None
              else
                match rest3 with
                | String a4 _ =>
                    let b4 := byte a4 in
                    if (240 <=? b1) && (b1 <=? 244)
                       && cont b2 && cont b3 && cont b4
                       && ((144 <=? b2) || negb (b1 =? 240))
                       && ((b2 <=? 143) || negb (b1 =? 244))
                    then Some ((((b1 - 240) * 64 + (b2 - 128)) * 64
                                + (b3 - 128)) * 64 + (b4 - 128), 3%nat)
                    else None
                | EmptyString => None
                end
          | EmptyString => None
          end
    | EmptyString => None
    end.

(** The text after [n] more bytes, three at most. *)
Definition skip (n : nat) (s : string) : string :=
  match n, s with
  | O, _ => s
  | S O, String _ s1 => s1
  | S (S O), String _ (String _ s2) => s2
  | S (S (S _)), String _ (String _ (String _ s3)) => s3
  | _, _ => EmptyString
  end.

Fixpoint decode (s : string) : list Unit :=
  match s with
  | EmptyString => []
  | String a1 s1 =>
      match headCp (byte a1) s1 with
      | Some (c, n) =>
          Cp c :: match n, s1 with
                  | O, _ => decode s1
                  | S O, String _ s2 => decode s2
                  | S (S O), String _ (String _ s3) => decode s3
                  | S (S (S _)), String _ (String _ (String _ s4)) =>
                      decode s4
                  | _, _ => []
                  end
      | None => Raw a1 :: decode s1
      end
  end.

Definition encodeCp (c : Z) : string :=
  if c <? 128 then String (chr c) EmptyString
  else if c <? 2048 then
    String (chr (192 + c / 64)) (String (chr (128 + c mod 64)) EmptyString)
  else if c <? 65536 then
    String (chr (224 + c / 4096))
      (String (chr (128 + c / 64 mod 64))
         (String (chr (128 + c mod 64)) EmptyString))
  else
    String (chr (240 + c / 262144))
      (String (chr (128 + c / 4096 mod 64))
         (String (chr (128 + c / 64 mod 64))
            (String (chr (128 + c mod 64)) EmptyString))).

Definition encodeUnit (u : Unit) : string :=
  match u with
  | Cp c => encodeCp c
  | Raw b => String b EmptyString
  end.

Fixpoint encode (l : list Unit) : string :=
  match l with
  | [] => EmptyString
  | u :: l' => encodeUnit u +:+ encode l'
  end.

(** Whether a cased letter follows, case-ignorable code points apart. *)
Fixpoint followedByCased (l : list Unit) : bool :=
  match l with
  | Cp c :: l' =>
      if Ucd.caseIgnorable c then followedByCased l' else Ucd.casedLetter c
  | _ => false
  end.

(** The lower-case mapping of Unicode, without a locale: the simple
    mappings, U+0130 to [i] and a combining dot, and the capital sigma to
    the final sigma when a cased letter precedes it and none follows
    (case-ignorable code points apart).  [afterCased] tells whether a
    cased letter precedes. *)
Fixpoint lowerUnits (afterCased : bool) (l : list Unit) : list Unit :=
  match l with
  | [] => []
  | Cp c :: l' =>
      (if c =? 931 then
         [Cp (if afterCased && negb (followedByCased l') then 962 else 963)]
       else if c =? 304 then [Cp 105; Cp 775]
       else [Cp (Ucd.lowerCp c)])
      ++ lowerUnits (if Ucd.caseIgnorable c then afterCased
                     else Ucd.casedLetter c) l'
  | Raw b :: l' => Raw b :: lowerUnits false l'
  end.

(** The first [n] UTF-16 code units: a code point from U+10000 on takes
    two, and a cut between the two leaves its high surrogate. *)
Fixpoint takeUnits (n : nat) (l : list Unit) : list Unit :=
  match n, l with
  | S n', Cp c :: l' =>
      if c <? 65536 then Cp c :: takeUnits n' l'
      else match n' with
           | O => [Cp (55296 + (c - 65536) / 1024)]
           | S n'' => Cp c :: takeUnits n'' l'
           end
  | S n', Raw b :: l' => Raw b :: takeUnits n' l'
  | _, _ => []
  end.

End Utf8.

(** ** Strings *)

Module Str.

(** [String.prototype.toLowerCase]: the lower-case mapping of Unicode on
    the code points of the text. *)
Definition toLowerCase (s : string) : string :=
  Utf8.encode (Utf8.lowerUnits false (Utf8.decode s)).

(** [s.slice(0, n)] *)
Definition sliceTo (n : nat) (s : string) : string :=
  Utf8.encode (Utf8.takeUnits n (Utf8.decode s)).

(** [s.includes(sub)] *)
Fixpoint includes (s sub : string) : bool :=
  String.prefix sub s
  || match s with
     | EmptyString => false
     | String _ s' => includes s' sub
     end.

(** [s.endsWith(suf)] *)
Fixpoint endsWith (s suf : string) : bool :=
  String.eqb s suf
  || match s with
     | EmptyString => false
     | String _ s' => endsWith s' suf
     end.

Fixpoint count (c : ascii) (s : string) : nat :=
  match s with
  | EmptyString => 0%nat
  | String d s' => ((if Ascii.eqb c d then 1 else 0) + count c s')%nat
  end.

(** [s.split(sep).length] for a one-character separator *)
Definition splitLength (sep : ascii) (s : string) : nat := S (count sep s).

(** [arr.join(sep)] *)
Fixpoint join (sep : string) (l : list string) : string :=
  match l with
  | [] => EmptyString
  | [s] => s
  | s :: l' => s +:+ sep +:+ join sep l'
  end.

Definition isSpace (c : ascii) : bool :=
  let n := nat_of_ascii c in
  ((n =? 32) || ((9 <=? n) && (n <=? 13)))%nat.

Definition digit (c : ascii) : option Z :=
  let n := nat_of_ascii c in
  if ((48 <=? n) && (n <=? 57))%nat then Some (Z.of_nat (n - 48)) else None.

(** U+00A0, the no-break space, in two bytes *)
Definition white2 (a1 a2 : ascii) : bool :=
  (Utf8.byte a1 =? 194) && (Utf8.byte a2 =? 160).

(** The white space and the line terminators of three bytes: U+1680,
    U+2000 to U+200A, U+2028, U+2029, U+202F, U+205F, U+3000 and U+FEFF. *)
Definition white3 (a1 a2 a3 : ascii) : bool :=
  let b1 := Utf8.byte a1 in
  let b2 := Utf8.byte a2 in
  let b3 := Utf8.byte a3 in
  ((b1 =? 225) && (b2 =? 154) && (b3 =? 128))
  || ((b1 =? 226) && (b2 =? 128)
      && (((128 <=? b3) && (b3 <=? 138)) || (b3 =? 168) || (b3 =? 169)
          || (b3 =? 175)))
  || ((b1 =? 226) && (b2 =? 129) && (b3 =? 159))
  || ((b1 =? 227) && (b2 =? 128) && (b3 =? 128))
  || ((b1 =? 239) && (b2 =? 187) && (b3 =? 191)).

(** [s.trimStart()]: the text after the white space and the line
    terminators that it begins with ([isSpace] tells those of ASCII). *)
Fixpoint skipSpaces (s : string) : string :=
  match s with
  | String a1 s1 =>
      if isSpace a1 then skipSpaces s1
      else
        match s1 with
        | String a2 s2 =>
            if white2 a1 a2 then skipSpaces s2
            else
              match s2 with
              | String a3 s3 =>
                  if white3 a1 a2 a3 then skipSpaces s3 else s
              | EmptyString => s
              end
        | EmptyString => s
        end
  | EmptyString => s
  end.

(** the longest prefix of decimal digits, folded from the left; [None]
    when there is no digit at all *)
Fixpoint digits (acc : option Z) (s : string) : option Z :=
  match s with
  | String c s' =>
      match digit c with
      | Some d => digits (Some (10 * default 0 acc + d)) s'
      | None => acc
      end
  | EmptyString => acc
  end.

(** [parseInt(s, 10)]; [None] is NaN *)
Definition parseInt (s : string) : option Z :=
  match skipSpaces s with
  | String "-" s' => Z.opp <$> digits None s'
  | String "+" s' => digits None s'
  | s' => digits None s'
  end.

Definition hexDigit (n : nat) : ascii :=
  ascii_of_nat (if (n <? 10)%nat then 48 + n else 55 + n).

Definition unreserved (c : ascii) : bool :=
  let n := nat_of_ascii c in
  (((65 <=? n) && (n <=? 90)) || ((97 <=? n) && (n <=? 122))
   || ((48 <=? n) && (n <=? 57))
   || bool_decide (n ∈ [45; 95; 46; 33; 126; 42; 39; 40; 41]))%nat.

(** [encodeURIComponent(s)] on the UTF-8 bytes of [s] *)
Fixpoint encodeURIComponent (s : string) : string :=
  match s with
  | EmptyString => EmptyString
  | String c s' =>
      if unreserved c then String c (encodeURIComponent s')
      else
        let n := nat_of_ascii c in
        String "%" (String (hexDigit (n / 16)) (String (hexDigit (n mod 16))
          (encodeURIComponent s')))
  end.

End Str.

(** ** Numbers *)

Module Num.

(** A JavaScript number that holds an integer, an infinity ([negative]
    tells which) or NaN.  The back-off is computed with such numbers, in
    IEEE 754 double precision: a result is the exact one rounded to 53
    significant bits, ties to even, and to an infinity from [2^1024 - 2^970]
    on.  The two zeros are not told apart. *)
Inductive t :=
| NaN
| Fin (z : Z)
| Inf (negative : bool).

(** The double nearest to the integer [z]. *)
Definition round (z : Z) : t :=
  let a := Z.abs z in
  if a <=? 2 ^ 53 then Fin z
  else
    let e := Z.log2 a - 52 in
    let q := a / 2 ^ e in
    let r := a mod 2 ^ e in
    let half := 2 ^ (e - 1) in
    let q' := if r <? half then q
              else if half <? r then q + 1
              else if Z.even q then q else q + 1 in
    let m := q' * 2 ^ e in
    if 2 ^ 1024 <=? m then Inf (z <? 0) else Fin (Z.sgn z * m).

(** The number that [parseInt] returns: the integer read, rounded (V8 rounds
    the decimal digits correctly); [None] is NaN. *)
Definition ofInt (o : option Z) : t :=
  match o with
  | Some z => round z
  | None => NaN
  end.

(** [a * b] *)
Definition mul (a b : t) : t :=
  match a, b with
  | NaN, _ | _, NaN => NaN
  | Fin x, Fin y => round (x * y)
  | Inf n, Fin y | Fin y, Inf n => if y =? 0 then NaN else Inf (xorb n (y <? 0))
  | Inf n, Inf n' => Inf (xorb n n')
  end.

(** [a + b] *)
Definition add (a b : t) : t :=
  match a, b with
  | NaN, _ | _, NaN => NaN
  | Fin x, Fin y => round (x + y)
  | Inf n, Fin _ | Fin _, Inf n => Inf n
  | Inf n, Inf n' => if Bool.eqb n n' then Inf n else NaN
  end.

(** [- a] *)
Definition opp (a : t) : t :=
  match a with
  | NaN => NaN
  | Fin x => Fin (- x)
  | Inf n => Inf (negb n)
  end.

(** [a - b] *)
Definition sub (a b : t) : t := add a (opp b).

(** [Math.max(a, b)] *)
Definition max (a b : t) : t :=
  match a, b with
  | NaN, _ | _, NaN => NaN
  | Inf false, _ | _, Inf false => Inf false
  | Inf true, x | x, Inf true => x
  | Fin x, Fin y => Fin (Z.max x y)
  end.

(** An integer that doubles hold exactly, with its neighbours:
    [Number.isSafeInteger]. *)
Definition safe (z : Z) : Prop := - 2 ^ 53 < z < 2 ^ 53.

End Num.

(** ** JavaScript values read from [package.json] *)

Inductive JSON :=
| JNull
| JBool (b : bool)
| JNum (n : Z)
| JStr (s : string)
| JArr (l : list JSON)
| JObj (fields : list (string * JSON)).

Module Js.

(** ToBoolean *)
Definition truthy (j : JSON) : bool :=
  match j with
  | JNull => false
  | JBool b => b
  | JNum n => negb (n =? 0)
  | JStr s => negb (String.eqb s "")
  | JArr _ | JObj _ => true
  end.

(** ToBoolean of a value that may be [undefined] ([None]) *)
Definition truthyU (v : option JSON) : bool :=
  match v with
  | Some j => truthy j
  | None => false
  end.

Fixpoint assoc (k : string) (fields : list (string * JSON)) : option JSON :=
  match fields with
  | [] => None
  | (k', v) :: fields' => if String.eqb k k' then Some v else assoc k fields'
  end.

(** [j[k]] and [j?.k]: the own property [k] of an object; [undefined] on
    every other value.  Members inherited from the prototypes
    ([constructor], [length], ...) are left out: none of the keys the
    scripts look up names one. *)
Definition prop (j : JSON) (k : string) : option JSON :=
  match j with
  | JObj fields => assoc k fields
  | _ => None
  end.

(** [v || {}] *)
Definition orEmptyObject (v : option JSON) : JSON :=
  match v with
  | Some j => if truthy j then j else JObj []
  | None => JObj []
  end.

Fixpoint chars (s : string) : list JSON :=
  match s with
  | EmptyString => []
  | String c s' => JStr (String c EmptyString) :: chars s'
  end.

(** [Object.values(j)] *)
Definition values (j : JSON) : list JSON :=
  match j with
  | JObj fields => snd <$> fields
  | JArr l => l
  | JStr s => chars s
  | _ => []
  end.

(** [l.filter((s) => typeof s === 'string')] *)
Fixpoint strings (l : list JSON) : list string :=
  match l with
  | [] => []
  | JStr s :: l' => s :: strings l'
  | _ :: l' => strings l'
  end.

End Js.


(** ** The GitHub API as the scripts see it *)

(** The URL of a GET request.  [ApiContents o r p] is
    [https://api.github.com/repos/o/r/contents/p], with [p] the text put
    after [contents/] (percent-encoded by [getRepoContent], raw in the
    directory listings of the source scan). *)
Inductive Url :=
| ApiLanguages (owner repo : string)
| ApiTopics (owner repo : string)
| ApiContents (owner repo path : string)
| ApiReadme (owner repo : string)
| ApiSearch (q : string) (per_page page : Z).

(** An entry of a directory listing of the contents API. *)
Record DirEntry := {
  e_type : string;
  e_name : string;
  e_path : string;
}.

(** An item of [GET /search/repositories]. *)
Record Item := {
  full_name : string;
  owner_login : string;
  name : string;
  description : option string;
  stargazers_count : Z;
}.

(** The JSON document of a response, by endpoint. *)
Inductive Body :=
| BLanguages (langs : gmap string Z)
| BTopics (names : list string)
| BFile (encoding content : string)
| BDir (entries : list DirEntry)
| BSearch (total_count : Z) (items : list Item)
| BOther.

(** What the scripts read of a [Response]: [json] is [None] when
    [res.json()] rejects (the scripts turn that into [null]). *)
Record Response := {
  status : Z;
  x_ratelimit_remaining : option string;
  x_ratelimit_reset : option string;
  json : option Body;
}.

(** [res.ok] *)
Definition ok (res : Response) : bool :=
  (200 <=? status res) && (status res <=? 299).

(** The outcome of one [fetch]: the time it took and the response, or no
    response when the promise rejects (network failure, or the abort that
    [fetchWithTimeout] arms after 30 s). *)
Record Fetched := {
  elapsed : N;
  reply : option Response;
}.

(** Everything outside the script: the network, the termination signals,
    the two library decoders, and the configuration read from the process
    environment. *)
Record Env := {
  net : Url -> Z -> Fetched;
  stopRequestedAt : Z -> bool;
  base64_utf8 : string -> string;
  JSON_parse : string -> option JSON;
  BATCH_SIZE : Z;
  SLEEP_BETWEEN_PAGES_MS : Z;
  MAX_QUALIFIED : Z;
  MAX_ANALYZED : Z;
  REQUIRE_FRONTEND_TESTS : bool;
  EXCLUDE_COURSE_BOILERPLATE : bool;
  README_COURSE_CHECK : bool;
  EXTRA_COURSE_KEYWORDS : list string;
  EXTRA_BOILERPLATE_KEYWORDS : list string;
  queries : list string;
}.

Inductive Err :=
| FetchFailed (url : Url)
| HttpError (url : Url) (code : Z).

(** Lines written with [console.log], [console.warn] and [console.error]. *)
Inductive Msg :=
| WarnRateLimit (waitMs : Num.t)
| LogPackageJson (react jest feLibs : bool)
| LogScanStart
| LogTestFile (path : string)
| LogScanFound
| LogScanError (e : Err)
| LogQuery (q : string)
| LogPage (total page : Z) (n : nat)
| LogMaxAnalyzed
| LogAnalyzing (repo : string)
| LogExcluded (repo : string)
| LogMissingTsReact (repo : string)
| LogNoFrontendTests (repo : string)
| LogRegistered (repo : string) (total : Z)
| LogMaxQualified
| WarnAnalysisFailed (repo : string) (e : Err)
| ErrSearch (e : Err)
| LogLastPage
| LogQueryDone.

Record World := {
  now : Z;
  requests : list (Url * Z);
  slept : list Num.t;
  console : list Msg;
}.

(** ** Asynchronous computations *)

Inductive Res (A : Type) :=
| Ret (a : A)
| Throw (e : Err)
| Hang.
Arguments Ret {A} a.
Arguments Throw {A} e.
Arguments Hang {A}.

(** A computation over a state [S]: the [World] for the client and the
    detector, the [Run] of [main] (which holds a [World]) for the driver. *)
Definition M (S A : Type) : Type := S -> Res A * S.

Definition ret {S A} (a : A) : M S A := fun s => (Ret a, s).

Definition throw {S A} (e : Err) : M S A := fun s => (Throw e, s).

Definition hang {S A} : M S A := fun s => (Hang, s).

Definition bind {S A B} (m : M S A) (k : A -> M S B) : M S B := fun s =>
  match m s with
  | (Ret a, s') => k a s'
  | (Throw e, s') => (Throw e, s')
  | (Hang, s') => (Hang, s')
  end.

(** [try { m } catch (e) { h e }] and [m.catch(h)] *)
Definition catch {S A} (m : M S A) (h : Err -> M S A) : M S A := fun s =>
  match m s with
  | (Throw e, s') => h e s'
  | r => r
  end.

Notation "x <- m ;; k" := (bind m (fun x => k))
  (at level 100, m at next level, right associativity).
Notation "m ;;; k" := (bind m (fun _ => k))
  (at level 100, right associativity).

(** [Date.now()] *)
Definition dateNow : M World Z := fun w => (Ret (now w), w).

(** The longest delay of a Node timer, in milliseconds: [2^31 - 1], about
    24.8 days. *)
Definition TIMEOUT_MAX : Z := 2147483647.

(** The delay that [setTimeout(f, ms)] arms: Node sets a delay that is NaN,
    less than 1 or more than [TIMEOUT_MAX] to 1. *)
Definition timerDelay (ms : Num.t) : Z :=
  match ms with
  | Num.Fin z => if (1 <=? z) && (z <=? TIMEOUT_MAX) then z else 1
  | _ => 1
  end.

(** [await sleep(ms)], which is [new Promise((r) => setTimeout(r, ms))]:
    the clock moves on by the delay of the timer. *)
Definition sleep (ms : Num.t) : M World unit := fun w =>
  (Ret tt, {| now := now w + timerDelay ms;
              requests := requests w;
              slept := ms :: slept w;
              console := console w |}).

Definition say (m : Msg) : M World unit := fun w =>
  (Ret tt, {| now := now w;
              requests := requests w;
              slept := slept w;
              console := m :: console w |}).

(** ** Rate-limited HTTP client *)

Section Client.

Context (E : Env).

(** The world when a [fetch] issued in [w] settles. *)
Definition settled (url : Url) (w : World) : World :=
  {| now := now w + Z.of_N (elapsed (net E url (now w)));
     requests := (url, now w) :: requests w;
     slept := slept w;
     console := console w |}.

(** [fetchWithTimeout(url, { method: 'GET' })]: the request is issued at the
    current time; the clock has moved on when the promise settles. *)
Definition fetchWithTimeout (url : Url) : M World Response := fun w =>
  match reply (net E url (now w)) with
  | Some res => (Ret res, settled url w)
  | None => (Throw (FetchFailed url), settled url w)
  end.

(** The world after the back-off of [handleRateLimit]: the warning is
    printed and the client has slept [waitMs]. *)
Definition backedOff (waitMs : Num.t) (w : World) : World :=
  {| now := now w + timerDelay waitMs;
     requests := requests w;
     slept := waitMs :: slept w;
     console := WarnRateLimit waitMs :: console w |}.

(** ToBoolean of a header value ([null] when the header is missing) *)
Definition present (h : option string) : bool :=
  match h with
  | Some s => negb (String.eqb s "")
  | None => false
  end.

(** [remaining === '0' && reset] inside [res.status === 403] *)
Definition quotaExhausted (res : Response) : bool :=
  (status res =? 403)
  && bool_decide (x_ratelimit_remaining res = Some "0"%string)
  && present (x_ratelimit_reset res).

(** [Math.max(0, parseInt(reset, 10) * 1000 - Date.now()) + 5000] when
    [Date.now()] is [t] *)
Definition waitMsAt (t : Z) (reset : string) : Num.t :=
  Num.add
    (Num.max (Num.Fin 0)
       (Num.sub (Num.mul (Num.ofInt (Str.parseInt reset)) (Num.Fin 1000))
          (Num.round t)))
    (Num.Fin 5000).

Definition handleRateLimit (res : Response) : M World bool :=
  if status res =? 403 then
    let remaining := x_ratelimit_remaining res in
    let reset := x_ratelimit_reset res in
    if bool_decide (remaining = Some "0"%string) && present reset then
      t <- dateNow ;;
      let waitMs := waitMsAt t (default ""%string reset) in
      say (WarnRateLimit waitMs) ;;;
      sleep waitMs ;;;
      ret true
    else ret false
  else ret false.

(** [{ status, data }]; [data] is [None] for [undefined] and for [null]. *)
Record GetResult := {
  g_status : Z;
  g_data : option Body;
}.

(** [ghGET(url)], following at most [n] rounds of its [while (true)]. *)
Fixpoint ghGET_rounds (n : nat) (url : Url) : M World GetResult :=
  match n with
  | O => hang
  | S n' =>
      res <- fetchWithTimeout url ;;
      willRetry <- (if status res =? 403 then handleRateLimit res
                    else ret false) ;;
      if willRetry : bool then ghGET_rounds n' url
      else if status res =? 404 then ret {| g_status := 404; g_data := None |}
      else if negb (ok res) then throw (HttpError url (status res))
      else ret {| g_status := status res; g_data := json res |}
  end.

(** What a round of [ghGET] ends with when it does not retry. *)
Definition conclude (url : Url) (res : Response) : Res GetResult :=
  if status res =? 404 then Ret {| g_status := 404; g_data := None |}
  else if negb (ok res) then Throw (HttpError url (status res))
  else Ret {| g_status := status res; g_data := json res |}.

End Client.

(** ** Manifest inspection (pure) *)

Definition hasDep (pkgJson : JSON) (name : string) : bool :=
  let deps := Js.orEmptyObject (Js.prop pkgJson "dependencies") in
  let dev := Js.orEmptyObject (Js.prop pkgJson "devDependencies") in
  Js.truthyU (Js.prop deps name) || Js.truthyU (Js.prop dev name).

Definition pkgHasAnyDep (pkgJson : JSON) (names : list string) : bool :=
  existsb (fun n => hasDep pkgJson n) names.

Definition scriptsContain (pkgJson : JSON) (substrings : list string) : bool :=
  let scripts := Js.orEmptyObject (Js.prop pkgJson "scripts") in
  let values := Str.toLowerCase <$> Js.strings (Js.values scripts) in
  existsb (fun sub => existsb (fun s => Str.includes s sub) values) substrings.

Record FrontendPkg := {
  fe_hasFrontendTests : bool;
  fe_libs : list string;
  fe_hasJest : bool;
  fe_hasReactDeps : bool;
  fe_hasFrontendTestLibs : bool;
}.

(** [libs.push(x)] under [if (c)] *)
Definition pushIf (c : bool) (x : string) (libs : list string) : list string :=
  if c then libs ++ [x] else libs.

Definition detectFrontendFromPkg (pkgJson : JSON) : FrontendPkg :=
  let hasJest :=
    pkgHasAnyDep pkgJson ["jest"; "@jest/globals"; "ts-jest"; "babel-jest"]
    || scriptsContain pkgJson ["jest"] in
  let hasReactDeps := pkgHasAnyDep pkgJson ["react"; "react-dom"] in
  let hasRTL :=
    pkgHasAnyDep pkgJson ["@testing-library/react"; "@testing-library/jest-dom";
                          "@testing-library/user-event"] in
  let hasEnzyme := pkgHasAnyDep pkgJson ["enzyme"] in
  let libs := pushIf hasJest "jest"
                (pushIf hasEnzyme "enzyme"
                   (pushIf hasRTL "testing-library" [])) in
  let hasFrontendTestLibs := hasRTL || hasEnzyme in
  let hasFrontendTests := hasReactDeps && hasJest && hasFrontendTestLibs in
  {| fe_hasFrontendTests := hasFrontendTests;
     fe_libs := libs;
     fe_hasJest := hasJest;
     fe_hasReactDeps := hasReactDeps;
     fe_hasFrontendTestLibs := hasFrontendTestLibs |}.

(** ** Evidence gathering *)

(** ToBoolean of a string that may be [null] *)
Definition nonEmpty (s : option string) : bool :=
  match s with
  | Some t => negb (String.eqb t "")
  | None => false
  end.

(** [langs && typeof langs.TypeScript === 'number' && langs.TypeScript > 0] *)
Definition declaresTypeScript (langs : Body) : bool :=
  match langs with
  | BLanguages l =>
      match l !! "TypeScript"%string with
      | Some n => 0 <? n
      | None => false
      end
  | _ => false
  end.

(** [topics.map((t) => t.toLowerCase()).includes('react')] *)
Definition topicsIncludeReact (topics : list string) : bool :=
  existsb (String.eqb "react") (Str.toLowerCase <$> topics).

(** [item.name.match(/\.(test|spec)\.tsx?$/)] *)
Definition isTestFileName (n : string) : bool :=
  Str.endsWith n ".test.ts" || Str.endsWith n ".test.tsx"
  || Str.endsWith n ".spec.ts" || Str.endsWith n ".spec.tsx".

Definition hasRenderImport (content : string) : bool :=
  Str.includes content "import { render }"
  && Str.includes content "@testing-library/react".

Definition hasEnzymeImport (content : string) : bool :=
  Str.includes content "enzyme" || Str.includes content "shallow"
  || Str.includes content "mount".

Definition jestConfigCandidates : list string :=
  ["jest.config.js"; "jest.config.cjs"; "jest.config.mjs"; "jest.config.ts";
   "jest.config.json"].

Definition testPatterns : list string := ["src"; "__tests__"; "test"; "tests"].

Section Evidence.

Context (E : Env) (fuel : nat).

(** [ghGET]; [fuel] bounds the rounds of its retry loop. *)
Definition ghGET : Url -> M World GetResult := ghGET_rounds E fuel.

(** [status !== 200 || !data] *)
Definition unusable (r : GetResult) : bool :=
  negb (g_status r =? 200) || negb (bool_decide (is_Some (g_data r))).

Definition getRepoLanguages (owner repo : string) : M World Body :=
  r <- ghGET (ApiLanguages owner repo) ;;
  if unusable r then ret (BLanguages ∅)
  else ret (default BOther (g_data r)).

Definition getRepoTopics (owner repo : string) : M World (list string) :=
  r <- ghGET (ApiTopics owner repo) ;;
  if unusable r then ret []
  else match g_data r with
       | Some (BTopics names) => ret names
       | _ => ret []
       end.

Definition getRepoContent (owner repo pathName : string)
    : M World (option string) :=
  r <- ghGET (ApiContents owner repo (Str.encodeURIComponent pathName)) ;;
  if unusable r then ret None
  else match g_data r with
       | Some (BFile encoding content) =>
           if String.eqb encoding "base64" && negb (String.eqb content "")
           then ret (Some (base64_utf8 E content))
           else ret None
       | _ => ret None
       end.

(** One turn of the [for (const item of contents)] of
    [searchDirectoryForReactTests]: [true] is [return true], [false] goes on
    with the next item.  [recur] is the function itself, for the listing of
    a sub-directory. *)
Definition scanItem (recur : list DirEntry -> string -> M World bool)
    (owner repo basePath : string) (item : DirEntry) : M World bool :=
  if String.eqb (e_type item) "file" then
    if isTestFileName (e_name item) then
      catch
        (content <- getRepoContent owner repo (e_path item) ;;
         if nonEmpty content then
           let text := default ""%string content in
           if hasRenderImport text || hasEnzymeImport text then
             say (LogTestFile (e_path item)) ;;;
             ret true
           else ret false
         else ret false)
        (fun _ => ret false)
    else ret false
  else if String.eqb (e_type item) "dir"
          && negb (String.eqb (e_name item) "node_modules")
          && negb (String.eqb (e_name item) ".git") then
    let depth := Str.splitLength "/" basePath in
    if (depth <? 3)%nat then
      catch
        (r <- ghGET (ApiContents owner repo (e_path item)) ;;
         match g_status r =? 200, g_data r with
         | true, Some (BDir data) => recur data (e_path item)
         | _, _ => ret false
         end)
        (fun _ => ret false)
    else ret false
  else ret false.

Fixpoint scanItems (recur : list DirEntry -> string -> M World bool)
    (owner repo basePath : string) (contents : list DirEntry) : M World bool :=
  match contents with
  | [] => ret false
  | item :: rest =>
      found <- scanItem recur owner repo basePath item ;;
      if found : bool then ret true
      else scanItems recur owner repo basePath rest
  end.

(** [searchDirectoryForReactTests], entered at most [n] levels deep. *)
Fixpoint searchDirectory_levels (n : nat) (owner repo : string)
    (contents : list DirEntry) (basePath : string) : M World bool :=
  match n with
  | O => hang
  | S n' =>
      scanItems (searchDirectory_levels n' owner repo) owner repo basePath
        contents
  end.

Definition searchDirectoryForReactTests
    : string -> string -> list DirEntry -> string -> M World bool :=
  searchDirectory_levels fuel.

(** The [for (const pattern of testPatterns)] of [searchForTestFiles]. *)
Fixpoint searchPatterns (owner repo : string) (foundReactTests : bool)
    (patterns : list string) : M World bool :=
  match patterns with
  | [] => ret foundReactTests
  | pattern :: rest =>
      if foundReactTests then ret foundReactTests
      else
        found <- catch
          (r <- ghGET (ApiContents owner repo pattern) ;;
           match g_status r =? 200, g_data r with
           | true, Some (BDir data) =>
               searchDirectoryForReactTests owner repo data pattern
           | _, _ => ret foundReactTests
           end)
          (fun _ => ret foundReactTests) ;;
        searchPatterns owner repo found rest
  end.

Definition searchForTestFiles (owner repo : string) : M World bool :=
  searchPatterns owner repo false testPatterns.

(** The [for (const file of candidates)] over the Jest configuration files. *)
Fixpoint anyJestConfig (owner repo : string) (candidates : list string)
    : M World bool :=
  match candidates with
  | [] => ret false
  | file :: rest =>
      content <- getRepoContent owner repo file ;;
      if nonEmpty content then ret true
      else anyJestConfig owner repo rest
  end.

(** [tsconfig || tsconfigBase] of the configuration-file layer. *)
Definition anyTsConfig (owner repo : string) : M World bool :=
  tsconfig <- getRepoContent owner repo "tsconfig.json" ;;
  tsconfigBase <- (if nonEmpty tsconfig then ret None
                   else getRepoContent owner repo "tsconfig.base.json") ;;
  ret (nonEmpty tsconfig || nonEmpty tsconfigBase).

(** [JSON.parse(pkgText)] under [if (pkgText)] and [try], then
    [if (pkgJson)]: the manifest, when there is one to inspect. *)
Definition readManifest (pkgText : option string) : option JSON :=
  if nonEmpty pkgText then
    match JSON_parse E (default ""%string pkgText) with
    | Some j => if Js.truthy j then Some j else None
    | None => None
    end
  else None.

End Evidence.

(** ** Technology detector, REST revision with the source scan *)

Module Rest.

Record Tech := {
  hasTS : bool;
  hasReact : bool;
  hasJest : bool;
  hasFrontendTests : bool;
  feLibs : list string;
  topics : list string;
  hasReactDeps : bool;
  hasFrontendTestLibs : bool;
}.

Section Detector.

Context (E : Env) (fuel : nat).

(** [detectTech] up to the configuration-file layer: declared languages,
    manifest, topics, [tsconfig*.json], [jest.config.*]. *)
Definition detectLayers (owner repo : string) : M World Tech :=
  langs <- catch (getRepoLanguages E fuel owner repo)
                 (fun _ => ret (BLanguages ∅)) ;;
  let hasTS0 := declaresTypeScript langs in
  pkgText <- getRepoContent E fuel owner repo "package.json" ;;
  let pkgJson := readManifest E pkgText in
  let hasReactDeps :=
    from_option (fun j => pkgHasAnyDep j ["react"; "react-dom"]) false pkgJson in
  let hasReact0 := hasReactDeps in
  let hasTS1 :=
    from_option (fun j => hasTS0 || pkgHasAnyDep j ["typescript"]) hasTS0
      pkgJson in
  let fe := detectFrontendFromPkg <$> pkgJson in
  let hasFrontendTests0 := from_option fe_hasFrontendTests false fe in
  let feLibs0 := from_option fe_libs [] fe in
  let hasJest0 := from_option fe_hasJest false fe in
  let hasFrontendTestLibs := from_option fe_hasFrontendTestLibs false fe in
  match pkgJson with
  | Some _ => say (LogPackageJson hasReactDeps hasJest0 hasFrontendTestLibs)
  | None => ret tt
  end ;;;
  topics <- catch (getRepoTopics E fuel owner repo) (fun _ => ret []) ;;
  let hasReact := hasReact0 || topicsIncludeReact topics in
  hasTS <- (if negb hasTS1 then anyTsConfig E fuel owner repo
            else ret hasTS1) ;;
  hasJest <- (if negb hasJest0
              then anyJestConfig E fuel owner repo jestConfigCandidates
              else ret hasJest0) ;;
  let feLibs :=
    if negb hasJest0 && hasJest && negb (bool_decide ("jest"%string ∈ feLibs0))
    then feLibs0 ++ ["jest"%string] else feLibs0 in
  ret {| hasTS := hasTS;
         hasReact := hasReact;
         hasJest := hasJest;
         hasFrontendTests := hasFrontendTests0;
         feLibs := feLibs;
         topics := topics;
         hasReactDeps := hasReactDeps;
         hasFrontendTestLibs := hasFrontendTestLibs |}.

(** [hasReact && hasJest && !hasFrontendTestLibs], the guard of the scan *)
Definition scanWanted (t : Tech) : bool :=
  hasReact t && hasJest t && negb (hasFrontendTestLibs t).

(** The source-scan fallback of [detectTech] and its final rule. *)
Definition scanLayer (owner repo : string) (t : Tech) : M World Tech :=
  found <- (if scanWanted t then
              say LogScanStart ;;;
              catch
                (foundTestFiles <- searchForTestFiles E fuel owner repo ;;
                 if foundTestFiles : bool then say LogScanFound ;;; ret true
                 else ret false)
                (fun err => say (LogScanError err) ;;; ret false)
            else ret false) ;;
  let hasFrontendTestLibs := hasFrontendTestLibs t || found in
  let feLibs := pushIf found "test-files" (feLibs t) in
  ret {| hasTS := hasTS t;
         hasReact := hasReact t;
         hasJest := hasJest t;
         hasFrontendTests := hasReact t && hasJest t && hasFrontendTestLibs;
         feLibs := feLibs;
         topics := topics t;
         hasReactDeps := hasReactDeps t;
         hasFrontendTestLibs := hasFrontendTestLibs |}.

Definition detectTech (owner repo : string) : M World Tech :=
  t <- detectLayers owner repo ;;
  scanLayer owner repo t.

End Detector.

End Rest.

(** ** Noise filter: course, tutorial, boilerplate and template material *)

Definition COURSE_KEYWORDS_DEFAULT : list string :=
  ["curso"; "course"; "udemy"; "alura"; "rocketseat"; "bootcamp";
   "treinamento"; "tutorial"; "aula"; "aulas"; "exercicio"; "exercício";
   "exercicios"; "exercícios"; "learn"; "learning"; "education"; "formacao";
   "formação"; "nanodegree"; "codecademy"; "freecodecamp"].

Definition BOILERPLATE_KEYWORDS_DEFAULT : list string :=
  ["boilerplate"; "starter"; "starter-kit"; "seed"; "scaffold"; "skeleton";
   "quickstart"; "template"; "templates"].

Definition textIncludesAny (haystack : string) (keywords : list string)
    : bool :=
  let lc := Str.toLowerCase haystack in
  existsb (fun k => Str.includes lc k) keywords.

(** [(x || '')] for a string that may be [null] *)
Definition orEmpty (x : option string) : string := default ""%string x.

(** The keyword test of [detectCourseOrBoilerplate] on the name, the
    description and the joined topics: [isCourse || isBoilerOrTemplate]
    before the README is looked at. *)
Definition matchesKeywords (courseKeywords boilerKeywords : list string)
    (name : string) (description : option string) (topics : list string)
    : bool * bool :=
  let nameStr := Str.toLowerCase name in
  let descStr := Str.toLowerCase (orEmpty description) in
  let topicsStr := Str.join " " (Str.toLowerCase <$> topics) in
  let isCourse :=
    textIncludesAny nameStr courseKeywords
    || textIncludesAny descStr courseKeywords
    || textIncludesAny topicsStr courseKeywords in
  let isBoilerOrTemplate :=
    textIncludesAny nameStr boilerKeywords
    || textIncludesAny descStr boilerKeywords
    || textIncludesAny topicsStr boilerKeywords in
  (isCourse, isBoilerOrTemplate).

Section Noise.

Context (E : Env) (fuel : nat).

Definition getRepoReadme (owner repo : string) : M World string :=
  r <- ghGET E fuel (ApiReadme owner repo) ;;
  if unusable r then ret ""%string
  else match g_data r with
       | Some (BFile encoding content) =>
           if String.eqb encoding "base64" && negb (String.eqb content "")
           then ret (base64_utf8 E content)
           else ret ""%string
       | _ => ret ""%string
       end.

(** [detectCourseOrBoilerplate(owner, repo, name, description, topics)
    .isCourseOrBoilerplate] *)
Definition detectCourseOrBoilerplate (owner repo name : string)
    (description : option string) (topics : list string) : M World bool :=
  let courseKeywords := COURSE_KEYWORDS_DEFAULT ++ EXTRA_COURSE_KEYWORDS E in
  let boilerKeywords :=
    BOILERPLATE_KEYWORDS_DEFAULT ++ EXTRA_BOILERPLATE_KEYWORDS E in
  let '(isCourse, isBoilerOrTemplate) :=
    matchesKeywords courseKeywords boilerKeywords name description topics in
  if negb isCourse && negb isBoilerOrTemplate && README_COURSE_CHECK E then
    readme <- catch (getRepoReadme owner repo) (fun _ => ret ""%string) ;;
    let readme2k := Str.toLowerCase (Str.sliceTo 4000 readme) in
    let isCourse' := isCourse || textIncludesAny readme2k courseKeywords in
    let isBoilerOrTemplate' :=
      isBoilerOrTemplate || textIncludesAny readme2k boilerKeywords in
    ret (isCourse' || isBoilerOrTemplate')
  else ret (isCourse || isBoilerOrTemplate).

End Noise.

(** ** Pagination driver and result sink, REST revision *)

(** A line of the CSV file of the REST revision, before it is formatted. *)
Record Row := {
  r_nameWithOwner : string;
  r_stars : Z;
  r_hasTS : bool;
  r_hasReact : bool;
  r_hasJest : bool;
  r_feLibs : list string;
  r_hasReactDeps : bool;
  r_hasFrontendTestLibs : bool;
}.

(** A call of [searchReposREST] by the driver, and the [total_count] of its
    result once it has returned. *)
Inductive PageEvent :=
| Asked (q : string) (page : Z)
| Answered (q : string) (page : Z) (total_count : Z).

(** The state of one run of [main], for rows of type [R].  [processed],
    [totalQualified] and [reachedLimit] are its local variables; [csv] holds
    the rows appended to the output file, newest first.  [analyzed] and
    [pages] are history variables: the identities handed to [detectTech] and
    the pages asked of the search API, newest first. *)
Record Run (R : Type) := {
  processed : gset string;
  totalQualified : Z;
  reachedLimit : bool;
  csv : list R;
  analyzed : list string;
  pages : list PageEvent;
  world : World;
}.
Arguments processed {R} _.
Arguments totalQualified {R} _.
Arguments reachedLimit {R} _.
Arguments csv {R} _.
Arguments analyzed {R} _.
Arguments pages {R} _.
Arguments world {R} _.

Section RunOps.

Context {R : Type}.

Definition start (w : World) : Run R :=
  {| processed := ∅; totalQualified := 0; reachedLimit := false; csv := [];
     analyzed := []; pages := []; world := w |}.

(** Run an asynchronous call of the client or the detector inside [main]. *)
Definition lift {A} (m : M World A) : M (Run R) A := fun st =>
  let (r, w') := m (world st) in
  (r, {| processed := processed st; totalQualified := totalQualified st;
         reachedLimit := reachedLimit st; csv := csv st;
         analyzed := analyzed st; pages := pages st; world := w' |}).

Definition get {A} (f : Run R -> A) : M (Run R) A := fun st =>
  (Ret (f st), st).

(** [processed.add(nameWithOwner)] *)
Definition processedAdd (x : string) : M (Run R) unit := fun st =>
  (Ret tt,
   {| processed := {[x]} ∪ processed st; totalQualified := totalQualified st;
      reachedLimit := reachedLimit st; csv := csv st;
      analyzed := analyzed st; pages := pages st; world := world st |}).

(** [reachedLimit = true] *)
Definition setReachedLimit : M (Run R) unit := fun st =>
  (Ret tt,
   {| processed := processed st; totalQualified := totalQualified st;
      reachedLimit := true; csv := csv st;
      analyzed := analyzed st; pages := pages st; world := world st |}).

(** [appendCsvRow(row); totalQualified++] *)
Definition appendCsvRow (row : R) : M (Run R) unit := fun st =>
  (Ret tt,
   {| processed := processed st; totalQualified := totalQualified st + 1;
      reachedLimit := reachedLimit st; csv := row :: csv st;
      analyzed := analyzed st; pages := pages st; world := world st |}).

Definition noteAnalyzed (x : string) : M (Run R) unit := fun st =>
  (Ret tt,
   {| processed := processed st; totalQualified := totalQualified st;
      reachedLimit := reachedLimit st; csv := csv st;
      analyzed := x :: analyzed st; pages := pages st; world := world st |}).

Definition notePage (e : PageEvent) : M (Run R) unit := fun st =>
  (Ret tt,
   {| processed := processed st; totalQualified := totalQualified st;
      reachedLimit := reachedLimit st; csv := csv st;
      analyzed := analyzed st; pages := e :: pages st; world := world st |}).

End RunOps.

(** How a turn of a [for] or [while] body ends: it falls through or
    [continue]s, or it [break]s. *)
Inductive Flow := Next | Break.

(** [Math.ceil(a / b)] for [b <> 0] *)
Definition ceilDiv (a b : Z) : Z := - ((- a) / b).

(** [reachedLimit || stopRequested] *)
Definition stopOrLimit {R} (E : Env) : M (Run R) bool := fun st =>
  (Ret (reachedLimit st || stopRequestedAt E (now (world st))), st).

Module RestMain.

Import Rest.

Section Driver.

Context (E : Env) (fuel : nat).

Definition limitOrStop : M (Run Row) bool := stopOrLimit E.

Definition searchReposREST (query : string) (page perPage : Z)
    : M World (Z * list Item) :=
  r <- ghGET E fuel (ApiSearch query perPage page) ;;
  if unusable r then ret (0, [])
  else match g_data r with
       | Some (BSearch total_count items) => ret (total_count, items)
       | _ => ret (0, [])
       end.

(** The statements of the [try] block that follow the two detector calls:
    the filters, then the row. *)
Definition keepOrSkip (it : Item) (tech : Tech) (isCourseOrBoilerplate : bool)
    : M (Run Row) Flow :=
  let nameWithOwner := full_name it in
  if EXCLUDE_COURSE_BOILERPLATE E && isCourseOrBoilerplate then
    lift (say (LogExcluded nameWithOwner)) ;;;
    ret Next
  else if negb (hasTS tech && hasReact tech) then
    lift (say (LogMissingTsReact nameWithOwner)) ;;;
    ret Next
  else if negb (hasFrontendTests tech) then
    lift (say (LogNoFrontendTests nameWithOwner)) ;;;
    ret Next
  else
    appendCsvRow {| r_nameWithOwner := nameWithOwner;
                    r_stars := stargazers_count it;
                    r_hasTS := hasTS tech;
                    r_hasReact := hasReact tech;
                    r_hasJest := hasJest tech;
                    r_feLibs := feLibs tech;
                    r_hasReactDeps := hasReactDeps tech;
                    r_hasFrontendTestLibs := hasFrontendTestLibs tech |} ;;;
    total <- get totalQualified ;;
    lift (say (LogRegistered nameWithOwner total)) ;;;
    if total >=? MAX_QUALIFIED E then
      lift (say LogMaxQualified) ;;;
      setReachedLimit ;;;
      ret Break
    else ret Next.

(** The body of [for (const it of items)]. *)
Definition forItem (it : Item) : M (Run Row) Flow :=
  stop <- limitOrStop ;;
  if stop : bool then ret Break
  else
    let nameWithOwner := full_name it in
    seen <- get (fun st => bool_decide (nameWithOwner ∈ processed st)) ;;
    if seen : bool then ret Next
    else
      processedAdd nameWithOwner ;;;
      size <- get (fun st => Z.of_nat (size (processed st))) ;;
      if (0 <? MAX_ANALYZED E) && (size >=? MAX_ANALYZED E) then
        lift (say LogMaxAnalyzed) ;;;
        setReachedLimit ;;;
        ret Break
      else
        lift (say (LogAnalyzing nameWithOwner)) ;;;
        noteAnalyzed nameWithOwner ;;;
        catch
          (tech <- lift (detectTech E fuel (owner_login it) (name it)) ;;
           courseFlag <- lift (detectCourseOrBoilerplate E fuel
                                 (owner_login it) (name it) (name it)
                                 (description it) (topics tech)) ;;
           keepOrSkip it tech courseFlag)
          (fun err =>
             lift (say (WarnAnalysisFailed nameWithOwner err)) ;;;
             ret Next).

Fixpoint forItems (items : list Item) : M (Run Row) unit :=
  match items with
  | [] => ret tt
  | it :: rest =>
      flow <- forItem it ;;
      match flow with
      | Break => ret tt
      | Next => forItems rest
      end
  end.

(** [page >= Math.ceil(Math.min(total_count, 1000) / BATCH_SIZE)]; a zero
    [BATCH_SIZE] makes the quotient infinite or NaN. *)
Definition pastLastPage (page total_count : Z) : bool :=
  if BATCH_SIZE E =? 0 then Z.min total_count 1000 <? 0
  else page >=? ceilDiv (Z.min total_count 1000) (BATCH_SIZE E).

(** The [while (!reachedLimit && !stopRequested)] over the pages of one
    query, for at most [n] pages. *)
Fixpoint whilePages (n : nat) (q : string) (page : Z) : M (Run Row) unit :=
  match n with
  | O => hang
  | S n' =>
      stop <- limitOrStop ;;
      if stop : bool then ret tt
      else
        notePage (Asked q page) ;;;
        result <- catch
          (r <- lift (searchReposREST q page (BATCH_SIZE E)) ;; ret (Some r))
          (fun e => lift (say (ErrSearch e)) ;;; ret None) ;;
        match result with
        | None => ret tt
        | Some (total_count, items) =>
            notePage (Answered q page total_count) ;;;
            lift (say (LogPage total_count page (length items))) ;;;
            match items with
            | [] => ret tt
            | _ =>
                forItems items ;;;
                stop' <- limitOrStop ;;
                if stop' : bool then ret tt
                else if pastLastPage page total_count then
                  lift (say LogLastPage) ;;;
                  ret tt
                else
                  lift (sleep (Num.Fin (SLEEP_BETWEEN_PAGES_MS E))) ;;;
                  whilePages n' q (page + 1)
            end
        end
  end.

Fixpoint forQueries (qs : list string) : M (Run Row) unit :=
  match qs with
  | [] => ret tt
  | q :: rest =>
      stop <- limitOrStop ;;
      if stop : bool then ret tt
      else
        lift (say (LogQuery q)) ;;;
        whilePages fuel q 1 ;;;
        lift (say LogQueryDone) ;;;
        lift (sleep (Num.Fin 600)) ;;;
        forQueries rest
  end.

(** [main()], on the queries that [buildQueries] has produced. *)
Definition main : M (Run Row) unit := forQueries (queries E).

End Driver.

End RestMain.

(** ** The first revision: GraphQL search, three signals *)

Module Plain.

Record Tech := {
  hasTS : bool;
  hasReact : bool;
  hasJest : bool;
}.

Definition scriptsContain (pkgJson : JSON) (term : string) : bool :=
  let scripts := Js.orEmptyObject (Js.prop pkgJson "scripts") in
  existsb (fun s => Str.includes (Str.toLowerCase s) term)
    (Js.strings (Js.values scripts)).

Section Detector.

Context (E : Env) (fuel : nat).

Definition detectTech (owner repo : string) : M World Tech :=
  langs <- catch (getRepoLanguages E fuel owner repo)
                 (fun _ => ret (BLanguages ∅)) ;;
  let hasTS0 := declaresTypeScript langs in
  pkgText <- getRepoContent E fuel owner repo "package.json" ;;
  let pkgJson := readManifest E pkgText in
  let hasReact0 :=
    from_option (fun j => pkgHasAnyDep j ["react"; "react-dom"]) false pkgJson in
  let hasTS1 :=
    from_option (fun j => hasTS0 || pkgHasAnyDep j ["typescript"]) hasTS0
      pkgJson in
  let hasJest0 :=
    from_option
      (fun j => pkgHasAnyDep j ["jest"; "@jest/globals"; "ts-jest"; "babel-jest"]
                || scriptsContain j "jest") false pkgJson in
  hasReact <- (if negb hasReact0 then
                 topics <- catch (getRepoTopics E fuel owner repo)
                                 (fun _ => ret []) ;;
                 ret (topicsIncludeReact topics)
               else ret hasReact0) ;;
  hasTS <- (if negb hasTS1 then anyTsConfig E fuel owner repo
            else ret hasTS1) ;;
  hasJest <- (if negb hasJest0
              then anyJestConfig E fuel owner repo jestConfigCandidates
              else ret hasJest0) ;;
  ret {| hasTS := hasTS; hasReact := hasReact; hasJest := hasJest |}.

End Detector.

End Plain.

(** ** The second revision: GraphQL search with the noise filter and the
    [REQUIRE_FRONTEND_TESTS] switch *)

Module Filtered.

Record FrontendPkg := {
  fe_hasFrontendTests : bool;
  fe_libs : list string;
  fe_hasJest : bool;
  fe_hasRTL : bool;
}.

Definition detectFrontendFromPkg (pkgJson : JSON) : FrontendPkg :=
  let hasJest :=
    pkgHasAnyDep pkgJson ["jest"; "@jest/globals"; "ts-jest"; "babel-jest"]
    || scriptsContain pkgJson ["jest"] in
  let hasRTL :=
    pkgHasAnyDep pkgJson ["@testing-library/react"; "@testing-library/jest-dom";
                          "@testing-library/user-event"] in
  let libs := pushIf hasJest "jest" (pushIf hasRTL "testing-library" []) in
  let hasFrontendTests := hasJest || hasRTL in
  {| fe_hasFrontendTests := hasFrontendTests;
     fe_libs := libs;
     fe_hasJest := hasJest;
     fe_hasRTL := hasRTL |}.

Record Tech := {
  hasTS : bool;
  hasReact : bool;
  hasJest : bool;
  hasFrontendTests : bool;
  feLibs : list string;
  topics : list string;
}.

Record Row := {
  r_nameWithOwner : string;
  r_stars : Z;
  r_hasTS : bool;
  r_hasReact : bool;
  r_hasJest : bool;
  r_feLibs : list string;
}.

(** A repository node of the GraphQL search. *)
Record Node := {
  n_owner_login : string;
  n_name : string;
  n_description : option string;
  n_stargazerCount : Z;
}.

Section Detector.

Context (E : Env) (fuel : nat).

Definition detectTech (owner repo : string) : M World Tech :=
  langs <- catch (getRepoLanguages E fuel owner repo)
                 (fun _ => ret (BLanguages ∅)) ;;
  let hasTS0 := declaresTypeScript langs in
  pkgText <- getRepoContent E fuel owner repo "package.json" ;;
  let pkgJson := readManifest E pkgText in
  let hasReact0 :=
    from_option (fun j => pkgHasAnyDep j ["react"; "react-dom"]) false pkgJson in
  let hasTS1 :=
    from_option (fun j => hasTS0 || pkgHasAnyDep j ["typescript"]) hasTS0
      pkgJson in
  let fe := detectFrontendFromPkg <$> pkgJson in
  let hasFrontendTests0 := from_option fe_hasFrontendTests false fe in
  let feLibs0 := from_option fe_libs [] fe in
  let hasJest0 := from_option fe_hasJest false fe in
  topics <- catch (getRepoTopics E fuel owner repo) (fun _ => ret []) ;;
  let hasReact := hasReact0 || topicsIncludeReact topics in
  hasTS <- (if negb hasTS1 then anyTsConfig E fuel owner repo
            else ret hasTS1) ;;
  hasJest <- (if negb hasJest0
              then anyJestConfig E fuel owner repo jestConfigCandidates
              else ret hasJest0) ;;
  let feLibs :=
    if negb hasJest0 && hasJest && negb (bool_decide ("jest"%string ∈ feLibs0))
    then feLibs0 ++ ["jest"%string] else feLibs0 in
  let hasFrontendTests := hasFrontendTests0 || hasJest in
  ret {| hasTS := hasTS;
         hasReact := hasReact;
         hasJest := hasJest;
         hasFrontendTests := hasFrontendTests;
         feLibs := feLibs;
         topics := topics |}.

(** The statements of the [try] block of [main] that follow the two
    detector calls. *)
Definition keepOrSkip (repo : Node) (tech : Tech)
    (isCourseOrBoilerplate : bool) : M (Run Row) Flow :=
  let nameWithOwner := n_owner_login repo +:+ "/" +:+ n_name repo in
  if EXCLUDE_COURSE_BOILERPLATE E && isCourseOrBoilerplate then
    lift (say (LogExcluded nameWithOwner)) ;;;
    ret Next
  else if negb (hasTS tech && hasReact tech) then
    lift (say (LogMissingTsReact nameWithOwner)) ;;;
    ret Next
  else if REQUIRE_FRONTEND_TESTS E && negb (hasFrontendTests tech) then
    lift (say (LogNoFrontendTests nameWithOwner)) ;;;
    ret Next
  else
    appendCsvRow {| r_nameWithOwner := nameWithOwner;
                    r_stars := n_stargazerCount repo;
                    r_hasTS := hasTS tech;
                    r_hasReact := hasReact tech;
                    r_hasJest := hasJest tech;
                    r_feLibs := feLibs tech |} ;;;
    total <- get totalQualified ;;
    lift (say (LogRegistered nameWithOwner total)) ;;;
    if total >=? MAX_QUALIFIED E then
      lift (say LogMaxQualified) ;;;
      setReachedLimit ;;;
      ret Break
    else ret Next.

(** The body of [for (const edge of edges)] of [main]. *)
Definition forEdge (repo : Node) : M (Run Row) Flow :=
  stop <- stopOrLimit E ;;
  if stop : bool then ret Break
  else
    let nameWithOwner := n_owner_login repo +:+ "/" +:+ n_name repo in
    seen <- get (fun st => bool_decide (nameWithOwner ∈ processed st)) ;;
    if seen : bool then ret Next
    else
      processedAdd nameWithOwner ;;;
      size <- get (fun st => Z.of_nat (size (processed st))) ;;
      if (0 <? MAX_ANALYZED E) && (size >? MAX_ANALYZED E) then
        lift (say LogMaxAnalyzed) ;;;
        setReachedLimit ;;;
        ret Break
      else
        lift (say (LogAnalyzing nameWithOwner)) ;;;
        noteAnalyzed nameWithOwner ;;;
        catch
          (tech <- lift (detectTech (n_owner_login repo) (n_name repo)) ;;
           courseFlag <- lift (detectCourseOrBoilerplate E fuel
                                 (n_owner_login repo) (n_name repo)
                                 (n_name repo) (n_description repo)
                                 (topics tech)) ;;
           keepOrSkip repo tech courseFlag)
          (fun err =>
             lift (say (WarnAnalysisFailed nameWithOwner err)) ;;;
             ret Next).

End Detector.

End Filtered.

(** ** Statements used by the properties *)

(** Some keyword of either list (defaults and extras) occurs, case folded,
    in the name, the description or the topics joined with spaces. *)
Definition keywordHit (E : Env) (name : string) (description : option string)
    (topics : list string) : Prop :=
  exists k text,
    In k ((COURSE_KEYWORDS_DEFAULT ++ EXTRA_COURSE_KEYWORDS E)
          ++ (BOILERPLATE_KEYWORDS_DEFAULT ++ EXTRA_BOILERPLATE_KEYWORDS E))
    /\ In text [name; orEmpty description; Str.join " " topics]
    /\ Str.includes (Str.toLowerCase text) k = true.

(** A time that a [Date] holds, from 1970 on, in milliseconds. *)
Definition timeValue (t : Z) : Prop := 0 <= t <= 8640000000000000.



(** Every run of [m] returns, with a value that satisfies [P]. *)
Definition surely {A} (m : M World A) (P : A -> Prop) : Prop :=
  forall w, exists a w', m w = (Ret a, w') /\ P a.

(** Every value that a run of [m] returns satisfies [P]. *)
Definition always {A} (m : M World A) (P : A -> Prop) : Prop :=
  forall w a w', m w = (Ret a, w') -> P a.

(** [pkg.section] is an object that has the key [key]. *)
Definition listsKey (pkg : JSON) (section key : string) : Prop :=
  exists fields v,
    Js.prop pkg section = Some (JObj fields) /\ Js.assoc key fields = Some v.

(** [pkg.section] is an object that maps [key] to a truthy value (a version
    string that is not empty, say). *)
Definition lists (pkg : JSON) (section key : string) : Prop :=
  exists fields v,
    Js.prop pkg section = Some (JObj fields) /\ Js.assoc key fields = Some v
    /\ Js.truthy v = true.

(** Some fetch of the root file [file] comes back with text. *)
Definition foundAtRoot (E : Env) (fuel : nat) (owner repo file : string)
    : Prop :=
  exists w1 text w2,
    getRepoContent E fuel owner repo file w1 = (Ret text, w2)
    /\ nonEmpty text = true.



(** No run of [m] is stuck in an unbounded loop. *)
Definition halts {A} (m : M World A) : Prop :=
  forall w, fst (m w) <> Hang.

(** Every run of [m] returns a value. *)
Definition returns {A} (m : M World A) : Prop :=
  forall w, exists a w', m w = (Ret a, w').


Section Repository.

Context (E : Env) (owner repo : string).

(** The quota is never exhausted. *)
Definition neverExhausted : Prop :=
  forall url t res, reply (net E url t) = Some res -> quotaExhausted res = false.



(** The entries of a listing lie deeper than the directory listed. *)
Definition deepens (path : string) (entries : list DirEntry) : Prop :=
  forall e, In e entries ->
    (Str.splitLength "/" path < Str.splitLength "/" (e_path e))%nat.

Definition pathsDeepen : Prop :=
  forall path t res entries,
    reply (net E (ApiContents owner repo path) t) = Some res ->
    json res = Some (BDir entries) -> deepens path entries.


End Repository.

(** Every request that a run of [m] issues goes to a URL in [P]. *)
Definition emits (P : Url -> Prop) {A} (m : M World A) : Prop :=
  forall w r w', m w = (r, w') ->
    exists l, requests w' = l ++ requests w /\ Forall (fun x => P (fst x)) l.

(** A URL of the repository endpoints, not of the search endpoint. *)
Definition notSearch (url : Url) : Prop :=
  match url with
  | ApiSearch _ _ _ => False
  | _ => True
  end.

(** ** Statements about a run of [main] *)

(** [st'] differs from [st] in its world at most. *)
Definition sameLedger {R} (st st' : Run R) : Prop :=
  processed st' = processed st /\ totalQualified st' = totalQualified st
  /\ reachedLimit st' = reachedLimit st /\ csv st' = csv st
  /\ analyzed st' = analyzed st /\ pages st' = pages st.

(** Every run of [m] from a state in [P] ends, however it ends, in a state
    in [Q]. *)
Definition keeps2 {R A} (P Q : Run R -> Prop) (m : M (Run R) A) : Prop :=
  forall st r st', P st -> m st = (r, st') -> Q st'.

Section RunInvariant.

Context (E : Env).

(** What holds of the state of the REST revision's [main] throughout a
    run. *)
Record Inv (st : Run Row) : Prop := {
  inv_rows_nodup : NoDup (r_nameWithOwner <$> csv st);
  inv_rows_processed :
    forall row, In row (csv st) -> r_nameWithOwner row ∈ processed st;
  inv_analyzed_nodup : NoDup (analyzed st);
  inv_analyzed_processed :
    forall x, In x (analyzed st) -> x ∈ processed st;
  inv_rows_qualify :
    forall row, In row (csv st) ->
      r_hasTS row = true /\ r_hasReact row = true /\ r_hasJest row = true
      /\ r_hasFrontendTestLibs row = true;
  inv_rows_analyzed :
    forall row, In row (csv st) -> In (r_nameWithOwner row) (analyzed st);
  inv_cap :
    0 < MAX_ANALYZED E ->
    (Z.of_nat (size (processed st)) < MAX_ANALYZED E
     /\ length (analyzed st) = size (processed st))
    \/ (reachedLimit st = true
        /\ Z.of_nat (size (processed st)) = MAX_ANALYZED E
        /\ S (length (analyzed st)) = size (processed st));
  inv_pages :
    0 < BATCH_SIZE E ->
    forall q p, In (Asked q p) (pages st) ->
      1 <= p
      /\ (p = 1
          \/ exists total_count,
               In (Answered q (p - 1) total_count) (pages st)
               /\ p - 1 < ceilDiv (Z.min total_count 1000) (BATCH_SIZE E));
}.

(** The invariant between two calls of the search API: the page history
    is [l]. *)
Definition InvAt (l : list PageEvent) (st : Run Row) : Prop :=
  Inv st /\ pages st = l.

(** The invariant while the candidate [x] is being analyzed: it is
    registered and no row has been written for it yet. *)
Definition Analyzing (x : string) (l : list PageEvent) (st : Run Row)
    : Prop :=
  InvAt l st /\ x ∈ processed st /\ In x (analyzed st)
  /\ ~ In x (r_nameWithOwner <$> csv st).

(** Page [page] of query [q] may be asked for: it is the first one, or the
    page before it was answered with a total that reaches further. *)
Definition mayAsk (q : string) (page : Z) (st : Run Row) : Prop :=
  0 < BATCH_SIZE E ->
  1 <= page
  /\ (page = 1
      \/ exists total_count,
           In (Answered q (page - 1) total_count) (pages st)
           /\ page - 1 < ceilDiv (Z.min total_count 1000) (BATCH_SIZE E)).

(** Every search request on the wire either was there in [w0], before the
    run, or is for a page that the driver asked for, with the configured
    page size. *)
Definition Wire (w0 : World) (st : Run Row) : Prop :=
  forall q per_page p t,
    In (ApiSearch q per_page p, t) (requests (world st)) ->
    In (ApiSearch q per_page p, t) (requests w0)
    \/ (per_page = BATCH_SIZE E /\ In (Asked q p) (pages st)).

End RunInvariant.

(** ** Sample worlds *)

Module Sample.


Definition idle (t : Z) : World :=
  {| now := t; requests := []; slept := []; console := [] |}.

Definition respond (code : Z) (body : option Body) : Fetched :=
  {| elapsed := 0;
     reply := Some {| status := code; x_ratelimit_remaining := None;
                      x_ratelimit_reset := None; json := body |} |}.

Definition notFound : Fetched := respond 404 None.

(** The default configuration of the REST revision around a network. *)
Definition around (n : Url -> Z -> Fetched) (parse : string -> option JSON)
    : Env :=
  {| net := n;
     stopRequestedAt := fun _ => false;
     base64_utf8 := fun s => s;
     JSON_parse := parse;
     BATCH_SIZE := 100;
     SLEEP_BETWEEN_PAGES_MS := 800;
     MAX_QUALIFIED := 1000;
     MAX_ANALYZED := 0;
     REQUIRE_FRONTEND_TESTS := true;
     EXCLUDE_COURSE_BOILERPLATE := true;
     README_COURSE_CHECK := false;
     EXTRA_COURSE_KEYWORDS := [];
     EXTRA_BOILERPLATE_KEYWORDS := [];
     queries := [] |}.

(** Nothing exists: every request is answered 404. *)
Definition nowhere : Env := around (fun _ _ => notFound) (fun _ => None).

(** The quota is exhausted until the epoch second 1700000000; afterwards
    nothing exists. *)
Definition exhausted403 : Response :=
  {| status := 403; x_ratelimit_remaining := Some "0"%string;
     x_ratelimit_reset := Some "1700000000"%string; json := None |}.

Definition throttled : Env :=
  around (fun _ t => if t <? 1700000000000
                     then {| elapsed := 120; reply := Some exhausted403 |}
                     else notFound)
         (fun _ => None).



(** The manifest cannot be read (HTTP 500); nothing else exists. *)
Definition brokenManifest : Env :=
  around (fun url _ =>
            match url with
            | ApiContents _ _ "package.json" => respond 500 None
            | _ => notFound
            end)
         (fun _ => None).

(** The manifest of the spec's example, with an empty version for [react]
    and with the TypeScript compiler among the development dependencies. *)
Definition emptyVersionPkg : JSON :=
  JObj [("dependencies"%string, JObj [("react"%string, JStr "")]);
        ("devDependencies"%string,
         JObj [("jest"%string, JStr "^29.0.0");
               ("@testing-library/react"%string, JStr "^14.0.0");
               ("typescript"%string, JStr "^5.0.0")])].

(** The manifest of the spec's example. *)
Definition examplePkg : JSON :=
  JObj [("dependencies"%string, JObj [("react"%string, JStr "^18.0.0")]);
        ("devDependencies"%string,
         JObj [("jest"%string, JStr "^29.0.0");
               ("@testing-library/react"%string, JStr "^14.0.0")])].

(** A repository that holds only a manifest, which parses to [pkg]; its
    language breakdown reports JavaScript alone. *)
Definition manifestOnly (pkg : JSON) : Env :=
  around (fun url _ =>
            match url with
            | ApiContents _ _ "package.json" =>
                respond 200 (Some (BFile "base64" "e30K"))
            | ApiLanguages _ _ =>
                respond 200
                  (Some (BLanguages {[ "JavaScript"%string := 4096 ]}))
            | _ => notFound
            end)
         (fun _ => Some pkg).

Fixpoint find (path : string) (files : list (string * Body)) : option Body :=
  match files with
  | [] => None
  | (p, b) :: files' => if String.eqb path p then Some b else find path files'
  end.

(** A repository given by its language breakdown and by the bodies that the
    contents API serves, by URL path; everything else is answered 404. *)
Definition tableNet (langs : gmap string Z) (files : list (string * Body))
    : Url -> Z -> Fetched :=
  fun url _ =>
    match url with
    | ApiContents _ _ p =>
        match find p files with
        | Some b => respond 200 (Some b)
        | None => notFound
        end
    | ApiLanguages _ _ => respond 200 (Some (BLanguages langs))
    | _ => notFound
    end.

(** A manifest with React and Jest and no test utility. *)
Definition reactJestPkg : JSON :=
  JObj [("dependencies"%string, JObj [("react"%string, JStr "^18.0.0")]);
        ("devDependencies"%string, JObj [("jest"%string, JStr "^29.0.0")])].

Definition srcListing : list DirEntry :=
  [ {| e_type := "file"; e_name := "index.ts"; e_path := "src/index.ts" |};
    {| e_type := "dir"; e_name := "components";
       e_path := "src/components" |} ].

Definition componentsListing : list DirEntry :=
  [ {| e_type := "file"; e_name := "App.tsx";
       e_path := "src/components/App.tsx" |};
    {| e_type := "file"; e_name := "App.test.tsx";
       e_path := "src/components/App.test.tsx" |};
    {| e_type := "file"; e_name := "Nav.test.tsx";
       e_path := "src/components/Nav.test.tsx" |} ].

Definition scannedFiles : list (string * Body) :=
  [ ("package.json"%string, BFile "base64" "e30K");
    ("src"%string, BDir srcListing);
    ("src/components"%string, BDir componentsListing);
    ("src%2Fcomponents%2FApp.test.tsx"%string,
     BFile "base64" "import { render } from '@testing-library/react'") ].

(** A TypeScript repository whose manifest names React and Jest only and
    whose [src/components] holds a test that imports the testing library. *)
Definition scanned : Env :=
  around (tableNet {[ "TypeScript"%string := 20480 ]} scannedFiles)
         (fun _ => Some reactJestPkg).

(** The search API answers every page of every query with the same
    [items] and [total]. *)
Definition searchNet (total : Z) (items : list Item)
    (base : Url -> Z -> Fetched) : Url -> Z -> Fetched :=
  fun url t =>
    match url with
    | ApiSearch _ _ _ => respond 200 (Some (BSearch total items))
    | _ => base url t
    end.

Definition shop : Item :=
  {| full_name := "acme/shop"; owner_login := "acme"; name := "shop";
     description := Some "Storefront"%string; stargazers_count := 120 |}.

Definition site : Item :=
  {| full_name := "beta/site"; owner_login := "beta"; name := "site";
     description := None; stargazers_count := 7 |}.

(** Two queries over a catalogue that lists one repository twice; every
    repository has the files of [scanned].  [cap] is [MAX_ANALYZED]. *)
Definition catalogue (cap : Z) : Env :=
  {| net := searchNet 2500 [shop; shop; site]
              (tableNet {[ "TypeScript"%string := 20480 ]} scannedFiles);
     stopRequestedAt := fun _ => false;
     base64_utf8 := fun s => s;
     JSON_parse := fun _ => Some reactJestPkg;
     BATCH_SIZE := 100;
     SLEEP_BETWEEN_PAGES_MS := 800;
     MAX_QUALIFIED := 1000;
     MAX_ANALYZED := cap;
     REQUIRE_FRONTEND_TESTS := true;
     EXCLUDE_COURSE_BOILERPLATE := true;
     README_COURSE_CHECK := false;
     EXTRA_COURSE_KEYWORDS := [];
     EXTRA_BOILERPLATE_KEYWORDS := [];
     queries := ["language:TypeScript react"%string;
                 "language:TypeScript topic:react"%string] |}.

(** A manifest with React, the testing library and the TypeScript compiler,
    and without Jest. *)
Definition rtlOnlyPkg : JSON :=
  JObj [("dependencies"%string, JObj [("react"%string, JStr "^18.0.0")]);
        ("devDependencies"%string,
         JObj [("@testing-library/react"%string, JStr "^14.0.0");
               ("typescript"%string, JStr "^5.0.0")])].

Definition widgets : Filtered.Node :=
  {| Filtered.n_owner_login := "acme"; Filtered.n_name := "widgets";
     Filtered.n_description := None; Filtered.n_stargazerCount := 31 |}.

End Sample.

(** ** Configuration read from the process environment *)

Module Txt.

(** [s.split(sep)] for a one-character separator *)
Fixpoint split (sep : ascii) (s : string) : list string :=
  match s with
  | EmptyString => [EmptyString]
  | String c s' =>
      if Ascii.eqb c sep then EmptyString :: split sep s'
      else match split sep s' with
           | h :: t => String c h :: t
           | [] => [String c EmptyString]
           end
  end.

(** [s.trimEnd()]: the text up to where only white space and line
    terminators follow. *)
Fixpoint trimEnd (s : string) : string :=
  match s with
  | EmptyString => EmptyString
  | String c s' =>
      if String.eqb (Str.skipSpaces s) "" then EmptyString
      else String c (trimEnd s')
  end.

(** [s.trim()] *)
Definition trim (s : string) : string := trimEnd (Str.skipSpaces s).

Definition isUpper (c : ascii) : bool :=
  let n := nat_of_ascii c in ((65 <=? n) && (n <=? 90))%nat.

(** [s] has an upper-case ASCII letter. *)
Fixpoint hasUpper (s : string) : bool :=
  match s with
  | EmptyString => false
  | String c s' => isUpper c || hasUpper s'
  end.

(** An upper-case ASCII letter turned into its lower-case letter. *)
Definition foldChar (a : ascii) : ascii :=
  if isUpper a then ascii_of_nat (nat_of_ascii a + 32) else a.

(** A text with its upper-case ASCII letters turned into lower-case
    letters. *)
Fixpoint foldCase (s : string) : string :=
  match s with
  | EmptyString => EmptyString
  | String a s' => String (foldChar a) (foldCase s')
  end.

(** A text of ASCII characters. *)
Fixpoint isAscii (s : string) : bool :=
  match s with
  | EmptyString => true
  | String a s' => (nat_of_ascii a <? 128)%nat && isAscii s'
  end.

End Txt.


(** ** Statements about texts *)

(** The continuation bytes that a text begins with. *)
Fixpoint leadingConts (s : string) : string :=
  match s with
  | String a s' =>
      if Utf8.cont (Utf8.byte a) then String a (leadingConts s')
      else EmptyString
  | EmptyString => EmptyString
  end.

(** A text does not begin with a continuation byte. *)
Definition startsAfresh (s : string) : Prop := leadingConts s = EmptyString.

(** A list of code points and stray bytes that [decode] can produce: the
    code points are code points, and no stray byte begins a well-formed
    sequence with what follows it. *)
Fixpoint wellFormed (l : list Utf8.Unit) : Prop :=
  match l with
  | [] => True
  | Utf8.Cp c :: l' => 0 <= c < 1114112 /\ wellFormed l'
  | Utf8.Raw a :: l' =>
      Utf8.headCp (Utf8.byte a) (Utf8.encode l') = None /\ wellFormed l'
  end.

(** The code points that an entry of the table of lower-case mappings maps
    to. *)
Definition entryTargets (e : Z * Z * Z * Z) : list Z :=
  let '(lo, hi, step, delta) := e in
  (fun k => lo + Z.of_nat k * step + delta)
  <$> seq 0 (Z.to_nat ((hi - lo) / step) + 1).

(** A code point that lower-casing leaves as it is, in every context. *)
Definition settledCp (o : Z) : bool :=
  negb (o =? 931) && negb (o =? 304) && (Ucd.lowerCp o =? o).

(** What lower-casing leaves as it is. *)
Definition settledUnit (u : Utf8.Unit) : Prop :=
  match u with
  | Utf8.Cp o => settledCp o = true
  | Utf8.Raw _ => True
  end.

(** A code point other than an upper-case ASCII letter, or a stray byte
    outside ASCII. *)
Definition plainUnit (u : Utf8.Unit) : Prop :=
  match u with
  | Utf8.Cp o => 0 <= o < 1114112 /\ ~ 65 <= o <= 90
  | Utf8.Raw a => 128 <= Utf8.byte a
  end.

(** What the table maps to: code points, settled, none of them an
    upper-case ASCII letter. *)
Definition goodTarget (o : Z) : bool :=
  (0 <=? o) && (o <? 1114112) && settledCp o
  && negb ((65 <=? o) && (o <=? 90)).

(** ** Statements about the client *)

(** The reset header of [url] is honest from the time [t0] on: a response
    that reports the quota exhausted names a reset time that [parseInt]
    reads; that time is no further ahead of the response than the longest
    delay of a timer less the safety margin; and from that time on the
    responses for [url] no longer report the quota exhausted. *)
Definition honestReset (E : Env) (url : Url) (t0 : Z) : Prop :=
  forall t res,
    t0 <= t ->
    reply (net E url t) = Some res -> quotaExhausted res = true ->
    exists r,
      Str.parseInt (default ""%string (x_ratelimit_reset res)) = Some r
      /\ r * 1000 + 5000 - (t + Z.of_N (elapsed (net E url t))) <= TIMEOUT_MAX
      /\ forall t' res',
           r * 1000 <= t' -> reply (net E url t') = Some res' ->
           quotaExhausted res' = false.

(** Every run of [m] issues at most [n] requests. *)
Definition spends (n : nat) {A} (m : M World A) : Prop :=
  forall w r w', m w = (r, w') ->
    exists l, requests w' = l ++ requests w /\ (length l <= n)%nat.

(** Every request is answered 404: the repository does not exist (any
    more). *)
Definition allNotFound (E : Env) : Prop :=
  forall url t, exists res,
    reply (net E url t) = Some res /\ status res = 404.

(** ** Statements about the rows of a run *)

(** The row that [main] appends for the item [it] with the signals
    [tech]. *)
Definition rowOf (it : Item) (tech : Rest.Tech) : Row :=
  {| r_nameWithOwner := full_name it;
     r_stars := stargazers_count it;
     r_hasTS := Rest.hasTS tech;
     r_hasReact := Rest.hasReact tech;
     r_hasJest := Rest.hasJest tech;
     r_feLibs := Rest.feLibs tech;
     r_hasReactDeps := Rest.hasReactDeps tech;
     r_hasFrontendTestLibs := Rest.hasFrontendTestLibs tech |}.

(** The search API has served the item [it], on some page of some query. *)
Definition servedItem (E : Env) (it : Item) : Prop :=
  exists q per_page page t res total_count items,
    reply (net E (ApiSearch q per_page page) t) = Some res
    /\ json res = Some (BSearch total_count items)
    /\ In it items.

(** Some run of the detector on the repository of [it] has returned
    [tech]. *)
Definition detectedAs (E : Env) (fuel : nat) (it : Item) (tech : Rest.Tech)
    : Prop :=
  exists w w',
    Rest.detectTech E fuel (owner_login it) (name it) w = (Ret tech, w').

(** Some run of the noise filter on the repository of [it], with the topics
    that the detector found, has answered [flag]. *)
Definition noiseFlag (E : Env) (fuel : nat) (it : Item) (tech : Rest.Tech)
    (flag : bool) : Prop :=
  exists w w',
    detectCourseOrBoilerplate E fuel (owner_login it) (name it) (name it)
      (description it) (Rest.topics tech) w = (Ret flag, w').

(** The calls of [searchReposREST] in a page history. *)
Definition askedPages (l : list PageEvent) : nat :=
  length (List.filter (fun e => match e with
                                | Asked _ _ => true
                                | Answered _ _ _ => false
                                end) l).

(** ** Statements about how computations end *)

(** No run of [m] is stuck in an unbounded loop. *)
Definition settles {S A} (m : M S A) : Prop :=
  forall s, fst (m s) <> Hang.

(** Every run of [m] returns a value. *)
Definition completes {S A} (m : M S A) : Prop :=
  forall s, exists a s', m s = (Ret a, s').

(** No run of [m] throws. *)
Definition throwsNothing {S A} (m : M S A) : Prop :=
  forall s e s', m s <> (Throw e, s').

(** ** The concurrency limiter of the concurrent revision *)

Module Limiter.

Section Limiter.

Context {T : Type}.

(** A [ConcurrencyLimiter] over tasks of type [T]: [this.limit] ([None]
    when [CONCURRENT_REPOS] does not parse, which leaves NaN),
    [this.running] and [this.queue].  [started] is a history variable: the
    tasks whose function has been called, newest first. *)
Record t := {
  limit : option Z;
  running : Z;
  queue : list T;
  started : list T;
}.

(** [new ConcurrencyLimiter(limit)] *)
Definition new (limit : option Z) : t :=
  {| limit := limit; running := 0; queue := []; started := [] |}.

(** [this.running >= this.limit]; a comparison with NaN is false. *)
Definition full (l : t) : bool :=
  match limit l with
  | Some n => running l >=? n
  | None => false
  end.

(** [tryNext()]: nothing when the limiter is full or the queue is empty;
    otherwise the task at the head of the queue is taken and its function
    is called. *)
Definition tryNext (l : t) : t :=
  if full l then l
  else match queue l with
       | [] => l
       | fn :: rest =>
           {| limit := limit l; running := running l + 1; queue := rest;
              started := fn :: started l |}
       end.

(** [add(fn)]: the task is pushed and [tryNext] is called. *)
Definition add (fn : T) (l : t) : t :=
  tryNext {| limit := limit l; running := running l;
             queue := queue l ++ [fn]; started := started l |}.

(** The [finally] callback of a task whose promise settles:
    [this.running--; this.tryNext()]. *)
Definition settle (l : t) : t :=
  tryNext {| limit := limit l; running := running l - 1;
             queue := queue l; started := started l |}.

(** What happens to a limiter: a call of [add], or the promise of a task
    that has been started settles. *)
Inductive event :=
| Add (fn : T)
| Settle.

(** The limiter after the events [es], oldest first; [None] when a promise
    is said to settle while no task is running. *)
Fixpoint run (es : list event) (l : t) : option t :=
  match es with
  | [] => Some l
  | Add fn :: es' => run es' (add fn l)
  | Settle :: es' => if 0 <? running l then run es' (settle l) else None
  end.

(** The tasks added by [es], oldest first. *)
Fixpoint added (es : list event) : list T :=
  match es with
  | [] => []
  | Add fn :: es' => fn :: added es'
  | Settle :: es' => added es'
  end.

(** The number of promises that settle in [es]. *)
Fixpoint settled (es : list event) : Z :=
  match es with
  | [] => 0
  | Add _ :: es' => settled es'
  | Settle :: es' => 1 + settled es'
  end.

End Limiter.

Arguments t : clear implicits.
Arguments event : clear implicits.

End Limiter.

(** ** The result sink *)

(** The line feed, ['\n']. *)
Definition newline : string := String (ascii_of_nat 10) EmptyString.

(** [`${n}`] and [String(n)] for an integer [n] *)
Definition showZ (n : Z) : string := NilZero.string_of_int (Z.to_int n).

(** [b ? 'Sim' : 'Não'] *)
Definition yesNo (b : bool) : string := if b then "Sim" else "Não".

Module Sink.

Definition CSV_HEADER : string :=
  "Repositorio,Link,Estrelas,TypeScript,React,Jest,FrontendTestLibs,ReactDeps,TestLibsDetected"
  +:+ newline.

(** The line that [appendCsvRow] appends for [row]. *)
Definition csvLine (row : Row) : string :=
  let libs := Str.join "|" (r_feLibs row) in
  let link := "https://github.com/" +:+ r_nameWithOwner row in
  r_nameWithOwner row +:+ "," +:+ link +:+ "," +:+ showZ (r_stars row)
  +:+ "," +:+ yesNo (r_hasTS row) +:+ "," +:+ yesNo (r_hasReact row)
  +:+ "," +:+ yesNo (r_hasJest row) +:+ "," +:+ libs
  +:+ "," +:+ yesNo (r_hasReactDeps row)
  +:+ "," +:+ yesNo (r_hasFrontendTestLibs row) +:+ newline.

(** What the script sees of the file system: whether the directory
    [output] exists, and the content of the CSV file in it when the file
    exists.  Nothing but the script touches them. *)
Record Disk := {
  outputDir : bool;
  csvFile : option string;
}.

Definition ensureOutput (d : Disk) : Disk :=
  if outputDir d then d else {| outputDir := true; csvFile := csvFile d |}.

Definition writeCsvHeaderIfNeeded (d : Disk) : Disk :=
  let d' := ensureOutput d in
  match csvFile d' with
  | Some _ => d'
  | None => {| outputDir := outputDir d'; csvFile := Some CSV_HEADER |}
  end.

(** [fs.appendFileSync(CSV_FILE, line)], which creates the file when there
    is none. *)
Definition appendCsvRow (row : Row) (d : Disk) : Disk :=
  {| outputDir := outputDir d;
     csvFile := Some (default ""%string (csvFile d) +:+ csvLine row) |}.

(** The calls that [main] makes on the sink. *)
Inductive op :=
| Header
| Append (row : Row).

Definition step (o : op) (d : Disk) : Disk :=
  match o with
  | Header => writeCsvHeaderIfNeeded d
  | Append row => appendCsvRow row d
  end.

(** The disk after the calls [ops], oldest first. *)
Definition after (ops : list op) (d : Disk) : Disk :=
  fold_left (fun d o => step o d) ops d.

(** The calls of a run of [main] that has written the rows [rows] (newest
    first, as [csv] holds them): the header, then the rows. *)
Definition callsOf (rows : list Row) : list op :=
  Header :: (Append <$> rev rows).

End Sink.

(** ** The queries of the REST revisions *)

Module Dates.

(** The year and the month of [new Date(Date.UTC(y, m, 1))], as
    [getUTCFullYear] and [getUTCMonth] read them: a year from 0 to 99 stands
    for [1900 + y], and a month outside [0..11] carries into the year.  The
    range of time values that a [Date] can hold is not modelled. *)
Definition utcYearMonth (y m : Z) : Z * Z :=
  let yr := if (0 <=? y) && (y <=? 99) then 1900 + y else y in
  (yr + m / 12, m mod 12).

Definition leapYear (y : Z) : bool :=
  (y mod 4 =? 0) && (negb (y mod 100 =? 0) || (y mod 400 =? 0)).

(** The days of the month [m] (from 0) of the year [y]. *)
Definition daysInMonth (y m : Z) : Z :=
  if m =? 1 then (if leapYear y then 29 else 28)
  else if (m =? 3) || (m =? 5) || (m =? 8) || (m =? 10) then 30
  else 31.

(** [new Date(Date.UTC(y, m + 1, 0)).getUTCDate()]: day 0 of the month
    after [m] is the last day of [m]. *)
Definition lastDayOfMonth (y m : Z) : Z :=
  let '(y', m') := utcYearMonth y m in daysInMonth y' m'.

End Dates.

(** [s.padStart(2, '0')] *)
Definition padStart2 (s : string) : string :=
  match String.length s with
  | O => "00"
  | S O => "0" +:+ s
  | _ => s
  end.

(** The body of the loop of [buildLastNQuarters], for [cur] at the first
    month [m0] of a quarter of the year [y]. *)
Definition quarterRange (y m0 : Z) : string :=
  let qEndMonth := m0 + 2 in
  let lastDay := Dates.lastDayOfMonth y qEndMonth in
  let start := showZ y +:+ "-" +:+ padStart2 (showZ (m0 + 1)) +:+ "-01" in
  let finish :=
    showZ y +:+ "-" +:+ padStart2 (showZ (qEndMonth + 1)) +:+ "-"
    +:+ padStart2 (showZ lastDay) in
  "pushed:" +:+ start +:+ ".." +:+ finish.

(** [k] turns of the loop of [buildLastNQuarters]. *)
Fixpoint quartersFrom (k : nat) (y m0 : Z) : list string :=
  match k with
  | O => []
  | S k' =>
      quarterRange y m0
      :: (let '(y', m') := Dates.utcYearMonth y (m0 - 3) in
          quartersFrom k' y' m')
  end.

(** [buildLastNQuarters(n)] when [new Date()] is in the month [nowMonth]
    (from 0) of the year [nowYear], UTC. *)
Definition buildLastNQuarters (nowYear nowMonth n : Z) : list string :=
  let qStartMonth := nowMonth / 3 * 3 in
  let '(y, m0) := Dates.utcYearMonth nowYear qStartMonth in
  quartersFrom (Z.to_nat n) y m0.

(** The double quote. *)
Definition dquote : string := String (ascii_of_nat 34) EmptyString.

Definition BASES : list string :=
  ["language:TypeScript react";
   "language:TypeScript topic:react";
   "language:TypeScript " +:+ dquote +:+ "react" +:+ dquote
   +:+ " in:name,description,readme"]%string.

(** [(process.env.EXCLUDE_TOPICS || '').trim()] *)
Definition excludeTopics (env : option string) : string :=
  Txt.trim (orEmpty env).

(** [buildQueries()], for [QUARTERS_COUNT] and [EXCLUDE_TOPICS]. *)
Definition buildQueries (nowYear nowMonth QUARTERS_COUNT : Z)
    (EXCLUDE_TOPICS : string) : list string :=
  let quarters := buildLastNQuarters nowYear nowMonth QUARTERS_COUNT in
  let excl := EXCLUDE_TOPICS in
  flat_map
    (fun base =>
       (fun pushed =>
          Txt.trim
            (Str.join " "
               (List.filter (fun s => negb (String.eqb s ""))
                  [base; pushed; "fork:false"%string; "archived:false"%string;
                   excl])))
       <$> quarters)
    BASES.

(** The quarter [q] (from 0) of the year [y], as a range of the search
    qualifier [pushed]. *)
Definition quarterText (y q : Z) : string :=
  let '(first, last, days) :=
    if q =? 0 then ("01", "03", "31")
    else if q =? 1 then ("04", "06", "30")
    else if q =? 2 then ("07", "09", "30")
    else ("10", "12", "31") in
  "pushed:" +:+ showZ y +:+ "-" +:+ first +:+ "-01.."
  +:+ showZ y +:+ "-" +:+ last +:+ "-" +:+ days.

(** A text that [trimEnd] leaves as it is, and that is not empty. *)
Definition kept (t : string) : Prop := Txt.trimEnd t = t /\ t <> ""%string.

(** A text begins with an ASCII character. *)
Definition asciiHead (t : string) : Prop :=
  match t with
  | String a _ => Utf8.byte a < 128
  | EmptyString => False
  end.

(** * Properties *)

(** ** Rate-limited HTTP client *)

Section ClientFacts.

Context (E : Env).

Lemma handleRateLimit_exhausted res w :
  quotaExhausted res = true ->
  handleRateLimit res w =
    (Ret true,
     backedOff (waitMsAt (now w) (default ""%string (x_ratelimit_reset res))) w).
Proof.
  unfold quotaExhausted, handleRateLimit.
  intros [[Hs Hr]%andb_prop Hp]%andb_prop.
  rewrite Hs, Hr, Hp. reflexivity.
Qed.

Lemma handleRateLimit_otherwise res w :
  quotaExhausted res = false -> handleRateLimit res w = (Ret false, w).
Proof.
  unfold quotaExhausted, handleRateLimit. intros H.
  destruct (status res =? 403); [|reflexivity].
  simpl in H. rewrite H. reflexivity.
Qed.

Lemma quotaExhausted_403 res : quotaExhausted res = true -> status res = 403.
Proof.
  unfold quotaExhausted. intros [[Hs _]%andb_prop _]%andb_prop. lia.
Qed.

Lemma ghGET_rounds_retry n url w res :
  reply (net E url (now w)) = Some res ->
  quotaExhausted res = true ->
  ghGET_rounds E (S n) url w =
    ghGET_rounds E n url
      (backedOff (waitMsAt (now (settled E url w))
                    (default ""%string (x_ratelimit_reset res)))
         (settled E url w)).
Proof.
  intros Hr Hq. pose proof (quotaExhausted_403 _ Hq) as Hs.
  cbn [ghGET_rounds]. unfold bind at 1. unfold fetchWithTimeout. rewrite Hr.
  unfold bind at 1. rewrite Hs. cbn [Z.eqb Pos.eqb].
  rewrite (handleRateLimit_exhausted _ _ Hq). reflexivity.
Qed.

Lemma ghGET_rounds_conclude n url w res :
  reply (net E url (now w)) = Some res ->
  quotaExhausted res = false ->
  ghGET_rounds E (S n) url w = (conclude url res, settled E url w).
Proof.
  intros Hr Hq.
  cbn [ghGET_rounds]. unfold bind at 1. unfold fetchWithTimeout. rewrite Hr.
  unfold bind at 1.
  assert ((if status res =? 403 then handleRateLimit res else ret false)
            (settled E url w) = (Ret false, settled E url w)) as ->.
  { destruct (status res =? 403); [|reflexivity].
    apply handleRateLimit_otherwise, Hq. }
  unfold conclude.
  destruct (status res =? 404); [reflexivity|].
  destruct (negb (ok res)); reflexivity.
Qed.

Lemma ghGET_rounds_failed n url w :
  reply (net E url (now w)) = None ->
  ghGET_rounds E (S n) url w = (Throw (FetchFailed url), settled E url w).
Proof.
  intros Hr. cbn [ghGET_rounds]. unfold bind at 1, fetchWithTimeout.
  rewrite Hr. reflexivity.
Qed.

End ClientFacts.

Lemma round_safe z : Num.safe z -> Num.round z = Num.Fin z.
Proof.
  unfold Num.safe, Num.round. intros Hz.
  replace (Z.abs z <=? 2 ^ 53) with true; [reflexivity|].
  symmetry. apply Z.leb_le. lia.
Qed.

Lemma round_not_positive z :
  z <= 0 ->
  Num.round z = Num.Inf true \/ exists v, Num.round z = Num.Fin v /\ v <= 0.
Proof.
  intros Hz. unfold Num.round.
  destruct (Z.abs z <=? 2 ^ 53) eqn:Hsmall; [right; eauto|].
  apply Z.leb_gt in Hsmall.
  assert (2 ^ 53 = 9007199254740992) as H53 by reflexivity.
  set (e := Z.log2 (Z.abs z) - 52).
  assert (0 < 2 ^ e) as H2e.
  { apply Z.pow_pos_nonneg; [lia|]. subst e.
    assert (53 <= Z.log2 (Z.abs z)); [|lia].
    change 53 with (Z.log2 (2 ^ 53)). apply Z.log2_le_mono. lia. }
  set (q := Z.abs z / 2 ^ e).
  assert (0 <= q) as Hq by (subst q; apply Z.div_pos; lia).
  set (q' := if Z.abs z mod 2 ^ e <? 2 ^ (e - 1) then q
             else if 2 ^ (e - 1) <? Z.abs z mod 2 ^ e then q + 1
             else if Z.even q then q else q + 1).
  assert (0 <= q') as Hq'.
  { subst q'. repeat match goal with |- context [if ?c then _ else _] =>
                                       destruct c end; lia. }
  replace (z <? 0) with true by (symmetry; apply Z.ltb_lt; lia).
  destruct (2 ^ 1024 <=? q' * 2 ^ e); [left; reflexivity|].
  right. eexists. split; [reflexivity|].
  rewrite Z.sgn_neg by lia. nia.
Qed.

(** The wait is computed without rounding whenever it fits a timer. *)
Lemma waitMsAt_exact t reset r :
  Str.parseInt reset = Some r ->
  timeValue t ->
  Z.max 0 (r * 1000 - t) + 5000 <= TIMEOUT_MAX ->
  waitMsAt t reset = Num.Fin (Z.max 0 (r * 1000 - t) + 5000).
Proof.
  unfold timeValue, waitMsAt, TIMEOUT_MAX. intros -> Ht Hmax.
  assert (2 ^ 53 = 9007199254740992) as H53 by reflexivity.
  rewrite (round_safe t) by (unfold Num.safe; lia).
  cbn [Num.ofInt]. destruct (Z.le_gt_cases 0 r) as [Hr|Hr].
  - rewrite (round_safe r) by (unfold Num.safe; lia).
    cbn [Num.mul]. rewrite (round_safe (r * 1000)) by (unfold Num.safe; lia).
    cbn [Num.sub Num.opp Num.add].
    rewrite (round_safe (r * 1000 + - t)) by (unfold Num.safe; lia).
    cbn [Num.max Num.add].
    rewrite round_safe by (unfold Num.safe; lia).
    f_equal; lia.
  - replace (Z.max 0 (r * 1000 - t) + 5000) with 5000 by lia.
    assert (Num.max (Num.Fin 0)
              (Num.sub (Num.mul (Num.round r) (Num.Fin 1000)) (Num.Fin t))
            = Num.Fin 0) as ->; [|reflexivity].
    assert (Num.mul (Num.round r) (Num.Fin 1000) = Num.Inf true
            \/ exists v, Num.mul (Num.round r) (Num.Fin 1000) = Num.Fin v
                         /\ v <= 0) as [->|(v & -> & Hv)].
    { destruct (round_not_positive r ltac:(lia)) as [->|(v & -> & Hv)];
        [left; reflexivity|].
      cbn [Num.mul]. apply round_not_positive. lia. }
    + reflexivity.
    + cbn [Num.sub Num.opp Num.add].
      destruct (round_not_positive (v + - t) ltac:(lia)) as [->|(u & -> & Hu)];
        [reflexivity|].
      cbn [Num.max]. f_equal. lia.
Qed.

Lemma timerDelay_bounds ms : 1 <= timerDelay ms <= TIMEOUT_MAX.
Proof.
  unfold timerDelay, TIMEOUT_MAX.
  destruct ms as [|z|]; try lia.
  destruct (1 <=? z) eqn:H1; destruct (z <=? 2147483647) eqn:H2; cbn; lia.
Qed.




(** C9.  A 404 response makes [ghGET] return [{ status: 404 }] instead of
    throwing, and [getRepoContent] turns that value into [null]. *)
Theorem not_found_is_a_value E n url w res :
  reply (net E url (now w)) = Some res ->
  status res = 404 ->
  ghGET E (S n) url w
    = (Ret {| g_status := 404; g_data := None |}, settled E url w)
  /\ forall owner repo pathName,
      url = ApiContents owner repo (Str.encodeURIComponent pathName) ->
      getRepoContent E (S n) owner repo pathName w
        = (Ret None, settled E url w).
Proof.
  intros Hr Hs.
  assert (quotaExhausted res = false) as Hq.
  { unfold quotaExhausted. rewrite Hs. reflexivity. }
  assert (ghGET E (S n) url w
          = (Ret {| g_status := 404; g_data := None |}, settled E url w)) as Hg.
  { unfold ghGET. rewrite (ghGET_rounds_conclude E n url w res Hr Hq).
    unfold conclude. rewrite Hs. reflexivity. }
  split; [exact Hg|].
  intros owner repo pathName ->.
  unfold getRepoContent, bind. rewrite Hg. reflexivity.
Qed.

Lemma not_found_is_a_value_witness :
  ghGET Sample.nowhere 1 (ApiContents "o" "r" "package.json") (Sample.idle 0)
    = (Ret {| g_status := 404; g_data := None |},
       settled Sample.nowhere (ApiContents "o" "r" "package.json")
         (Sample.idle 0))
  /\ getRepoContent Sample.nowhere 1 "o" "r" "package.json" (Sample.idle 0)
     = (Ret None,
        settled Sample.nowhere (ApiContents "o" "r" "package.json")
          (Sample.idle 0)).
Proof.
  pose proof (not_found_is_a_value Sample.nowhere 0
                (ApiContents "o" "r" "package.json") (Sample.idle 0)
                _ eq_refl eq_refl) as [H1 H2].
  split; [exact H1|].
  exact (H2 "o"%string "r"%string "package.json"%string eq_refl).
Defined.

(** ** Text as code points *)

Lemma app_assoc_string (a b c : string) : (a +:+ b) +:+ c = a +:+ b +:+ c.
Proof.
  induction a as [|x a IH]; [reflexivity|].
  change (String x ((a +:+ b) +:+ c) = String x (a +:+ b +:+ c)).
  rewrite IH. reflexivity.
Qed.

Lemma prefix_app p s : String.prefix p (p +:+ s) = true.
Proof.
  induction p as [|c p IH]; [destruct s; reflexivity|].
  change (String c p +:+ s) with (String c (p +:+ s)). cbn.
  destruct (ascii_dec c c); [exact IH|congruence].
Qed.

Lemma prefix_split p s :
  String.prefix p s = true -> exists post, s = p +:+ post.
Proof.
  revert s. induction p as [|c p IH]; intros s H.
  - exists s. reflexivity.
  - destruct s as [|d s]; [discriminate H|]. cbn in H.
    destruct (ascii_dec c d) as [<-|]; [|discriminate H].
    destruct (IH _ H) as [post ->]. exists post. reflexivity.
Qed.

Lemma includes_split s sub :
  Str.includes s sub = true <-> exists pre post, s = pre +:+ sub +:+ post.
Proof.
  split.
  - induction s as [|c s IH]; cbn [Str.includes]; intros H.
    + rewrite orb_false_r in H. apply prefix_split in H as [post ->].
      exists ""%string, post. reflexivity.
    + apply orb_prop in H as [H|H].
      * apply prefix_split in H as [post ->]. exists ""%string, post.
        reflexivity.
      * destruct (IH H) as (pre & post & ->).
        exists (String c pre), post. reflexivity.
  - intros (pre & post & ->). induction pre as [|c pre IH].
    + change (""%string +:+ sub +:+ post) with (sub +:+ post).
      destruct (sub +:+ post) eqn:Heq; cbn [Str.includes];
        rewrite <- Heq, prefix_app; reflexivity.
    + change (String c pre +:+ sub +:+ post)
        with (String c (pre +:+ sub +:+ post)).
      cbn [Str.includes]. rewrite IH. apply orb_true_r.
Qed.

(** Settle the comparisons of the goal that [lia] decides. *)
Ltac decide_ltb :=
  repeat match goal with
    | |- context [?a <? ?b] =>
        first [ replace (a <? b) with true by (symmetry; apply Z.ltb_lt; lia)
              | replace (a <? b) with false by (symmetry; apply Z.ltb_ge; lia) ]
    | |- context [?a <=? ?b] =>
        first [ replace (a <=? b) with true by (symmetry; apply Z.leb_le; lia)
              | replace (a <=? b) with false by (symmetry; apply Z.leb_gt; lia) ]
    | |- context [?a =? ?b] =>
        first [ replace (a =? b) with true by (symmetry; apply Z.eqb_eq; lia)
              | replace (a =? b) with false by (symmetry; apply Z.eqb_neq; lia) ]
    end.

Section Utf8Facts.

Import Utf8.

Lemma byte_range a : 0 <= byte a < 256.
Proof.
  unfold byte. pose proof (N_ascii_bounded a). lia.
Qed.

Lemma byte_chr n : 0 <= n < 256 -> byte (chr n) = n.
Proof.
  intros Hn. unfold byte, chr. rewrite N_ascii_embedding by lia. lia.
Qed.

Lemma chr_byte a : chr (byte a) = a.
Proof. unfold byte, chr. rewrite N2Z.id. apply ascii_N_embedding. Qed.

Lemma decode_step a1 s1 :
  decode (String a1 s1)
  = match headCp (byte a1) s1 with
    | Some (c, n) => Cp c :: decode (skip n s1)
    | None => Raw a1 :: decode s1
    end.
Proof.
  cbn [decode]. destruct (headCp (byte a1) s1) as [[c n]|]; [|reflexivity].
  destruct n as [|[|[|n]]]; destruct s1 as [|? [|? [|? ?]]]; reflexivity.
Qed.

Lemma skip_length n s : (String.length (skip n s) <= String.length s)%nat.
Proof.
  destruct n as [|[|[|n]]]; destruct s as [|? [|? [|? ?]]]; cbn; lia.
Qed.

(** Induction along [decode]. *)
Lemma decode_induction (P : string -> Prop) :
  P EmptyString ->
  (forall a1 s1, (forall n, P (skip n s1)) -> P (String a1 s1)) ->
  forall s, P s.
Proof.
  intros Hnil Hcons s.
  assert (forall k s, (String.length s <= k)%nat -> P s) as H.
  { clear s. induction k as [|k IH]; intros s Hs.
    - destruct s; [exact Hnil|cbn in Hs; lia].
    - destruct s as [|a1 s1]; [exact Hnil|].
      apply Hcons. intros n. apply IH.
      pose proof (skip_length n s1). cbn in Hs. lia. }
  apply (H (String.length s)). lia.
Qed.

(** What [headCp] reads is a code point, and the bytes read are its
    encoding. *)
Lemma headCp_encodeCp a1 s1 c n :
  headCp (byte a1) s1 = Some (c, n) ->
  0 <= c < 1114112 /\ String a1 s1 = encodeCp c +:+ skip n s1.
Proof.
  unfold headCp. pose proof (byte_range a1) as H1.
  destruct (byte a1 <? 128) eqn:Hascii.
  { intros [= <- <-]. split; [lia|]. unfold encodeCp. rewrite Hascii.
    rewrite chr_byte. reflexivity. }
  destruct s1 as [|a2 s2]; [discriminate|].
  pose proof (byte_range a2) as H2. unfold cont.
  destruct ((194 <=? byte a1) && (byte a1 <=? 223)) eqn:Hl2.
  { destruct ((128 <=? byte a2) && (byte a2 <=? 191)) eqn:Hc2;
      [|discriminate].
    intros [= <- <-].
    set (c := (byte a1 - 192) * 64 + (byte a2 - 128)).
    assert (128 <= c < 2048) as Hc by (subst c; lia).
    assert (c / 64 = byte a1 - 192 /\ c mod 64 = byte a2 - 128) as [Hd Hm].
    { subst c. Z.div_mod_to_equations. lia. }
    split; [lia|]. unfold encodeCp.
    replace (c <? 128) with false by (symmetry; apply Z.ltb_ge; lia).
    replace (c <? 2048) with true by (symmetry; apply Z.ltb_lt; lia).
    rewrite Hd, Hm.
    replace (192 + (byte a1 - 192)) with (byte a1) by lia.
    replace (128 + (byte a2 - 128)) with (byte a2) by lia.
    rewrite !chr_byte. reflexivity. }
  destruct s2 as [|a3 s3]; [discriminate|].
  pose proof (byte_range a3) as H3.
  destruct ((224 <=? byte a1) && (byte a1 <=? 239)) eqn:Hl3.
  { destruct ((128 <=? byte a2) && (byte a2 <=? 191)
              && ((128 <=? byte a3) && (byte a3 <=? 191))
              && ((160 <=? byte a2) || negb (byte a1 =? 224))) eqn:Hc3;
      [|discriminate].
    intros [= <- <-].
    set (c := ((byte a1 - 224) * 64 + (byte a2 - 128)) * 64
              + (byte a3 - 128)).
    assert (2048 <= c < 65536) as Hc by (subst c; lia).
    assert (c / 4096 = byte a1 - 224 /\ c / 64 mod 64 = byte a2 - 128
            /\ c mod 64 = byte a3 - 128) as (Hd1 & Hd2 & Hm).
    { subst c. Z.div_mod_to_equations. lia. }
    split; [lia|]. unfold encodeCp.
    replace (c <? 128) with false by (symmetry; apply Z.ltb_ge; lia).
    replace (c <? 2048) with false by (symmetry; apply Z.ltb_ge; lia).
    replace (c <? 65536) with true by (symmetry; apply Z.ltb_lt; lia).
    rewrite Hd1, Hd2, Hm.
    replace (224 + (byte a1 - 224)) with (byte a1) by lia.
    replace (128 + (byte a2 - 128)) with (byte a2) by lia.
    replace (128 + (byte a3 - 128)) with (byte a3) by lia.
    rewrite !chr_byte. reflexivity. }
  destruct s3 as [|a4 s4]; [discriminate|].
  pose proof (byte_range a4) as H4.
  destruct ((240 <=? byte a1) && (byte a1 <=? 244)
            && ((128 <=? byte a2) && (byte a2 <=? 191))
            && ((128 <=? byte a3) && (byte a3 <=? 191))
            && ((128 <=? byte a4) && (byte a4 <=? 191))
            && ((144 <=? byte a2) || negb (byte a1 =? 240))
            && ((byte a2 <=? 143) || negb (byte a1 =? 244))) eqn:Hc4;
    [|discriminate].
  intros [= <- <-].
  set (c := (((byte a1 - 240) * 64 + (byte a2 - 128)) * 64
             + (byte a3 - 128)) * 64 + (byte a4 - 128)).
  assert (65536 <= c < 1114112) as Hc by (subst c; lia).
  assert (c / 262144 = byte a1 - 240 /\ c / 4096 mod 64 = byte a2 - 128
          /\ c / 64 mod 64 = byte a3 - 128
          /\ c mod 64 = byte a4 - 128) as (Hd1 & Hd2 & Hd3 & Hm).
  { subst c. Z.div_mod_to_equations. lia. }
  split; [lia|]. unfold encodeCp.
  replace (c <? 128) with false by (symmetry; apply Z.ltb_ge; lia).
  replace (c <? 2048) with false by (symmetry; apply Z.ltb_ge; lia).
  replace (c <? 65536) with false by (symmetry; apply Z.ltb_ge; lia).
  rewrite Hd1, Hd2, Hd3, Hm.
  replace (240 + (byte a1 - 240)) with (byte a1) by lia.
  replace (128 + (byte a2 - 128)) with (byte a2) by lia.
  replace (128 + (byte a3 - 128)) with (byte a3) by lia.
  replace (128 + (byte a4 - 128)) with (byte a4) by lia.
  rewrite !chr_byte. reflexivity.
Qed.

Lemma encode_decode s : encode (decode s) = s.
Proof.
  induction s as [|a1 s1 IH] using decode_induction; [reflexivity|].
  rewrite decode_step.
  destruct (headCp (byte a1) s1) as [[c n]|] eqn:Hh.
  - cbn [encode encodeUnit]. rewrite (IH n).
    symmetry. apply (headCp_encodeCp _ _ _ _ Hh).
  - cbn [encode encodeUnit]. rewrite <- (IH O) at 2. reflexivity.
Qed.

(** The encoding of a code point is read back, whatever follows it. *)
Lemma headCp_of_encodeCp o x :
  0 <= o < 1114112 ->
  exists a1 s1 n,
    encodeCp o +:+ x = String a1 s1
    /\ headCp (byte a1) s1 = Some (o, n) /\ skip n s1 = x
    /\ cont (byte a1) = false.
Proof.
  intros Ho. unfold encodeCp.
  destruct (o <? 128) eqn:H1; [|destruct (o <? 2048) eqn:H2;
                                 [|destruct (o <? 65536) eqn:H3]].
  - eexists _, _, O. split; [reflexivity|].
    rewrite byte_chr by lia. unfold headCp, cont. rewrite H1.
    repeat split. decide_ltb. reflexivity.
  - set (b1 := 192 + o / 64). set (b2 := 128 + o mod 64).
    assert (194 <= b1 <= 223 /\ 128 <= b2 <= 191
            /\ (b1 - 192) * 64 + (b2 - 128) = o) as (Hb1 & Hb2 & Hv).
    { subst b1 b2. Z.div_mod_to_equations. lia. }
    eexists _, _, 1%nat. split; [reflexivity|].
    rewrite byte_chr by lia. unfold headCp, cont.
    rewrite byte_chr by lia. decide_ltb. cbn [andb]. rewrite Hv.
    repeat split.
  - set (b1 := 224 + o / 4096). set (b2 := 128 + o / 64 mod 64).
    set (b3 := 128 + o mod 64).
    assert (224 <= b1 <= 239 /\ 128 <= b2 <= 191 /\ 128 <= b3 <= 191
            /\ (b1 = 224 -> 160 <= b2)
            /\ ((b1 - 224) * 64 + (b2 - 128)) * 64 + (b3 - 128) = o)
      as (Hb1 & Hb2 & Hb3 & Hlow & Hv).
    { subst b1 b2 b3. Z.div_mod_to_equations. lia. }
    eexists _, _, 2%nat. split; [reflexivity|].
    rewrite byte_chr by lia. unfold headCp, cont.
    rewrite !byte_chr by lia.
    assert ((160 <=? b2) || negb (b1 =? 224) = true) as ->.
    { destruct (b1 =? 224) eqn:He; [|apply orb_true_r].
      apply Z.eqb_eq in He. apply orb_true_iff. left. apply Z.leb_le. auto. }
    decide_ltb. cbn [andb]. rewrite Hv. repeat split.
  - set (b1 := 240 + o / 262144). set (b2 := 128 + o / 4096 mod 64).
    set (b3 := 128 + o / 64 mod 64). set (b4 := 128 + o mod 64).
    assert (240 <= b1 <= 244 /\ 128 <= b2 <= 191 /\ 128 <= b3 <= 191
            /\ 128 <= b4 <= 191
            /\ (b1 = 240 -> 144 <= b2) /\ (b1 = 244 -> b2 <= 143)
            /\ (((b1 - 240) * 64 + (b2 - 128)) * 64 + (b3 - 128)) * 64
               + (b4 - 128) = o)
      as (Hb1 & Hb2 & Hb3 & Hb4 & Hlow & Hhigh & Hv).
    { subst b1 b2 b3 b4. Z.div_mod_to_equations. lia. }
    eexists _, _, 3%nat. split; [reflexivity|].
    rewrite byte_chr by lia. unfold headCp, cont.
    rewrite !byte_chr by lia.
    assert ((144 <=? b2) || negb (b1 =? 240) = true) as ->.
    { destruct (b1 =? 240) eqn:He; [|apply orb_true_r].
      apply Z.eqb_eq in He. apply orb_true_iff. left. apply Z.leb_le. auto. }
    assert ((b2 <=? 143) || negb (b1 =? 244) = true) as ->.
    { destruct (b1 =? 244) eqn:He; [|apply orb_true_r].
      apply Z.eqb_eq in He. apply orb_true_iff. left. apply Z.leb_le. auto. }
    decide_ltb. cbn [andb]. rewrite Hv. repeat split.
Qed.

Lemma decode_encodeCp o x :
  0 <= o < 1114112 -> decode (encodeCp o +:+ x) = Cp o :: decode x.
Proof.
  intros Ho.
  destruct (headCp_of_encodeCp o x Ho) as (a1 & s1 & n & -> & Hh & Hs & _).
  rewrite decode_step, Hh, Hs. reflexivity.
Qed.

End Utf8Facts.

Section Utf8Structure.

Import Utf8.

Lemma headCp_leadingConts b x : headCp b x = headCp b (leadingConts x).
Proof.
  unfold headCp. destruct (b <? 128); [reflexivity|].
  destruct x as [|a2 x]; [reflexivity|]. cbn [leadingConts].
  destruct (cont (byte a2)) eqn:H2.
  2:{ destruct ((194 <=? b) && (b <=? 223)); [reflexivity|].
      destruct x as [|a3 x]; [reflexivity|].
      destruct ((224 <=? b) && (b <=? 239)); [reflexivity|].
      destruct x as [|a4 x]; [reflexivity|].
      rewrite !andb_false_r. reflexivity. }
  rewrite H2.
  destruct ((194 <=? b) && (b <=? 223)); [reflexivity|].
  destruct x as [|a3 x]; [reflexivity|]. cbn [leadingConts].
  destruct (cont (byte a3)) eqn:H3.
  2:{ destruct ((224 <=? b) && (b <=? 239)); [reflexivity|].
      destruct x as [|a4 x]; [reflexivity|].
      rewrite !andb_false_r. reflexivity. }
  rewrite H3.
  destruct ((224 <=? b) && (b <=? 239)); [reflexivity|].
  destruct x as [|a4 x]; [reflexivity|]. cbn [leadingConts].
  destruct (cont (byte a4)) eqn:H4; [rewrite H4; reflexivity|].
  rewrite !andb_false_r. reflexivity.
Qed.

Lemma leadingConts_app s x :
  startsAfresh x -> leadingConts (s +:+ x) = leadingConts s.
Proof.
  intros Hx. induction s as [|a s IH]; [exact Hx|].
  change (String a s +:+ x) with (String a (s +:+ x)). cbn [leadingConts].
  rewrite IH. reflexivity.
Qed.

Lemma headCp_app b s x :
  startsAfresh x -> headCp b (s +:+ x) = headCp b s.
Proof.
  intros Hx.
  rewrite (headCp_leadingConts b (s +:+ x)), (headCp_leadingConts b s).
  rewrite leadingConts_app by exact Hx. reflexivity.
Qed.

Lemma skip_app o n s x c :
  headCp (byte c) s = Some (o, n) -> skip n (s +:+ x) = skip n s +:+ x.
Proof.
  unfold headCp.
  destruct (byte c <? 128); [intros [= <- <-]; reflexivity|].
  destruct s as [|a2 s]; [discriminate|].
  destruct ((194 <=? byte c) && (byte c <=? 223)).
  { destruct (cont (byte a2)); [|discriminate].
    intros [= <- <-]. reflexivity. }
  destruct s as [|a3 s]; [discriminate|].
  destruct ((224 <=? byte c) && (byte c <=? 239)).
  { destruct (_ && _); [|discriminate]. intros [= <- <-]. reflexivity. }
  destruct s as [|a4 s]; [discriminate|].
  destruct (_ && _); [|discriminate]. intros [= <- <-]. reflexivity.
Qed.

(** A text splits where a code point or a stray lead byte begins. *)
Lemma decode_app s x :
  startsAfresh x -> decode (s +:+ x) = decode s ++ decode x.
Proof.
  intros Hx. induction s as [|a1 s1 IH] using decode_induction;
    [reflexivity|].
  change (String a1 s1 +:+ x) with (String a1 (s1 +:+ x)).
  rewrite !decode_step, (headCp_app _ _ _ Hx).
  destruct (headCp (byte a1) s1) as [[c n]|] eqn:Hh.
  - rewrite (skip_app c n s1 x a1 Hh), (IH n). reflexivity.
  - pose proof (IH O) as IH0. cbn [skip] in IH0. rewrite IH0. reflexivity.
Qed.

Lemma encode_app l1 l2 : encode (l1 ++ l2) = encode l1 +:+ encode l2.
Proof.
  induction l1 as [|u l1 IH]; [reflexivity|].
  cbn [app encode]. rewrite IH, app_assoc_string. reflexivity.
Qed.

Lemma decode_encode l : wellFormed l -> decode (encode l) = l.
Proof.
  induction l as [|[c|a] l IH]; [reflexivity|..]; intros [H Hl].
  - cbn [encode encodeUnit]. rewrite decode_encodeCp by exact H.
    rewrite IH by exact Hl. reflexivity.
  - cbn [encode encodeUnit].
    change (String a "" +:+ encode l) with (String a (encode l)).
    rewrite decode_step, H, IH by exact Hl. reflexivity.
Qed.

Lemma wellFormed_decode s : wellFormed (decode s).
Proof.
  induction s as [|a1 s1 IH] using decode_induction; [exact I|].
  rewrite decode_step.
  destruct (headCp (byte a1) s1) as [[c n]|] eqn:Hh.
  - split; [apply (headCp_encodeCp _ _ _ _ Hh)|apply IH].
  - split; [|apply (IH O)]. rewrite encode_decode. exact Hh.
Qed.

Lemma wellFormed_app l1 l2 :
  wellFormed l1 -> wellFormed l2 -> startsAfresh (encode l2) ->
  wellFormed (l1 ++ l2).
Proof.
  intros H1 H2 Hx. induction l1 as [|[c|a] l1 IH]; [exact H2|..];
    destruct H1 as [H H1]; (split; [|apply IH, H1]).
  - exact H.
  - rewrite encode_app, headCp_app by exact Hx. exact H.
Qed.

Lemma startsAfresh_encodeCp o x :
  0 <= o < 1114112 -> startsAfresh (encodeCp o +:+ x).
Proof.
  intros Ho.
  destruct (headCp_of_encodeCp o x Ho) as (a1 & s1 & n & -> & _ & _ & Hc).
  unfold startsAfresh. cbn [leadingConts]. rewrite Hc. reflexivity.
Qed.

End Utf8Structure.

Section CaseFacts.

Import Utf8.

Lemma lookup_cases c table :
  Ucd.lookup c table = c
  \/ exists e, In e table /\ Ucd.inEntry c e = true
               /\ Ucd.lookup c table = c + e.2.
Proof.
  induction table as [|e table IH]; [left; reflexivity|].
  cbn [Ucd.lookup]. destruct (Ucd.inEntry c e) eqn:He.
  - right. exists e. split; [left; reflexivity|]. split; [exact He|reflexivity].
  - destruct IH as [IH|(e' & Hin & He' & IH)]; [left; exact IH|].
    right. exists e'. split; [right; exact Hin|]. split; assumption.
Qed.

Lemma inEntry_target c e :
  0 < e.1.2 -> Ucd.inEntry c e = true -> In (c + e.2) (entryTargets e).
Proof.
  destruct e as [[[lo hi] step] delta]. cbn [fst snd].
  unfold Ucd.inEntry, entryTargets.
  intros Hstep [[Hlo Hhi]%andb_prop Hmod]%andb_prop.
  apply Z.leb_le in Hlo, Hhi. apply Z.eqb_eq in Hmod.
  apply list_elem_of_In, list_elem_of_fmap.
  exists (Z.to_nat ((c - lo) / step)).
  assert (0 <= (c - lo) / step) by (apply Z.div_pos; lia).
  assert ((c - lo) / step <= (hi - lo) / step)
    by (apply Z.div_le_mono; lia).
  split.
  - rewrite Z2Nat.id by lia.
    pose proof (Z.div_mod (c - lo) step ltac:(lia)) as Hdm.
    rewrite Hmod in Hdm. lia.
  - apply list_elem_of_In, in_seq. lia.
Qed.

Lemma lowerTable_steps :
  forallb (fun e => 0 <? e.1.2) Ucd.lowerTable = true.
Proof. vm_compute. reflexivity. Qed.

Lemma lowerTable_targets :
  forallb goodTarget (flat_map entryTargets Ucd.lowerTable) = true.
Proof. vm_compute. reflexivity. Qed.

Lemma lowerCp_cases c :
  Ucd.lowerCp c = c \/ goodTarget (Ucd.lowerCp c) = true.
Proof.
  unfold Ucd.lowerCp.
  destruct (lookup_cases c Ucd.lowerTable) as [H|(e & Hin & He & ->)];
    [left; exact H|right].
  pose proof lowerTable_steps as Hsteps.
  rewrite forallb_forall in Hsteps. specialize (Hsteps e Hin).
  apply Z.ltb_lt in Hsteps.
  pose proof lowerTable_targets as Ht. rewrite forallb_forall in Ht.
  apply Ht, in_flat_map. exists e. split; [exact Hin|].
  apply inEntry_target; assumption.
Qed.

Lemma lowerCp_ascii c :
  0 <= c < 128 ->
  Ucd.lowerCp c = if (65 <=? c) && (c <=? 90) then c + 32 else c.
Proof.
  intros Hc.
  assert (forallb (fun c => Ucd.lowerCp c
                            =? if (65 <=? c) && (c <=? 90) then c + 32 else c)
            (Z.of_nat <$> seq 0 128) = true) as H
    by (vm_compute; reflexivity).
  rewrite forallb_forall in H. apply Z.eqb_eq, H.
  apply list_elem_of_In, list_elem_of_fmap. exists (Z.to_nat c).
  split; [lia|]. apply list_elem_of_In, in_seq. lia.
Qed.

(** The simple mapping gives a code point that lower-casing leaves as it
    is and that is no upper-case ASCII letter. *)
Lemma lowerCp_good c :
  0 <= c < 1114112 -> c <> 931 -> c <> 304 ->
  goodTarget (Ucd.lowerCp c) = true.
Proof.
  intros Hc H931 H304.
  destruct (lowerCp_cases c) as [H|H]; [|exact H].
  rewrite H. unfold goodTarget, settledCp. rewrite H.
  assert (~ 65 <= c <= 90) as Hup.
  { intros Hu. rewrite lowerCp_ascii in H by lia.
    replace ((65 <=? c) && (c <=? 90)) with true in H by
      (symmetry; apply andb_true_iff; split; apply Z.leb_le; lia).
    lia. }
  replace (0 <=? c) with true by (symmetry; apply Z.leb_le; lia).
  replace (c <? 1114112) with true by (symmetry; apply Z.ltb_lt; lia).
  replace (c =? 931) with false by (symmetry; apply Z.eqb_neq; lia).
  replace (c =? 304) with false by (symmetry; apply Z.eqb_neq; lia).
  rewrite Z.eqb_refl. cbn [negb andb].
  destruct (65 <=? c) eqn:H1; [|reflexivity].
  destruct (c <=? 90) eqn:H2; [|reflexivity]. lia.
Qed.

Lemma goodTarget_spec o :
  goodTarget o = true ->
  0 <= o < 1114112 /\ settledCp o = true /\ ~ 65 <= o <= 90.
Proof.
  unfold goodTarget.
  intros [[[H0 H1]%andb_prop Hs]%andb_prop Hu]%andb_prop.
  split; [lia|]. split; [exact Hs|].
  apply negb_true_iff, andb_false_iff in Hu. lia.
Qed.

(** What [lowerUnits] puts out for a code point. *)
Lemma lowered_code_point (f : bool) c l :
  0 <= c < 1114112 ->
  exists out,
    lowerUnits f (Cp c :: l)
    = (Cp <$> out)
      ++ lowerUnits (if Ucd.caseIgnorable c then f else Ucd.casedLetter c) l
    /\ out <> [] /\ Forall (fun o => goodTarget o = true) out.
Proof.
  intros Hc. cbn [lowerUnits].
  destruct (c =? 931) eqn:H931.
  { destruct (f && negb (followedByCased l));
      [exists [962]|exists [963]]; (split; [reflexivity|]);
      (split; [discriminate|]); repeat constructor. }
  destruct (c =? 304) eqn:H304.
  { exists [105; 775]. split; [reflexivity|]. split; [discriminate|].
    repeat constructor. }
  exists [Ucd.lowerCp c]. split; [reflexivity|]. split; [discriminate|].
  constructor; [|constructor]. apply lowerCp_good; lia.
Qed.

End CaseFacts.

Section Lowering.

Import Utf8.

Lemma wellFormed_cps out l :
  Forall (fun o => goodTarget o = true) out -> wellFormed l ->
  wellFormed ((Cp <$> out) ++ l).
Proof.
  intros Hout Hl. induction Hout as [|o out Ho _ IH]; [exact Hl|].
  split; [apply (goodTarget_spec o Ho)|exact IH].
Qed.

Lemma startsAfresh_cps out l :
  out <> [] -> Forall (fun o => goodTarget o = true) out ->
  startsAfresh (encode ((Cp <$> out) ++ l)).
Proof.
  intros Hne Hout. destruct Hout as [|o out Ho _]; [congruence|].
  cbn [fmap list_fmap app encode encodeUnit].
  apply startsAfresh_encodeCp, (goodTarget_spec o Ho).
Qed.

Lemma leadingConts_lowerUnits f l :
  wellFormed l ->
  leadingConts (encode (lowerUnits f l)) = leadingConts (encode l).
Proof.
  revert f. induction l as [|[c|a] l IH]; intros f; [reflexivity|..];
    intros [H Hl].
  - destruct (lowered_code_point f c l H) as (out & -> & Hne & Hout).
    rewrite (startsAfresh_cps out _ Hne Hout).
    symmetry. apply startsAfresh_encodeCp, H.
  - cbn [lowerUnits encode encodeUnit].
    change (String a "" +:+ ?x) with (String a x). cbn [leadingConts].
    rewrite IH by exact Hl. reflexivity.
Qed.

Lemma wellFormed_lowerUnits f l :
  wellFormed l -> wellFormed (lowerUnits f l).
Proof.
  revert f. induction l as [|[c|a] l IH]; intros f; [intros; exact I|..];
    intros [H Hl].
  - destruct (lowered_code_point f c l H) as (out & -> & _ & Hout).
    apply wellFormed_cps; [exact Hout|apply IH, Hl].
  - cbn [lowerUnits]. split; [|apply IH, Hl].
    rewrite headCp_leadingConts, leadingConts_lowerUnits by exact Hl.
    rewrite <- headCp_leadingConts. exact H.
Qed.

Lemma settled_lowerUnits f l :
  wellFormed l -> Forall settledUnit (lowerUnits f l).
Proof.
  revert f. induction l as [|[c|a] l IH]; intros f; [constructor|..];
    intros [H Hl].
  - destruct (lowered_code_point f c l H) as (out & -> & _ & Hout).
    apply Forall_app. split; [|apply IH, Hl].
    apply Forall_fmap. eapply Forall_impl; [exact Hout|].
    intros o Ho. apply (goodTarget_spec o Ho).
  - cbn [lowerUnits]. constructor; [exact I|apply IH, Hl].
Qed.

Lemma lowerUnits_settled f l :
  Forall settledUnit l -> lowerUnits f l = l.
Proof.
  intros Hl. revert f. induction Hl as [|[c|a] l Hu _ IH]; intros f;
    [reflexivity|..].
  - cbn [settledUnit] in Hu. unfold settledCp in Hu.
    apply andb_prop in Hu as [[H1 H2]%andb_prop H3].
    apply negb_true_iff in H1, H2. apply Z.eqb_eq in H3.
    cbn [lowerUnits]. rewrite H1, H2, H3, IH. reflexivity.
  - cbn [lowerUnits]. rewrite IH. reflexivity.
Qed.

(** A text that is lower-cased already. *)
Lemma settled_text f s :
  Forall settledUnit (decode s) -> encode (lowerUnits f (decode s)) = s.
Proof.
  intros H. rewrite lowerUnits_settled by exact H. apply encode_decode.
Qed.

Lemma decode_lowered f s :
  decode (encode (lowerUnits f (decode s))) = lowerUnits f (decode s).
Proof. apply decode_encode, wellFormed_lowerUnits, wellFormed_decode. Qed.

Lemma settled_lowered f s :
  Forall settledUnit (decode (encode (lowerUnits f (decode s)))).
Proof.
  rewrite decode_lowered. apply settled_lowerUnits, wellFormed_decode.
Qed.

Lemma toLowerCase_idem s : Str.toLowerCase (Str.toLowerCase s) = Str.toLowerCase s.
Proof. unfold Str.toLowerCase. apply settled_text, settled_lowered. Qed.

(** An ASCII space parts the contexts of lower-casing. *)
Lemma followedByCased_space l l' :
  followedByCased (l ++ Cp 32 :: l') = followedByCased l.
Proof.
  induction l as [|[c|a] l IH]; [reflexivity|..]; cbn [app followedByCased].
  - rewrite IH. reflexivity.
  - reflexivity.
Qed.

Lemma lowerUnits_space f l l' :
  lowerUnits f (l ++ Cp 32 :: l')
  = lowerUnits f l ++ Cp 32 :: lowerUnits false l'.
Proof.
  revert f. induction l as [|[c|a] l IH]; intros f; [reflexivity|..];
    cbn [app lowerUnits].
  - rewrite IH, followedByCased_space, <- app_assoc. reflexivity.
  - rewrite IH. reflexivity.
Qed.

Lemma decode_space s t :
  decode (s +:+ " " +:+ t) = decode s ++ Cp 32 :: decode t.
Proof.
  rewrite decode_app by reflexivity.
  change (" " +:+ t)%string with (String " " t).
  rewrite decode_step. reflexivity.
Qed.

Lemma toLowerCase_space s t :
  Str.toLowerCase (s +:+ " " +:+ t) = Str.toLowerCase s +:+ " " +:+ Str.toLowerCase t.
Proof.
  unfold Str.toLowerCase.
  rewrite decode_space, lowerUnits_space, encode_app. reflexivity.
Qed.

(** Lower-casing puts out no upper-case ASCII letter. *)
Lemma plain_decode s :
  Forall (fun u => match u with
                   | Cp c => 0 <= c < 1114112
                   | Raw a => 128 <= byte a
                   end) (decode s).
Proof.
  induction s as [|a1 s1 IH] using decode_induction; [constructor|].
  rewrite decode_step.
  destruct (headCp (byte a1) s1) as [[c n]|] eqn:Hh.
  - constructor; [apply (headCp_encodeCp _ _ _ _ Hh)|apply IH].
  - constructor; [|apply (IH O)].
    unfold headCp in Hh. destruct (byte a1 <? 128) eqn:Hlt; [discriminate|].
    apply Z.ltb_ge in Hlt. exact Hlt.
Qed.

Lemma plain_lowerUnits f l :
  Forall (fun u => match u with
                   | Cp c => 0 <= c < 1114112
                   | Raw a => 128 <= byte a
                   end) l ->
  Forall plainUnit (lowerUnits f l).
Proof.
  intros Hl. revert f. induction Hl as [|[c|a] l Hu _ IH]; intros f;
    [constructor|..].
  - destruct (lowered_code_point f c l Hu) as (out & -> & _ & Hout).
    apply Forall_app. split; [|apply IH].
    apply Forall_fmap. eapply Forall_impl; [exact Hout|].
    intros o Ho. destruct (goodTarget_spec o Ho) as (H1 & _ & H2).
    split; assumption.
  - cbn [lowerUnits]. constructor; [exact Hu|apply IH].
Qed.

Lemma isUpper_byte a :
  Txt.isUpper a = (65 <=? byte a) && (byte a <=? 90).
Proof. destruct a as [[] [] [] [] [] [] [] []]; reflexivity. Qed.

Lemma hasUpper_app s t :
  Txt.hasUpper (s +:+ t) = Txt.hasUpper s || Txt.hasUpper t.
Proof.
  induction s as [|a s IH]; [reflexivity|].
  change (String a s +:+ t) with (String a (s +:+ t)).
  cbn [Txt.hasUpper]. rewrite IH, orb_assoc. reflexivity.
Qed.

Lemma isUpper_chr n :
  0 <= n < 256 -> ~ 65 <= n <= 90 -> Txt.isUpper (chr n) = false.
Proof.
  intros Hn Hu. rewrite isUpper_byte, byte_chr by exact Hn.
  destruct (65 <=? n) eqn:H1; [|reflexivity].
  destruct (n <=? 90) eqn:H2; [|reflexivity]. lia.
Qed.

Lemma hasUpper_encodeCp o :
  0 <= o < 1114112 -> ~ 65 <= o <= 90 -> Txt.hasUpper (encodeCp o) = false.
Proof.
  intros Ho Hu. unfold encodeCp.
  destruct (o <? 128) eqn:H1; [|destruct (o <? 2048) eqn:H2;
                                 [|destruct (o <? 65536) eqn:H3]];
    cbn [Txt.hasUpper];
    rewrite ?isUpper_chr; try reflexivity;
    Z.div_mod_to_equations; lia.
Qed.

Lemma hasUpper_encode l :
  Forall plainUnit l -> Txt.hasUpper (encode l) = false.
Proof.
  intros Hl. induction Hl as [|[c|a] l Hu _ IH]; [reflexivity|..];
    cbn [encode encodeUnit]; rewrite hasUpper_app, IH, orb_false_r.
  - destruct Hu. apply hasUpper_encodeCp; assumption.
  - cbn [plainUnit] in Hu. cbn [Txt.hasUpper]. rewrite isUpper_byte.
    replace (byte a <=? 90) with false by (symmetry; apply Z.leb_gt; lia).
    rewrite andb_false_r. reflexivity.
Qed.

Lemma toLowerCase_no_upper s : Txt.hasUpper (Str.toLowerCase s) = false.
Proof.
  unfold Str.toLowerCase. apply hasUpper_encode, plain_lowerUnits, plain_decode.
Qed.

End Lowering.

Section AsciiCase.

Import Utf8.

Lemma lowerUnits_app f l1 l2 :
  exists out f', lowerUnits f (l1 ++ l2) = out ++ lowerUnits f' l2.
Proof.
  revert f. induction l1 as [|[c|a] l1 IH]; intros f.
  - exists [], f. reflexivity.
  - cbn [app lowerUnits].
    destruct (IH (if Ucd.caseIgnorable c then f else Ucd.casedLetter c))
      as (out & f' & ->).
    eexists (_ ++ out), f'. rewrite <- app_assoc. reflexivity.
  - cbn [app lowerUnits]. destruct (IH false) as (out & f' & ->).
    exists (Raw a :: out), f'. reflexivity.
Qed.

Lemma ascii_byte a : (nat_of_ascii a <? 128)%nat = true -> byte a < 128.
Proof.
  destruct a as [[] [] [] [] [] [] [] []]; vm_compute; intros H;
    (reflexivity || discriminate H).
Qed.

Lemma foldChar_lowerCp a :
  byte a < 128 ->
  encodeCp (Ucd.lowerCp (byte a)) = String (Txt.foldChar a) EmptyString.
Proof.
  destruct a as [[] [] [] [] [] [] [] []]; vm_compute; intros H;
    (reflexivity || discriminate H).
Qed.

Lemma lower_ascii_run u :
  Txt.isAscii u = true ->
  forall f x, exists f',
    encode (lowerUnits f (decode (u +:+ x)))
    = Txt.foldCase u +:+ encode (lowerUnits f' (decode x)).
Proof.
  induction u as [|a u IH]; intros Hu f x.
  - exists f. reflexivity.
  - cbn [Txt.isAscii] in Hu. apply andb_prop in Hu as [Ha Hu].
    pose proof (ascii_byte a Ha) as Hb. pose proof (byte_range a) as Hr.
    change (String a u +:+ x) with (String a (u +:+ x)).
    rewrite decode_step. unfold headCp at 1.
    replace (byte a <? 128) with true by (symmetry; apply Z.ltb_lt; lia).
    cbn [skip lowerUnits].
    replace (byte a =? 931) with false by (symmetry; apply Z.eqb_neq; lia).
    replace (byte a =? 304) with false by (symmetry; apply Z.eqb_neq; lia).
    cbn [app encode encodeUnit].
    destruct (IH Hu (if Ucd.caseIgnorable (byte a) then f
                     else Ucd.casedLetter (byte a)) x) as (f' & ->).
    exists f'. rewrite foldChar_lowerCp by exact Hb. reflexivity.
Qed.

(** A run of ASCII characters is lower-cased letter by letter, wherever
    it stands in a text. *)
Lemma toLowerCase_ascii_run pre u post :
  Txt.isAscii u = true ->
  exists pre' post',
    Str.toLowerCase (pre +:+ u +:+ post)
    = pre' +:+ Txt.foldCase u +:+ post'.
Proof.
  intros Hu. unfold Str.toLowerCase. destruct u as [|a u].
  - exists EmptyString. eexists. reflexivity.
  - assert (startsAfresh (String a u +:+ post)) as Hfresh.
    { cbn [Txt.isAscii] in Hu. apply andb_prop in Hu as [Ha _].
      pose proof (ascii_byte a Ha). pose proof (byte_range a).
      unfold startsAfresh.
      change (String a u +:+ post) with (String a (u +:+ post)).
      cbn [leadingConts]. unfold cont.
      replace (128 <=? byte a) with false by (symmetry; apply Z.leb_gt; lia).
      reflexivity. }
    rewrite decode_app by exact Hfresh.
    destruct (lowerUnits_app false (decode pre)
                (decode (String a u +:+ post))) as (out & f' & ->).
    rewrite encode_app.
    destruct (lower_ascii_run (String a u) Hu f' post) as (f'' & ->).
    eexists _, _. reflexivity.
Qed.

End AsciiCase.

(** ** Noise filter *)


Lemma toLowerCase_join l :
  Str.join " " (Str.toLowerCase <$> l) = Str.toLowerCase (Str.join " " l).
Proof.
  induction l as [|s l IH]; [reflexivity|].
  destruct l as [|s' l]; [reflexivity|].
  change (Str.join " " (Str.toLowerCase <$> s :: s' :: l))
    with (Str.toLowerCase s +:+ " " +:+ Str.join " " (Str.toLowerCase <$> s' :: l)).
  rewrite IH.
  change (Str.join " " (s :: s' :: l)) with (s +:+ " " +:+ Str.join " " (s' :: l)).
  rewrite toLowerCase_space. reflexivity.
Qed.

Lemma textIncludesAny_lower s keywords :
  textIncludesAny (Str.toLowerCase s) keywords = true
  <-> exists k, In k keywords /\ Str.includes (Str.toLowerCase s) k = true.
Proof.
  unfold textIncludesAny. rewrite toLowerCase_idem. apply existsb_exists.
Qed.

Lemma textIncludesAny_app s k1 k2 :
  textIncludesAny s (k1 ++ k2) = textIncludesAny s k1 || textIncludesAny s k2.
Proof. unfold textIncludesAny. apply existsb_app. Qed.

Lemma matchesKeywords_hit E name description topics :
  (let '(isCourse, isBoilerOrTemplate) :=
     matchesKeywords (COURSE_KEYWORDS_DEFAULT ++ EXTRA_COURSE_KEYWORDS E)
       (BOILERPLATE_KEYWORDS_DEFAULT ++ EXTRA_BOILERPLATE_KEYWORDS E)
       name description topics in
   isCourse || isBoilerOrTemplate) = true
  <-> keywordHit E name description topics.
Proof.
  unfold matchesKeywords, keywordHit.
  rewrite toLowerCase_join.
  set (cs := COURSE_KEYWORDS_DEFAULT ++ EXTRA_COURSE_KEYWORDS E).
  set (bs := BOILERPLATE_KEYWORDS_DEFAULT ++ EXTRA_BOILERPLATE_KEYWORDS E).
  rewrite !orb_true_iff, !textIncludesAny_lower.
  split.
  - intros [[[H|H]|H]|[[H|H]|H]]; destruct H as (k & Hk & Hi);
      exists k; eexists; (split; [apply in_or_app; eauto|]);
      (split; [|exact Hi]); cbn; eauto.
  - intros (k & text & Hk & Ht & Hi).
    apply in_app_or in Hk. cbn in Ht.
    destruct Ht as [<-|[<-|[<-|[]]]]; destruct Hk as [Hk|Hk]; eauto 10.
Qed.

(** C8.  The noise classifier is a case-insensitive substring test of the
    two keyword lists against the name, the description and the joined
    topics: a hit classifies the repository as noise without any request,
    and with the README check off the classifier is exactly that test and
    leaves the world as it was.  A repository named react-bootcamp-2023 is
    noise whatever its description and topics; one named acme-dashboard
    whose description and topics hold no keyword is not, under the default
    lists and with the README check off.  The case of the letters does not
    count: a keyword written with any of its ASCII letters in upper case,
    anywhere in one of the three texts, is a hit, and so is a keyword with
    letters beyond ASCII written in upper case, as [FORMAÇÃO] for
    [formação]. *)
Theorem noise_classification E fuel owner repo w :
  (forall name description topics,
     keywordHit E name description topics ->
     detectCourseOrBoilerplate E fuel owner repo name description topics w
       = (Ret true, w))
  /\ (forall name description topics,
       README_COURSE_CHECK E = false ->
       exists b,
         detectCourseOrBoilerplate E fuel owner repo name description topics w
           = (Ret b, w)
         /\ (b = true <-> keywordHit E name description topics))
  /\ (forall description topics,
       detectCourseOrBoilerplate E fuel owner repo "react-bootcamp-2023"
         description topics w = (Ret true, w))
  /\ (forall description topics,
       README_COURSE_CHECK E = false ->
       EXTRA_COURSE_KEYWORDS E = [] ->
       EXTRA_BOILERPLATE_KEYWORDS E = [] ->
       (forall k,
          In k (COURSE_KEYWORDS_DEFAULT ++ BOILERPLATE_KEYWORDS_DEFAULT) ->
          Str.includes (Str.toLowerCase (orEmpty description)) k = false
          /\ Str.includes (Str.toLowerCase (Str.join " " topics)) k = false) ->
       detectCourseOrBoilerplate E fuel owner repo "acme-dashboard"
         description topics w = (Ret false, w))
  /\ (forall name description topics text pre u post,
       In text [name; orEmpty description; Str.join " " topics] ->
       text = pre +:+ u +:+ post ->
       Txt.isAscii u = true ->
       In (Txt.foldCase u)
         ((COURSE_KEYWORDS_DEFAULT ++ EXTRA_COURSE_KEYWORDS E)
          ++ (BOILERPLATE_KEYWORDS_DEFAULT ++ EXTRA_BOILERPLATE_KEYWORDS E)) ->
       detectCourseOrBoilerplate E fuel owner repo name description topics w
         = (Ret true, w))
  /\ (forall name topics,
       detectCourseOrBoilerplate E fuel owner repo name
         (Some "FORMAÇÃO FRONT"%string) topics w = (Ret true, w)).
Proof.
  assert (forall name description topics,
            keywordHit E name description topics ->
            detectCourseOrBoilerplate E fuel owner repo name description
              topics w = (Ret true, w)) as Hhit.
  { intros name description topics H.
    apply matchesKeywords_hit in H. unfold detectCourseOrBoilerplate.
    destruct (matchesKeywords _ _ name description topics) as [c b].
    destruct c, b; try discriminate H; reflexivity. }
  assert (forall name description topics,
            README_COURSE_CHECK E = false ->
            exists b,
              detectCourseOrBoilerplate E fuel owner repo name description
                topics w = (Ret b, w)
              /\ (b = true <-> keywordHit E name description topics)) as Hoff.
  { intros name description topics Hoff.
    pose proof (matchesKeywords_hit E name description topics) as H.
    unfold detectCourseOrBoilerplate. rewrite Hoff.
    destruct (matchesKeywords _ _ name description topics) as [c b].
    exists (c || b). rewrite andb_false_r. split; [reflexivity|exact H]. }
  split; [exact Hhit|]. split; [exact Hoff|].
  split; [|split; [|split]].
  - intros description topics. apply Hhit.
    exists "bootcamp"%string, "react-bootcamp-2023"%string.
    split; [|split; [left; reflexivity|vm_compute; reflexivity]].
    apply in_or_app. left. apply in_or_app. left. cbn. tauto.
  - intros description topics Hr Hc Hb Hnone.
    destruct (Hoff "acme-dashboard"%string description topics Hr)
      as (b & -> & Hiff).
    destruct b; [|reflexivity]. exfalso.
    destruct (proj1 Hiff eq_refl) as (k & text & Hk & Ht & Hi).
    rewrite Hc, Hb, !app_nil_r in Hk.
    cbn [In] in Ht. destruct Ht as [<-|[<-|[<-|[]]]].
    + revert Hi. clear -Hk. cbn in Hk.
      repeat (destruct Hk as [<-|Hk]; [vm_compute; discriminate|]).
      destruct Hk.
    + destruct (Hnone k Hk) as [H _]. congruence.
    + destruct (Hnone k Hk) as [_ H]. congruence.
  - intros name description topics text pre u post Ht -> Hu Hk.
    apply Hhit. exists (Txt.foldCase u), (pre +:+ u +:+ post).
    split; [exact Hk|]. split; [exact Ht|].
    destruct (toLowerCase_ascii_run pre u post Hu) as (pre' & post' & ->).
    apply includes_split. eauto.
  - intros name topics. apply Hhit.
    exists "formação"%string, "FORMAÇÃO FRONT"%string.
    split; [|split; [right; left; reflexivity|vm_compute; reflexivity]].
    apply in_or_app. left. apply in_or_app. left. cbn. tauto.
Qed.

Lemma noise_classification_witness :
  detectCourseOrBoilerplate Sample.nowhere 1 "acme" "react-bootcamp-2023"
    "react-bootcamp-2023" (Some "Slides"%string) ["react"%string]
    (Sample.idle 0) = (Ret true, Sample.idle 0)
  /\ detectCourseOrBoilerplate Sample.nowhere 1 "acme" "acme-dashboard"
       "acme-dashboard" (Some "Sales Dashboard"%string) ["react"%string]
       (Sample.idle 0) = (Ret false, Sample.idle 0)
  /\ detectCourseOrBoilerplate Sample.nowhere 1 "acme" "shop"
       "shop" (Some "A Next.js Starter-KIT for shops"%string)
       ["react"%string] (Sample.idle 0) = (Ret true, Sample.idle 0).
Proof.
  pose proof (noise_classification Sample.nowhere 1 "acme" "acme-dashboard"
                (Sample.idle 0)) as (_ & _ & _ & H & _).
  pose proof (noise_classification Sample.nowhere 1 "acme"
                "react-bootcamp-2023" (Sample.idle 0)) as (_ & _ & H' & _).
  pose proof (noise_classification Sample.nowhere 1 "acme" "shop"
                (Sample.idle 0)) as (_ & _ & _ & _ & H'' & _).
  split; [apply H'|]. split.
  - apply H; try reflexivity.
    intros k Hk. cbn in Hk.
    repeat (destruct Hk as [<-|Hk]; [split; vm_compute; reflexivity|]).
    destruct Hk.
  - apply (H'' "shop"%string (Some "A Next.js Starter-KIT for shops"%string)
             ["react"%string] "A Next.js Starter-KIT for shops"%string
             "A Next.js "%string "Starter-KIT"%string " for shops"%string).
    + right. left. reflexivity.
    + reflexivity.
    + reflexivity.
    + vm_compute. tauto.
Defined.

(** ** Reasoning about computations *)

Section MonadFacts.

Context {S A B : Type}.

Lemma bind_ret_inv (m : M S A) (k : A -> M S B) s b s' :
  bind m k s = (Ret b, s') ->
  exists a s1, m s = (Ret a, s1) /\ k a s1 = (Ret b, s').
Proof.
  unfold bind. destruct (m s) as [[a|e|] s1]; intros H; try discriminate H.
  eauto.
Qed.


Lemma bind_hang_inv (m : M S A) (k : A -> M S B) s s' :
  bind m k s = (Hang, s') ->
  m s = (Hang, s')
  \/ exists a s1, m s = (Ret a, s1) /\ k a s1 = (Hang, s').
Proof.
  unfold bind. destruct (m s) as [[a|e0|] s1]; intros H; try discriminate H.
  - right. eauto.
  - left. injection H as ->. reflexivity.
Qed.

Lemma bind_ret_eq (m : M S A) (k : A -> M S B) s a s1 :
  m s = (Ret a, s1) -> bind m k s = k a s1.
Proof. unfold bind. intros ->. reflexivity. Qed.

Lemma catch_ret_inv (m : M S A) (h : Err -> M S A) s a s' :
  catch m h s = (Ret a, s') ->
  m s = (Ret a, s')
  \/ exists e s1, m s = (Throw e, s1) /\ h e s1 = (Ret a, s').
Proof.
  unfold catch. destruct (m s) as [[a0|e|] s1]; intros H; try discriminate H.
  - left. exact H.
  - right. eauto.
Qed.

Lemma catch_throw_inv (m : M S A) (h : Err -> M S A) s e s' :
  catch m h s = (Throw e, s') ->
  exists e0 s1, m s = (Throw e0, s1) /\ h e0 s1 = (Throw e, s').
Proof.
  unfold catch. destruct (m s) as [[a0|e0|] s1]; intros H; try discriminate H.
  eauto.
Qed.

Lemma catch_hang_inv (m : M S A) (h : Err -> M S A) s s' :
  catch m h s = (Hang, s') ->
  m s = (Hang, s')
  \/ exists e s1, m s = (Throw e, s1) /\ h e s1 = (Hang, s').
Proof.
  unfold catch. destruct (m s) as [[a0|e|] s1]; intros H; try discriminate H.
  - right. eauto.
  - left. exact H.
Qed.

End MonadFacts.


Ltac ret_step H :=
  let H1 := fresh "Hstep" in
  apply bind_ret_inv in H as (? & ? & H1 & H).

Tactic Notation "split_bind" hyp(H) "as" ident(a) ident(s) ident(H1) :=
  apply bind_ret_inv in H as (a & s & H1 & H).

(** ** Technology detector: what can be thrown *)

Section DetectorThrows.

Context (E : Env) (fuel : nat).

Lemma say_throw m w e w' : say m w = (Throw e, w') -> False.
Proof. discriminate. Qed.







End DetectorThrows.

(** ** Manifest inspection *)

Lemma lists_dependencies pkg key :
  lists pkg "dependencies" key -> hasDep pkg key = true.
Proof.
  intros (fields & v & Hs & Hk & Hv). unfold hasDep. rewrite Hs. cbn.
  rewrite Hk. cbn. rewrite Hv. reflexivity.
Qed.

Lemma lists_devDependencies pkg key :
  lists pkg "devDependencies" key -> hasDep pkg key = true.
Proof.
  intros (fields & v & Hs & Hk & Hv). unfold hasDep. rewrite Hs. cbn.
  rewrite Hk. cbn. rewrite Hv. apply orb_true_r.
Qed.

Lemma pkgHasAnyDep_in pkg names key :
  In key names -> hasDep pkg key = true -> pkgHasAnyDep pkg names = true.
Proof.
  intros Hin Hd. unfold pkgHasAnyDep. apply existsb_exists. eauto.
Qed.

Lemma example_manifest_signals pkg :
  lists pkg "dependencies" "react" ->
  lists pkg "devDependencies" "jest" ->
  lists pkg "devDependencies" "@testing-library/react" ->
  let fe := detectFrontendFromPkg pkg in
  pkgHasAnyDep pkg ["react"; "react-dom"]%string = true
  /\ fe_hasReactDeps fe = true /\ fe_hasJest fe = true
  /\ fe_hasFrontendTestLibs fe = true /\ fe_hasFrontendTests fe = true.
Proof.
  intros Hr%lists_dependencies Hj%lists_devDependencies
         Ht%lists_devDependencies.
  assert (pkgHasAnyDep pkg ["react"; "react-dom"]%string = true) as H1.
  { eapply pkgHasAnyDep_in; [|exact Hr]. cbn; tauto. }
  assert (pkgHasAnyDep pkg ["jest"; "@jest/globals"; "ts-jest"; "babel-jest"]%string
          = true) as H2.
  { eapply pkgHasAnyDep_in; [|exact Hj]. cbn; tauto. }
  assert (pkgHasAnyDep pkg
            ["@testing-library/react"; "@testing-library/jest-dom";
             "@testing-library/user-event"]%string = true) as H3.
  { eapply pkgHasAnyDep_in; [|exact Ht]. cbn; tauto. }
  cbn zeta. unfold detectFrontendFromPkg.
  cbn [fe_hasReactDeps fe_hasJest fe_hasFrontendTestLibs fe_hasFrontendTests].
  rewrite H1, H2, H3. cbn. tauto.
Qed.

(** ** Technology detector: what it returns *)

Section DetectorReturns.

Context (E : Env) (fuel : nat).

Lemma anyTsConfig_true owner repo w w' :
  anyTsConfig E fuel owner repo w = (Ret true, w') ->
  foundAtRoot E fuel owner repo "tsconfig.json"
  \/ foundAtRoot E fuel owner repo "tsconfig.base.json".
Proof.
  unfold anyTsConfig. intros H.
  ret_step H. ret_step H. injection H as H _.
  destruct (nonEmpty x) eqn:Hx.
  - left. red. eauto.
  - right. cbn in H. red. eauto.
Qed.

Lemma anyJestConfig_true owner repo candidates w w' :
  anyJestConfig E fuel owner repo candidates w = (Ret true, w') ->
  exists file, In file candidates /\ foundAtRoot E fuel owner repo file.
Proof.
  revert w. induction candidates as [|file rest IH]; intros w H.
  - discriminate H.
  - cbn [anyJestConfig] in H. ret_step H.
    destruct (nonEmpty x) eqn:Hx.
    + exists file. split; [left; reflexivity|red; eauto].
    + destruct (IH _ H) as (f & Hin & Hf). exists f. split; [right|]; auto.
Qed.

(** The layers of [detectTech] before the source scan, read off a run that
    returns. *)
Lemma rest_detectLayers_ret owner repo w t w' :
  Rest.detectLayers E fuel owner repo w = (Ret t, w') ->
  exists langs w1 pkgText w2,
    catch (getRepoLanguages E fuel owner repo) (fun _ => ret (BLanguages ∅)) w
      = (Ret langs, w1)
    /\ getRepoContent E fuel owner repo "package.json" w1 = (Ret pkgText, w2)
    /\ let pkgJson := readManifest E pkgText in
       let fe := detectFrontendFromPkg <$> pkgJson in
       Rest.hasReactDeps t
         = from_option (fun j => pkgHasAnyDep j ["react"; "react-dom"]%string)
             false pkgJson
       /\ Rest.hasReact t
          = Rest.hasReactDeps t || topicsIncludeReact (Rest.topics t)
       /\ Rest.hasFrontendTestLibs t
          = from_option fe_hasFrontendTestLibs false fe
       /\ (from_option fe_hasJest false fe = true -> Rest.hasJest t = true)
       /\ (Rest.hasJest t = true ->
           from_option fe_hasJest false fe = true
           \/ exists file, In file jestConfigCandidates
                           /\ foundAtRoot E fuel owner repo file)
       /\ (declaresTypeScript langs = true -> Rest.hasTS t = true)
       /\ (from_option (fun j => pkgHasAnyDep j ["typescript"%string]) false
             pkgJson = true -> Rest.hasTS t = true)
       /\ (Rest.hasTS t = true ->
           declaresTypeScript langs = true
           \/ from_option (fun j => pkgHasAnyDep j ["typescript"%string]) false
                pkgJson = true
           \/ foundAtRoot E fuel owner repo "tsconfig.json"
           \/ foundAtRoot E fuel owner repo "tsconfig.base.json").
Proof.
  unfold Rest.detectLayers. intros H.
  split_bind H as langs w1 Hlangs.
  split_bind H as pkgText w2 Hpkg.
  exists langs, w1, pkgText, w2. split; [assumption|]. split; [assumption|].
  split_bind H as u w3 Hsay. split_bind H as topics w4 Htopics.
  split_bind H as hasTS w5 Hstep3.
  split_bind H as hasJest w6 Hstep4.
  injection H as <- _. cbn [Rest.hasReactDeps Rest.hasReact Rest.topics
    Rest.hasFrontendTestLibs Rest.hasJest Rest.hasTS].
  clear Hsay.
  set (pkgJson := readManifest E pkgText) in *.
  set (hasJest0 := from_option fe_hasJest false (detectFrontendFromPkg <$> pkgJson)) in *.
  assert (from_option (fun j => declaresTypeScript langs
                                || pkgHasAnyDep j ["typescript"%string])
            (declaresTypeScript langs) pkgJson
          = declaresTypeScript langs
            || from_option (fun j => pkgHasAnyDep j ["typescript"%string]) false
                 pkgJson) as Hts.
  { destruct pkgJson; cbn; [reflexivity|]. rewrite orb_false_r. reflexivity. }
  rewrite Hts in Hstep3.
  cbn zeta. repeat split.
  - intros H0. rewrite H0 in Hstep4. cbv [negb ret] in Hstep4. congruence.
  - intros ->. destruct hasJest0; [left; reflexivity|right].
    cbn in Hstep4. eapply anyJestConfig_true, Hstep4.
  - intros H0. rewrite H0 in Hstep3. cbv [orb negb ret] in Hstep3.
    congruence.
  - intros H0. rewrite H0, orb_true_r in Hstep3. cbv [negb ret] in Hstep3.
    congruence.
  - intros ->.
    destruct (declaresTypeScript langs); [left; reflexivity|right].
    destruct (from_option _ false pkgJson); [left; reflexivity|right].
    cbn in Hstep3. eapply anyTsConfig_true, Hstep3.
Qed.

Lemma rest_scanLayer_ret owner repo t w t' w' :
  Rest.scanLayer E fuel owner repo t w = (Ret t', w') ->
  Rest.hasTS t' = Rest.hasTS t /\ Rest.hasReact t' = Rest.hasReact t
  /\ Rest.hasJest t' = Rest.hasJest t
  /\ Rest.hasReactDeps t' = Rest.hasReactDeps t
  /\ Rest.topics t' = Rest.topics t
  /\ (Rest.hasFrontendTestLibs t = true -> Rest.hasFrontendTestLibs t' = true)
  /\ Rest.hasFrontendTests t'
     = Rest.hasReact t' && Rest.hasJest t' && Rest.hasFrontendTestLibs t'.
Proof.
  unfold Rest.scanLayer. intros H. ret_step H. injection H as <- _.
  cbn. repeat split. intros ->. reflexivity.
Qed.

End DetectorReturns.

(** C2 (as amended).  When the root manifest parses to an object whose
    [dependencies] map [react], and whose [devDependencies] map [jest] and
    [@testing-library/react], to truthy values, every result of [detectTech]
    has the framework, test-runner and frontend-test-library signals set.
    The language signal is set when the language breakdown reports
    TypeScript or the manifest lists [typescript]; failing both it can only
    come from a [tsconfig] file at the root. *)
Theorem manifest_detection E fuel owner repo pkg w t w' :
  surely (getRepoContent E fuel owner repo "package.json")
    (fun text => readManifest E text = Some pkg) ->
  lists pkg "dependencies" "react" ->
  lists pkg "devDependencies" "jest" ->
  lists pkg "devDependencies" "@testing-library/react" ->
  Rest.detectTech E fuel owner repo w = (Ret t, w') ->
  Rest.hasReact t = true /\ Rest.hasJest t = true
  /\ Rest.hasFrontendTestLibs t = true /\ Rest.hasFrontendTests t = true
  /\ (surely (getRepoLanguages E fuel owner repo)
        (fun langs => declaresTypeScript langs = true) ->
      Rest.hasTS t = true)
  /\ (pkgHasAnyDep pkg ["typescript"%string] = true -> Rest.hasTS t = true)
  /\ (always (getRepoLanguages E fuel owner repo)
        (fun langs => declaresTypeScript langs = false) ->
      pkgHasAnyDep pkg ["typescript"%string] = false ->
      Rest.hasTS t = true ->
      foundAtRoot E fuel owner repo "tsconfig.json"
      \/ foundAtRoot E fuel owner repo "tsconfig.base.json").
Proof.
  intros Hm Hreact Hjest Hrtl H.
  unfold Rest.detectTech in H. split_bind H as t0 w0 Hlayers.
  apply rest_detectLayers_ret in Hlayers
    as (langs & w1 & pkgText & w2 & Hlangs & Hpkg & Hfacts).
  destruct (Hm w1) as (text & w2' & Hpkg' & Hparse).
  rewrite Hpkg in Hpkg'. injection Hpkg' as <- <-.
  rewrite Hparse in Hfacts.
  cbn [from_option fmap option_fmap option_map] in Hfacts.
  destruct Hfacts as (Hrd & Hr & Hftl & Hj & _ & Hts1 & Hts2 & Hts3).
  destruct (example_manifest_signals pkg Hreact Hjest Hrtl)
    as (H1 & _ & H3 & H4 & _).
  apply rest_scanLayer_ret in H as (HTS & HR & HJ & _ & _ & HFTL & HFT).
  rewrite H1 in Hrd. rewrite Hrd in Hr. cbn in Hr.
  rewrite H4 in Hftl. specialize (HFTL Hftl). specialize (Hj H3).
  rewrite HFT, HR, HJ, HTS, Hr, Hj, HFTL.
  repeat split.
  - intros Hl. apply Hts1.
    destruct (Hl w) as (l & wl & Hget & Hd).
    unfold catch in Hlangs. rewrite Hget in Hlangs. congruence.
  - exact Hts2.
  - intros Hl Hdep Ht.
    assert (declaresTypeScript langs = false) as Hnot.
    { apply catch_ret_inv in Hlangs as [Hget|(e & w3 & _ & Hret)].
      - eapply Hl, Hget.
      - injection Hret as <- _. reflexivity. }
    destruct (Hts3 Ht) as [Hd|[Hd|Hd]]; [congruence|congruence|exact Hd].
Qed.

Lemma manifest_detection_witness :
  lists Sample.examplePkg "dependencies" "react"
  /\ lists Sample.examplePkg "devDependencies" "jest"
  /\ lists Sample.examplePkg "devDependencies" "@testing-library/react"
  /\ exists t w',
       Rest.detectTech (Sample.manifestOnly Sample.examplePkg) 1 "o" "r"
         (Sample.idle 0) = (Ret t, w')
       /\ Rest.hasReact t = true /\ Rest.hasJest t = true
       /\ Rest.hasFrontendTestLibs t = true
       /\ Rest.hasFrontendTests t = true.
Proof.
  assert (lists Sample.examplePkg "dependencies" "react") as Hreact
    by (eexists _, _; vm_compute; repeat split).
  assert (lists Sample.examplePkg "devDependencies" "jest") as Hjest
    by (eexists _, _; vm_compute; repeat split).
  assert (lists Sample.examplePkg "devDependencies" "@testing-library/react")
    as Hrtl by (eexists _, _; vm_compute; repeat split).
  repeat (split; [assumption|]).
  edestruct (manifest_detection (Sample.manifestOnly Sample.examplePkg) 1
               "o" "r" Sample.examplePkg (Sample.idle 0))
    as (H1 & H2 & H3 & H4 & _); try eassumption.
  - intros w. eexists _, _. vm_compute. split; reflexivity.
  - vm_compute. reflexivity.
  - eexists _, _. split; [vm_compute; reflexivity|].
    repeat split; assumption.
Defined.

(** C2 (as stated) fails.  The manifest below has [react] among its
    dependencies and [jest] and [@testing-library/react] among its
    development dependencies, yet the framework signal is false, because
    the version of [react] is the empty string; and the language signal is
    true although the language breakdown reports no TypeScript, because the
    manifest lists [typescript]. *)
Lemma manifest_detection_counterexample :
  listsKey Sample.emptyVersionPkg "dependencies" "react"
  /\ listsKey Sample.emptyVersionPkg "devDependencies" "jest"
  /\ listsKey Sample.emptyVersionPkg "devDependencies" "@testing-library/react"
  /\ fst (getRepoContent (Sample.manifestOnly Sample.emptyVersionPkg) 1
            "o" "r" "package.json" (Sample.idle 0)) = Ret (Some "e30K"%string)
  /\ readManifest (Sample.manifestOnly Sample.emptyVersionPkg)
       (Some "e30K"%string) = Some Sample.emptyVersionPkg
  /\ fst (getRepoLanguages (Sample.manifestOnly Sample.emptyVersionPkg) 1
            "o" "r" (Sample.idle 0))
     = Ret (BLanguages {[ "JavaScript"%string := 4096 ]})
  /\ declaresTypeScript (BLanguages {[ "JavaScript"%string := 4096 ]}) = false
  /\ fst (Rest.detectTech (Sample.manifestOnly Sample.emptyVersionPkg) 1
            "o" "r" (Sample.idle 0))
     = Ret {| Rest.hasTS := true; Rest.hasReact := false;
              Rest.hasJest := true; Rest.hasFrontendTests := false;
              Rest.feLibs := ["testing-library"; "jest"]%string;
              Rest.topics := []; Rest.hasReactDeps := false;
              Rest.hasFrontendTestLibs := true |}.
Proof.
  repeat split; try (eexists _, _; vm_compute; split; reflexivity);
    vm_compute; reflexivity.
Qed.

(** ** Histories only grow *)



Section Mono.

Context {A B : Type}.






End Mono.







Section MonoClient.

Context (E : Env) (fuel : nat).










End MonoClient.

(** ** Substrings *)

Lemma includes_trans s mid sub :
  Str.includes s mid = true -> Str.includes mid sub = true ->
  Str.includes s sub = true.
Proof.
  intros (p1 & q1 & ->)%includes_split (p2 & q2 & ->)%includes_split.
  apply includes_split. exists (p1 +:+ p2), (q2 +:+ q1).
  rewrite !app_assoc_string. reflexivity.
Qed.


(** ** Runs that end *)

Section Halting.

Context {A B : Type}.

Lemma halts_ret (a : A) : halts (ret a).
Proof. intros w. discriminate. Qed.

Lemma halts_throw e : halts (throw e : M World A).
Proof. intros w. discriminate. Qed.

Lemma halts_bind_post (P : A -> Prop) (m : M World A) (k : A -> M World B) :
  (forall w a w', m w = (Ret a, w') -> P a) ->
  halts m -> (forall a, P a -> halts (k a)) -> halts (bind m k).
Proof.
  intros HP Hm Hk w. unfold bind. specialize (Hm w).
  destruct (m w) as [[a|e|] w1] eqn:Hmw; cbn in *.
  - apply Hk. eapply HP, Hmw.
  - discriminate.
  - congruence.
Qed.

Lemma halts_bind (m : M World A) (k : A -> M World B) :
  halts m -> (forall a, halts (k a)) -> halts (bind m k).
Proof.
  intros Hm Hk. apply (halts_bind_post (fun _ => True)); auto.
Qed.

Lemma returns_absorbing (m : M World A) (x : A) :
  halts m -> returns (catch m (fun _ => ret x)).
Proof.
  intros Hm w. unfold catch. specialize (Hm w).
  destruct (m w) as [[a|e|] w1]; cbn in *; eauto. congruence.
Qed.

Lemma returns_bind (m : M World A) (k : A -> M World B) :
  returns m -> (forall a, returns (k a)) -> returns (bind m k).
Proof.
  intros Hm Hk w. unfold bind. destruct (Hm w) as (a & w1 & ->). apply Hk.
Qed.

Lemma returns_ret (a : A) : returns (ret a).
Proof. intros w. eexists _, _. reflexivity. Qed.

Lemma returns_halts (m : M World A) : returns m -> halts m.
Proof. intros Hm w. destruct (Hm w) as (a & w1 & ->). discriminate. Qed.

End Halting.

Lemma halts_say m : halts (say m).
Proof. intros w. discriminate. Qed.

(** ** The source scan on a repository that is served *)

Section ScanFacts.

Context (E : Env) (fuel : nat) (owner repo : string).

Hypothesis Hquota : neverExhausted E.
Hypothesis Hfuel : (0 < fuel)%nat.

Lemma ghGET_settles url w :
  ghGET E fuel url w = (Throw (FetchFailed url), settled E url w)
  \/ exists res,
       reply (net E url (now w)) = Some res
       /\ ghGET E fuel url w = (conclude url res, settled E url w).
Proof.
  unfold ghGET. destruct fuel as [|n]; [lia|].
  destruct (reply (net E url (now w))) as [res|] eqn:Hr.
  - right. exists res. split; [reflexivity|].
    apply ghGET_rounds_conclude; [exact Hr|]. eapply Hquota, Hr.
  - left. apply ghGET_rounds_failed, Hr.
Qed.

Lemma halts_ghGET url : halts (ghGET E fuel url).
Proof.
  intros w. destruct (ghGET_settles url w) as [->|(res & _ & ->)];
    [discriminate|].
  unfold conclude. cbn.
  destruct (status res =? 404); [discriminate|].
  destruct (negb (ok res)); discriminate.
Qed.

Lemma ghGET_body url w g w' body :
  ghGET E fuel url w = (Ret g, w') ->
  g_data g = Some body ->
  exists res, reply (net E url (now w)) = Some res /\ json res = Some body.
Proof.
  intros Hg Hd. destruct (ghGET_settles url w) as [H|(res & Hr & H)];
    rewrite H in Hg; [discriminate Hg|].
  exists res. split; [exact Hr|].
  unfold conclude in Hg.
  destruct (status res =? 404).
  { injection Hg as <- _. discriminate Hd. }
  destruct (negb (ok res)); [discriminate Hg|].
  injection Hg as <- _. exact Hd.
Qed.


Lemma halts_getRepoContent pathName :
  halts (getRepoContent E fuel owner repo pathName).
Proof.
  unfold getRepoContent. apply halts_bind; [apply halts_ghGET|].
  intros r. destruct (unusable r); [apply halts_ret|].
  destruct (g_data r) as [[]|]; try apply halts_ret.
  destruct (_ && _); apply halts_ret.
Qed.


Hypothesis Hpaths : pathsDeepen E owner repo.

Lemma scanItem_returns recur basePath item :
  (forall data path,
     (Str.splitLength "/" basePath < 3)%nat ->
     deepens path data ->
     (Str.splitLength "/" basePath < Str.splitLength "/" path)%nat ->
     halts (recur data path)) ->
  (Str.splitLength "/" basePath < Str.splitLength "/" (e_path item))%nat ->
  returns (scanItem E fuel recur owner repo basePath item).
Proof.
  intros Hrec Hdeep. unfold scanItem.
  destruct (String.eqb (e_type item) "file").
  { destruct (isTestFileName (e_name item)); [|apply returns_ret].
    apply returns_absorbing, halts_bind; [apply halts_getRepoContent|].
    intros content. destruct (nonEmpty content); [|apply halts_ret].
    destruct (_ || _); [|apply halts_ret].
    apply halts_bind; [apply halts_say|]. intros _. apply halts_ret. }
  destruct (_ && _); [|apply returns_ret].
  destruct (Str.splitLength "/" basePath <? 3)%nat eqn:Hd;
    [|apply returns_ret].
  apply Nat.ltb_lt in Hd.
  apply returns_absorbing.
  apply (halts_bind_post
           (fun r => forall data, g_data r = Some (BDir data) ->
                                  deepens (e_path item) data));
    [|apply halts_ghGET|].
  - intros w r w' Hg data Hdata.
    destruct (ghGET_body _ _ _ _ _ Hg Hdata) as (res & Hr & Hj).
    eapply Hpaths; eassumption.
  - intros r Hr. destruct (g_status r =? 200); [|apply halts_ret].
    destruct (g_data r) as [[]|]; try apply halts_ret.
    apply Hrec; auto.
Qed.

Lemma scanItems_returns recur basePath contents :
  (forall data path,
     (Str.splitLength "/" basePath < 3)%nat ->
     deepens path data ->
     (Str.splitLength "/" basePath < Str.splitLength "/" path)%nat ->
     halts (recur data path)) ->
  deepens basePath contents ->
  returns (scanItems E fuel recur owner repo basePath contents).
Proof.
  intros Hrec. induction contents as [|item rest IH]; intros Hdeep;
    cbn [scanItems]; [apply returns_ret|].
  apply returns_bind.
  - apply scanItem_returns; [exact Hrec|]. apply Hdeep. left. reflexivity.
  - intros [|]; [apply returns_ret|]. apply IH.
    intros e He. apply Hdeep. right. exact He.
Qed.

Lemma levels_returns n basePath contents :
  (3 - Str.splitLength "/" basePath < n)%nat ->
  deepens basePath contents ->
  returns (searchDirectory_levels E fuel n owner repo contents basePath).
Proof.
  revert basePath contents.
  induction n as [|n IH]; intros basePath contents Hn Hdeep; [lia|].
  cbn [searchDirectory_levels]. apply scanItems_returns; [|exact Hdeep].
  intros data path Hd Hdata Hlt. apply returns_halts, IH; [lia|exact Hdata].
Qed.




End ScanFacts.

Section ScanResult.

Context (E : Env) (fuel : nat) (owner repo : string).

Hypothesis Hquota : neverExhausted E.
Hypothesis Hpaths : pathsDeepen E owner repo.
Hypothesis Hfuel : (3 <= fuel)%nat.


Lemma patternTurn_returns found pattern :
  returns
    (catch
       (r <- ghGET E fuel (ApiContents owner repo pattern) ;;
        match g_status r =? 200, g_data r with
        | true, Some (BDir data) =>
            searchDirectoryForReactTests E fuel owner repo data pattern
        | _, _ => ret found
        end)
       (fun _ => ret found)).
Proof.
  apply returns_absorbing.
  apply (halts_bind_post
           (fun r => forall data, g_data r = Some (BDir data) ->
                                  deepens pattern data));
    [|apply halts_ghGET; [exact Hquota|lia]|].
  - intros w r w' Hg data Hdata.
    destruct (ghGET_body E fuel Hquota ltac:(lia) _ _ _ _ _ Hg Hdata)
      as (res & Hr & Hj).
    eapply Hpaths; eassumption.
  - intros r Hr. destruct (g_status r =? 200); [|apply halts_ret].
    destruct (g_data r) as [[]|]; try apply halts_ret.
    apply returns_halts, levels_returns; auto; try lia.
    unfold Str.splitLength. lia.
Qed.



End ScanResult.

Section ScanGuard.

Context (E : Env) (fuel : nat) (owner repo : string).




End ScanGuard.

(** ** The sample repositories *)

Lemma find_In path files b :
  Sample.find path files = Some b -> In (path, b) files.
Proof.
  induction files as [|[p b'] files IH]; cbn; [discriminate|].
  destruct (String.eqb path p) eqn:Heq.
  - apply String.eqb_eq in Heq as ->. intros [= ->]. left. reflexivity.
  - intros H. right. apply IH, H.
Qed.


Lemma tableNet_pathsDeepen langs files parse owner repo :
  (forall p entries, In (p, BDir entries) files -> deepens p entries) ->
  pathsDeepen (Sample.around (Sample.tableNet langs files) parse) owner repo.
Proof.
  intros Hall path t res entries H Hj. cbn in H.
  destruct (Sample.find path files) as [b|] eqn:Hf.
  - injection H as <-. cbn in Hj. injection Hj as ->.
    apply Hall. apply find_In, Hf.
  - injection H as <-. discriminate Hj.
Qed.

Lemma scanned_pathsDeepen owner repo :
  pathsDeepen Sample.scanned owner repo.
Proof.
  apply tableNet_pathsDeepen. intros p entries Hin. cbn in Hin.
  destruct Hin as [H|[H|[H|[H|[]]]]]; try discriminate H;
    injection H as <- <-; intros e He; cbn in He;
    repeat (destruct He as [<-|He]; [vm_compute; lia|]); destruct He.
Qed.




(** ** Runs of [main]: keeping an invariant *)

Section Keeping.

Context {R A B : Type}.

Implicit Types P Q : Run R -> Prop.

Lemma lift_sameLedger (m : M World A) (st : Run R) r st' :
  lift m st = (r, st') -> sameLedger st st'.
Proof.
  unfold lift. destruct (m (world st)) as [r0 w']. intros [= _ <-].
  repeat split.
Qed.

Lemma lift_ret_inv (m : M World A) (st : Run R) a st' :
  lift m st = (Ret a, st') -> exists w', m (world st) = (Ret a, w').
Proof.
  unfold lift. destruct (m (world st)) as [r0 w']. intros [= -> _]. eauto.
Qed.

Lemma keeps2_ret P Q (a : A) :
  (forall st, P st -> Q st) -> keeps2 P Q (ret a).
Proof. intros HPQ st r st' HP [= _ <-]. auto. Qed.

Lemma keeps2_bind P Q T (m : M (Run R) A) (k : A -> M (Run R) B) :
  keeps2 P Q m -> (forall st, Q st -> T st) ->
  (forall a, keeps2 Q T (k a)) -> keeps2 P T (bind m k).
Proof.
  intros Hm HQT Hk st r st' HP H. unfold bind in H.
  destruct (m st) as [[a|e|] st1] eqn:Hmst.
  - eapply Hk; [eapply Hm; eassumption|exact H].
  - injection H as _ <-. eapply HQT, Hm; eassumption.
  - injection H as _ <-. eapply HQT, Hm; eassumption.
Qed.

Lemma keeps2_bind_lift P Q (V : A -> Prop) (m : M World A)
    (k : A -> M (Run R) B) :
  (forall st st', sameLedger st st' -> P st -> P st') ->
  (forall st, P st -> Q st) ->
  (forall w a w', m w = (Ret a, w') -> V a) ->
  (forall a, V a -> keeps2 P Q (k a)) ->
  keeps2 P Q (bind (lift m) k).
Proof.
  intros HP HPQ HV Hk st r st' Hst H. unfold bind in H.
  destruct (lift m st) as [[a|e|] st1] eqn:Hl;
    pose proof (lift_sameLedger _ _ _ _ Hl) as Hs.
  - apply lift_ret_inv in Hl as [w' Hm].
    eapply Hk; [eapply HV, Hm|eapply HP; eassumption|exact H].
  - injection H as _ <-. eapply HPQ, HP; eassumption.
  - injection H as _ <-. eapply HPQ, HP; eassumption.
Qed.

End Keeping.

Lemma keeps2_catch {R A} (P Q : Run R -> Prop) (m : M (Run R) A)
    (h : Err -> M (Run R) A) :
  keeps2 P Q m -> (forall e, keeps2 Q Q (h e)) -> keeps2 P Q (catch m h).
Proof.
  intros Hm Hh st r st' HP H. unfold catch in H.
  destruct (m st) as [[a|e|] st1] eqn:Hmst.
  - injection H as _ <-. eapply Hm; eassumption.
  - eapply Hh; [eapply Hm; eassumption|exact H].
  - injection H as _ <-. eapply Hm; eassumption.
Qed.

Lemma keeps2_lift {R A} (P : Run R -> Prop) (m : M World A) :
  (forall st st', sameLedger st st' -> P st -> P st') ->
  keeps2 P P (lift m).
Proof.
  intros HP st r st' Hst H. eapply HP; [|exact Hst].
  eapply lift_sameLedger, H.
Qed.

Section InvFacts.

Context (E : Env).

Lemma Inv_sameLedger st st' : sameLedger st st' -> Inv E st -> Inv E st'.
Proof.
  intros (Hp & _ & Hr & Hc & Ha & Hg) [].
  constructor; rewrite ?Hp, ?Hr, ?Hc, ?Ha, ?Hg; assumption.
Qed.

Lemma InvAt_sameLedger l st st' :
  sameLedger st st' -> InvAt E l st -> InvAt E l st'.
Proof.
  intros Hs [HI Hl]. split; [eapply Inv_sameLedger; eassumption|].
  destruct Hs as (_ & _ & _ & _ & _ & ->). exact Hl.
Qed.

Lemma Analyzing_sameLedger x l st st' :
  sameLedger st st' -> Analyzing E x l st -> Analyzing E x l st'.
Proof.
  intros Hs (HI & H1 & H2 & H3).
  pose proof (InvAt_sameLedger _ _ _ Hs HI) as HI'.
  destruct Hs as (Hp & _ & Hr & Hc & Ha & Hg).
  split; [exact HI'|]. rewrite Hp, Hc, Ha. tauto.
Qed.

Lemma Inv_start w : Inv E (start w).
Proof.
  constructor; cbn; try (intros; contradiction); try constructor.
  rewrite size_empty. split; [lia|reflexivity].
Qed.

End InvFacts.

(** ** The driver of the REST revision *)

Section DriverFacts.

Context (E : Env) (fuel : nat).

Import Rest RestMain.

Lemma rest_detectTech_ret owner repo w t w' :
  detectTech E fuel owner repo w = (Ret t, w') ->
  hasFrontendTests t = hasReact t && hasJest t && hasFrontendTestLibs t.
Proof.
  unfold detectTech. intros H. split_bind H as t0 w0 Hl.
  apply rest_scanLayer_ret in H. tauto.
Qed.

Lemma keepOrSkip_keeps it tech flag l :
  hasFrontendTests tech
    = hasReact tech && hasJest tech && hasFrontendTestLibs tech ->
  keeps2 (Analyzing E (full_name it) l) (InvAt E l)
    (keepOrSkip E it tech flag).
Proof.
  intros HV st r st' ([HI Hl] & Hp & Ha & Hn) H. unfold keepOrSkip in H.
  destruct (EXCLUDE_COURSE_BOILERPLATE E && flag).
  { injection H as _ <-. split; [|exact Hl]. destruct HI. constructor; assumption. }
  destruct (negb (hasTS tech && hasReact tech)) eqn:Htr.
  { injection H as _ <-. split; [|exact Hl]. destruct HI. constructor; assumption. }
  destruct (negb (hasFrontendTests tech)) eqn:Hft.
  { injection H as _ <-. split; [|exact Hl]. destruct HI. constructor; assumption. }
  apply negb_false_iff in Htr, Hft. rewrite HV in Hft.
  apply andb_prop in Htr as [Hts Hr].
  apply andb_prop in Hft as [[_ Hj]%andb_prop Hf].
  assert (InvAt E l
            {| processed := processed st;
               totalQualified := totalQualified st + 1;
               reachedLimit := reachedLimit st;
               csv := {| r_nameWithOwner := full_name it;
                         r_stars := stargazers_count it;
                         r_hasTS := hasTS tech; r_hasReact := hasReact tech;
                         r_hasJest := hasJest tech; r_feLibs := feLibs tech;
                         r_hasReactDeps := hasReactDeps tech;
                         r_hasFrontendTestLibs := hasFrontendTestLibs tech |}
                      :: csv st;
               analyzed := analyzed st; pages := pages st;
               world := world st |}) as Hnew.
  { split; [|exact Hl]. destruct HI. constructor; cbn; try assumption.
    - apply NoDup_cons_2; [rewrite list_elem_of_In; exact Hn|assumption].
    - intros row [<-|Hrow]; [exact Hp|auto].
    - intros row [<-|Hrow]; [cbn; tauto|auto].
    - intros row [<-|Hrow]; [exact Ha|auto]. }
  revert H. cbn.
  destruct (totalQualified st + 1 >=? MAX_QUALIFIED E);
    intros [= _ <-]; (split; [|exact Hl]); destruct Hnew as [[] _];
    constructor; cbn in *; try assumption.
  intros Hm. destruct (inv_cap0 Hm) as [?|(? & ? & ?)]; [left|right]; tauto.
Qed.

Lemma forItem_keeps it l :
  keeps2 (InvAt E l) (InvAt E l) (forItem E fuel it).
Proof.
  intros st r st' [HI Hl] H. unfold forItem in H.
  unfold bind at 1 in H. unfold limitOrStop, stopOrLimit in H.
  destruct (reachedLimit st || stopRequestedAt E (now (world st))) eqn:Hstop.
  { injection H as _ <-. split; assumption. }
  apply orb_false_elim in Hstop as [Hlim _].
  unfold bind at 1, get at 1 in H.
  destruct (bool_decide (full_name it ∈ processed st)) eqn:Hseen.
  { injection H as _ <-. split; assumption. }
  apply bool_decide_eq_false in Hseen.
  unfold bind at 1, processedAdd at 1 in H.
  unfold bind at 1, get at 1 in H. cbn [processed] in H.
  assert (size ({[full_name it]} ∪ processed st) = S (size (processed st)))
    as Hsize.
  { rewrite size_union, size_singleton; [reflexivity|].
    intros x Hx%elem_of_singleton Hx'. subst x. exact (Hseen Hx'). }
  rewrite Hsize in H.
  destruct ((0 <? MAX_ANALYZED E)
            && (Z.of_nat (S (size (processed st))) >=? MAX_ANALYZED E))
    eqn:Hcap.
  - injection H as _ <-. split; [|exact Hl].
    apply andb_prop in Hcap as [Hpos Hge]. apply Z.geb_le in Hge.
    destruct HI. constructor; cbn; try assumption.
    + intros row Hrow. apply elem_of_union. right. auto.
    + intros x Hx. apply elem_of_union. right. auto.
    + intros Hm. right. rewrite Hsize.
      destruct (inv_cap0 Hm) as [[Hlt Hlen]|[Hrl _]]; [|congruence].
      repeat split; lia.
  - unfold bind at 1, lift at 1, say at 1 in H. cbn [world] in H.
    unfold bind at 1, noteAnalyzed at 1 in H.
    cbn [processed totalQualified reachedLimit csv analyzed pages world] in H.
    refine (keeps2_catch (Analyzing E (full_name it) l) (InvAt E l)
              _ _ _ _ _ _ _ _ H).
    + apply (keeps2_bind_lift _ _
               (fun t => hasFrontendTests t
                         = hasReact t && hasJest t && hasFrontendTestLibs t)).
      * intros s s'. apply Analyzing_sameLedger.
      * intros s Hs. apply Hs.
      * intros w t w'. apply rest_detectTech_ret.
      * intros tech HV.
        apply (keeps2_bind_lift _ _ (fun _ => True)); auto.
        -- intros s s'. apply Analyzing_sameLedger.
        -- intros s Hs. apply Hs.
        -- intros flag _. apply keepOrSkip_keeps, HV.
    + intros e. eapply keeps2_bind.
      * apply keeps2_lift. intros s s'. apply InvAt_sameLedger.
      * auto.
      * intros _. apply keeps2_ret. auto.
    + assert (~ In (full_name it) (analyzed st)) as Hna.
      { intros Hin. apply Hseen. destruct HI. auto. }
      assert (~ In (full_name it) (r_nameWithOwner <$> csv st)) as Hnr.
      { intros Hin. apply Hseen. apply list_elem_of_In in Hin.
        apply list_elem_of_fmap in Hin as (row & -> & Hrow).
        apply list_elem_of_In in Hrow. destruct HI. auto. }
      split; [split; [|exact Hl]|].
      * destruct HI. constructor; cbn; try assumption.
        -- intros row Hrow. apply elem_of_union. right. auto.
        -- apply NoDup_cons_2; [rewrite list_elem_of_In; exact Hna|assumption].
        -- intros x [<-|Hx]; apply elem_of_union;
             [left; apply elem_of_singleton; reflexivity|right; auto].
        -- intros row Hrow. right. auto.
        -- intros Hm. left. rewrite Hsize.
           destruct (inv_cap0 Hm) as [[Hlt Hlen]|[Hrl _]]; [|congruence].
           rewrite Hlen. split; [|reflexivity].
           apply Z.ltb_lt in Hm as Hm'. rewrite Hm' in Hcap. cbn in Hcap.
           rewrite Z.geb_leb in Hcap. apply Z.leb_gt in Hcap. exact Hcap.
      * cbn. split; [|split; [left; reflexivity|exact Hnr]].
        apply elem_of_union. left. apply elem_of_singleton. reflexivity.
Qed.

Lemma forItems_keeps items l :
  keeps2 (InvAt E l) (InvAt E l) (forItems E fuel items).
Proof.
  induction items as [|it rest IH]; cbn [forItems].
  - apply keeps2_ret. auto.
  - eapply keeps2_bind; [apply forItem_keeps|auto|].
    intros [|]; [exact IH|apply keeps2_ret; auto].
Qed.

Lemma Inv_notePage e st :
  Inv E st ->
  (forall q p, e = Asked q p -> mayAsk E q p st) ->
  Inv E {| processed := processed st; totalQualified := totalQualified st;
           reachedLimit := reachedLimit st; csv := csv st;
           analyzed := analyzed st; pages := e :: pages st;
           world := world st |}.
Proof.
  intros [] He. constructor; cbn; try assumption.
  intros Hb q p [->|Hin].
  - destruct (He q p eq_refl Hb) as [H1 [H2|(tc & H2 & H3)]];
      (split; [exact H1|]); [left; exact H2|right].
    exists tc. split; [right; exact H2|exact H3].
  - destruct (inv_pages0 Hb q p Hin) as [H1 [H2|(tc & H2 & H3)]];
      (split; [exact H1|]); [left; exact H2|right].
    exists tc. split; [right; exact H2|exact H3].
Qed.

Lemma searchTurn_keeps q page l :
  keeps2 (InvAt E l) (InvAt E l)
    (catch
       (r <- lift (searchReposREST E fuel q page (BATCH_SIZE E)) ;;
        ret (Some r))
       (fun e => lift (say (ErrSearch e)) ;;; ret None)).
Proof.
  apply keeps2_catch.
  - eapply keeps2_bind.
    + apply keeps2_lift. intros s s'. apply InvAt_sameLedger.
    + auto.
    + intros a. apply keeps2_ret. auto.
  - intros e. eapply keeps2_bind.
    + apply keeps2_lift. intros s s'. apply InvAt_sameLedger.
    + auto.
    + intros a. apply keeps2_ret. auto.
Qed.

Lemma whilePages_keeps n q page st r st' :
  Inv E st -> mayAsk E q page st ->
  whilePages E fuel n q page st = (r, st') -> Inv E st'.
Proof.
  revert page st. induction n as [|n IH]; intros page st HI Hask H.
  { injection H as _ <-. exact HI. }
  cbn [whilePages] in H.
  unfold bind at 1 in H. unfold limitOrStop, stopOrLimit in H.
  destruct (reachedLimit st || stopRequestedAt E (now (world st))).
  { injection H as _ <-. exact HI. }
  unfold bind at 1, notePage at 1 in H.
  pose proof (Inv_notePage (Asked q page) st HI) as HI1.
  match type of HI1 with _ -> Inv E ?s => set (st1 := s) in * end.
  assert (InvAt E (pages st1) st1) as HA1.
  { split; [|reflexivity]. apply HI1. intros q' p' [= <- <-]. exact Hask. }
  clear HI1. unfold bind at 1 in H.
  match type of H with
  | context [catch ?m ?h st1] =>
      destruct (catch m h st1) as [res st2] eqn:Hc;
      pose proof (searchTurn_keeps q page _ _ _ _ HA1 Hc) as [HI2 Hp2]
  end.
  destruct res as [[[total_count items]|]|e|];
    try (injection H as _ <-; exact HI2).
  unfold bind at 1, notePage at 1 in H.
  pose proof (Inv_notePage (Answered q page total_count) st2 HI2) as HI3.
  match type of HI3 with _ -> Inv E ?s => set (st3 := s) in * end.
  assert (InvAt E (pages st3) st3) as HA3.
  { split; [|reflexivity]. apply HI3. intros q' p' [=]. }
  clear HI3.
  unfold bind at 1 in H.
  match type of H with
  | context [lift ?m st3] =>
      destruct (lift m st3) as [u st4] eqn:Hsay;
      pose proof (keeps2_lift (InvAt E (pages st3)) m
                    (fun s s' => InvAt_sameLedger E _ s s') _ _ _ HA3 Hsay)
        as HA4
  end.
  destruct u as [[]|e|]; try (injection H as _ <-; apply HA4).
  destruct items as [|it items]; [injection H as _ <-; apply HA4|].
  unfold bind at 1 in H.
  match type of H with
  | context [forItems E fuel ?its st4] =>
      destruct (forItems E fuel its st4) as [u st5] eqn:Hitems;
      pose proof (forItems_keeps its _ _ _ _ HA4 Hitems) as HA5
  end.
  destruct u as [[]|e|]; try (injection H as _ <-; apply HA5).
  unfold bind at 1 in H. unfold limitOrStop, stopOrLimit in H.
  destruct (reachedLimit st5 || stopRequestedAt E (now (world st5))).
  { injection H as _ <-. apply HA5. }
  destruct (pastLastPage E page total_count) eqn:Hlast.
  { unfold bind at 1 in H.
    match type of H with
    | context [lift ?m st5] =>
        destruct (lift m st5) as [u st6] eqn:Hsay6;
        pose proof (keeps2_lift (InvAt E (pages st3)) m
                      (fun s s' => InvAt_sameLedger E _ s s') _ _ _ HA5 Hsay6)
          as HA6
    end.
    destruct u as [[]|e|]; injection H as _ <-; apply HA6. }
  unfold bind at 1 in H.
  match type of H with
  | context [lift ?m st5] =>
      destruct (lift m st5) as [u st6] eqn:Hsleep;
      pose proof (keeps2_lift (InvAt E (pages st3)) m
                    (fun s s' => InvAt_sameLedger E _ s s') _ _ _ HA5 Hsleep)
        as [HI6 Hp6]
  end.
  destruct u as [[]|e|]; try (injection H as _ <-; exact HI6).
  eapply IH; [exact HI6| |exact H].
  intros Hb. destruct (Hask Hb) as [H1 _]. split; [lia|right].
  exists total_count. rewrite Hp6. split.
  - left. f_equal. lia.
  - unfold pastLastPage in Hlast.
    destruct (BATCH_SIZE E =? 0) eqn:Hz; [apply Z.eqb_eq in Hz; lia|].
    rewrite Z.geb_leb in Hlast. apply Z.leb_gt in Hlast. lia.
Qed.

Lemma forQueries_keeps qs st r st' :
  Inv E st -> forQueries E fuel qs st = (r, st') -> Inv E st'.
Proof.
  revert st. induction qs as [|q rest IH]; intros st HI H.
  { injection H as _ <-. exact HI. }
  cbn [forQueries] in H.
  unfold bind at 1 in H. unfold limitOrStop, stopOrLimit in H.
  destruct (reachedLimit st || stopRequestedAt E (now (world st))).
  { injection H as _ <-. exact HI. }
  unfold bind at 1 in H.
  match type of H with
  | context [lift ?m st] =>
      destruct (lift m st) as [u st1] eqn:Hsay;
      pose proof (Inv_sameLedger E _ _ (lift_sameLedger _ _ _ _ Hsay) HI)
        as HI1
  end.
  destruct u as [[]|e|]; try (injection H as _ <-; exact HI1).
  unfold bind at 1 in H.
  destruct (whilePages E fuel fuel q 1 st1) as [u st2] eqn:Hw.
  assert (Inv E st2) as HI2.
  { eapply whilePages_keeps; [exact HI1| |exact Hw].
    intros _. split; [lia|left; reflexivity]. }
  destruct u as [[]|e|]; try (injection H as _ <-; exact HI2).
  unfold bind at 1 in H.
  match type of H with
  | context [lift ?m st2] =>
      destruct (lift m st2) as [u st3] eqn:Hdone;
      pose proof (Inv_sameLedger E _ _ (lift_sameLedger _ _ _ _ Hdone) HI2)
        as HI3
  end.
  destruct u as [[]|e|]; try (injection H as _ <-; exact HI3).
  unfold bind at 1 in H.
  match type of H with
  | context [lift ?m st3] =>
      destruct (lift m st3) as [u st4] eqn:Hsleep;
      pose proof (Inv_sameLedger E _ _ (lift_sameLedger _ _ _ _ Hsleep) HI3)
        as HI4
  end.
  destruct u as [[]|e|]; try (injection H as _ <-; exact HI4).
  eapply IH; eassumption.
Qed.

(** A run of [main] ends, however it ends, in a state of the invariant. *)
Lemma main_keeps w r st' :
  main E fuel (start w) = (r, st') -> Inv E st'.
Proof. apply forQueries_keeps, Inv_start. Qed.

End DriverFacts.

Lemma ceilDiv_mono a b c : 0 < c -> a <= b -> ceilDiv a c <= ceilDiv b c.
Proof.
  intros Hc Hab. unfold ceilDiv.
  assert (- b / c <= - a / c) by (apply Z.div_le_mono; lia). lia.
Qed.

Lemma rest_keepOrSkip_csv E it tech flag st r st' :
  RestMain.keepOrSkip E it tech flag st = (r, st') ->
  csv st' = csv st
  \/ (exists row, csv st' = row :: csv st)
     /\ EXCLUDE_COURSE_BOILERPLATE E && flag = false
     /\ Rest.hasTS tech = true /\ Rest.hasReact tech = true
     /\ Rest.hasFrontendTests tech = true.
Proof.
  unfold RestMain.keepOrSkip. intros H.
  destruct (EXCLUDE_COURSE_BOILERPLATE E && flag);
    [injection H as _ <-; left; reflexivity|].
  destruct (negb (Rest.hasTS tech && Rest.hasReact tech)) eqn:Htr;
    [injection H as _ <-; left; reflexivity|].
  destruct (negb (Rest.hasFrontendTests tech)) eqn:Hft;
    [injection H as _ <-; left; reflexivity|].
  apply negb_false_iff in Htr, Hft. apply andb_prop in Htr as [Hts Hr].
  right. split; [|tauto]. revert H. cbn.
  destruct (totalQualified st + 1 >=? MAX_QUALIFIED E); intros [= _ <-];
    eexists; reflexivity.
Qed.

Lemma filtered_keepOrSkip_csv E repo tech flag st r st' :
  Filtered.keepOrSkip E repo tech flag st = (r, st') ->
  csv st' = csv st
  \/ (exists row, csv st' = row :: csv st)
     /\ EXCLUDE_COURSE_BOILERPLATE E && flag = false
     /\ Filtered.hasTS tech = true /\ Filtered.hasReact tech = true
     /\ (REQUIRE_FRONTEND_TESTS E = true ->
         Filtered.hasFrontendTests tech = true).
Proof.
  unfold Filtered.keepOrSkip. intros H.
  destruct (EXCLUDE_COURSE_BOILERPLATE E && flag);
    [injection H as _ <-; left; reflexivity|].
  destruct (negb (Filtered.hasTS tech && Filtered.hasReact tech)) eqn:Htr;
    [injection H as _ <-; left; reflexivity|].
  destruct (REQUIRE_FRONTEND_TESTS E
            && negb (Filtered.hasFrontendTests tech)) eqn:Hft;
    [injection H as _ <-; left; reflexivity|].
  apply negb_false_iff in Htr. apply andb_prop in Htr as [Hts Hr].
  right. split; [|repeat split; try assumption].
  - revert H. cbn.
    destruct (totalQualified st + 1 >=? MAX_QUALIFIED E); intros [= _ <-];
      eexists; reflexivity.
  - intros Hreq. rewrite Hreq in Hft. cbn in Hft.
    apply negb_false_iff in Hft. exact Hft.
Qed.

(** C4 (as amended).  In both revisions with filters, a candidate whose
    language signal is false is not written, and with the noise exclusion
    on neither is a candidate classified as noise; a row is written only
    when the language and framework signals are true.  In the REST revision
    the row also needs the test-runner and frontend-test-library signals,
    and every row of a run has all four.  In the revision with the
    [REQUIRE_FRONTEND_TESTS] switch the row needs, when the switch is on,
    [hasFrontendTests], which that revision sets from Jest or the testing
    library. *)
Theorem qualification_filters E fuel :
  (forall it tech flag st r st',
     RestMain.keepOrSkip E it tech flag st = (r, st') ->
     (Rest.hasTS tech = false -> csv st' = csv st)
     /\ (EXCLUDE_COURSE_BOILERPLATE E = true -> flag = true ->
         csv st' = csv st)
     /\ (csv st' <> csv st ->
         Rest.hasTS tech = true /\ Rest.hasReact tech = true
         /\ Rest.hasFrontendTests tech = true))
  /\ (forall owner repo w t w',
        Rest.detectTech E fuel owner repo w = (Ret t, w') ->
        Rest.hasFrontendTests t = true ->
        Rest.hasReact t = true /\ Rest.hasJest t = true
        /\ Rest.hasFrontendTestLibs t = true)
  /\ (forall w r st',
        RestMain.main E fuel (start w) = (r, st') ->
        forall row, In row (csv st') ->
          r_hasTS row = true /\ r_hasReact row = true
          /\ r_hasJest row = true /\ r_hasFrontendTestLibs row = true)
  /\ (forall repo tech flag st r st',
        Filtered.keepOrSkip E repo tech flag st = (r, st') ->
        (Filtered.hasTS tech = false -> csv st' = csv st)
        /\ (EXCLUDE_COURSE_BOILERPLATE E = true -> flag = true ->
            csv st' = csv st)
        /\ (csv st' <> csv st ->
            Filtered.hasTS tech = true /\ Filtered.hasReact tech = true
            /\ (REQUIRE_FRONTEND_TESTS E = true ->
                Filtered.hasFrontendTests tech = true))).
Proof.
  split; [|split; [|split]].
  - intros it tech flag st r st' H.
    apply rest_keepOrSkip_csv in H as [H|(_ & Hx & Hts & Hr & Hf)].
    + repeat split; auto; congruence.
    + repeat split; try assumption; try congruence.
      intros He Hflag. rewrite He, Hflag in Hx. discriminate Hx.
  - intros owner repo w t w' H Hf.
    rewrite (rest_detectTech_ret _ _ _ _ _ _ _ H) in Hf.
    apply andb_prop in Hf as [[? ?]%andb_prop ?]. tauto.
  - intros w r st' H row Hrow.
    apply main_keeps in H. destruct H. auto.
  - intros repo tech flag st r st' H.
    apply filtered_keepOrSkip_csv in H as [H|(_ & Hx & Hts & Hr & Hf)].
    + repeat split; auto; congruence.
    + repeat split; try assumption; try congruence.
      intros He Hflag. rewrite He, Hflag in Hx. discriminate Hx.
Qed.

Lemma qualification_filters_witness :
  Forall (fun row => r_hasTS row = true /\ r_hasReact row = true
                     /\ r_hasJest row = true
                     /\ r_hasFrontendTestLibs row = true)
    (csv (snd (RestMain.main (Sample.catalogue 0) 11
                 (start (Sample.idle 0))))).
Proof.
  apply Forall_forall. intros row Hrow%list_elem_of_In. revert row Hrow.
  refine (proj1 (proj2 (proj2 (qualification_filters (Sample.catalogue 0) 11)))
            (Sample.idle 0) _ _ _).
  apply surjective_pairing.
Defined.

(** C4 (as stated) fails in the revision with the [REQUIRE_FRONTEND_TESTS]
    switch: a candidate whose manifest has React and the testing library
    but no Jest is written, with the test-runner signal false. *)
Lemma qualifies_without_test_runner :
  REQUIRE_FRONTEND_TESTS (Sample.manifestOnly Sample.rtlOnlyPkg) = true
  /\ csv (snd (Filtered.forEdge (Sample.manifestOnly Sample.rtlOnlyPkg) 1
                 Sample.widgets (start (Sample.idle 0))))
     = [ {| Filtered.r_nameWithOwner := "acme/widgets";
            Filtered.r_stars := 31;
            Filtered.r_hasTS := true;
            Filtered.r_hasReact := true;
            Filtered.r_hasJest := false;
            Filtered.r_feLibs := ["testing-library"%string] |} ].
Proof. split; vm_compute; reflexivity. Qed.

(** C7.  In a run of [main], however it ends, no identity is handed to the
    detector twice and no two rows written carry the same identity; an
    identity that is in the processed set is skipped without any effect. *)
Theorem dedup_within_run E fuel w r st' :
  RestMain.main E fuel (start w) = (r, st') ->
  NoDup (analyzed st') /\ NoDup (r_nameWithOwner <$> csv st')
  /\ (forall row, In row (csv st') -> r_nameWithOwner row ∈ processed st')
  /\ (forall it st,
        full_name it ∈ processed st ->
        exists flow, RestMain.forItem E fuel it st = (Ret flow, st)).
Proof.
  intros H. apply main_keeps in H. destruct H.
  repeat split; try assumption.
  intros it st Hin. unfold RestMain.forItem, bind at 1.
  unfold RestMain.limitOrStop, stopOrLimit.
  destruct (reachedLimit st || stopRequestedAt E (now (world st)));
    [eexists; reflexivity|].
  unfold bind at 1, get at 1. rewrite bool_decide_eq_true_2 by exact Hin.
  eexists; reflexivity.
Qed.

Lemma dedup_within_run_witness :
  NoDup (analyzed (snd (RestMain.main (Sample.catalogue 0) 11
                          (start (Sample.idle 0)))))
  /\ NoDup (r_nameWithOwner
              <$> csv (snd (RestMain.main (Sample.catalogue 0) 11
                              (start (Sample.idle 0))))).
Proof.
  pose proof (dedup_within_run (Sample.catalogue 0) 11 (Sample.idle 0) _ _
                (surjective_pairing _)) as (H1 & H2 & _).
  split; assumption.
Defined.

(** C10.  With a positive [MAX_ANALYZED], the candidate whose registration
    brings the processed set to the cap is added to the set and ends the
    run without being analyzed and without any request.  So, in every run,
    fewer than [MAX_ANALYZED] candidates are analyzed, only analyzed
    candidates are written, and when the size of the set (the count that
    the summary prints) has reached the cap, one candidate fewer than the
    cap has been analyzed. *)
Theorem analyzed_cap E fuel :
  0 < MAX_ANALYZED E ->
  (forall it st,
     reachedLimit st || stopRequestedAt E (now (world st)) = false ->
     full_name it ∉ processed st ->
     MAX_ANALYZED E <= Z.of_nat (size (processed st)) + 1 ->
     exists st',
       RestMain.forItem E fuel it st = (Ret Break, st')
       /\ processed st' = {[full_name it]} ∪ processed st
       /\ reachedLimit st' = true
       /\ analyzed st' = analyzed st /\ csv st' = csv st
       /\ requests (world st') = requests (world st))
  /\ (forall w r st',
        RestMain.main E fuel (start w) = (r, st') ->
        Z.of_nat (length (analyzed st')) < MAX_ANALYZED E
        /\ Z.of_nat (size (processed st')) <= MAX_ANALYZED E
        /\ (forall row, In row (csv st') ->
                        In (r_nameWithOwner row) (analyzed st'))
        /\ (Z.of_nat (size (processed st')) = MAX_ANALYZED E ->
            reachedLimit st' = true
            /\ Z.of_nat (length (analyzed st')) = MAX_ANALYZED E - 1)).
Proof.
  intros Hm. split.
  - intros it st Hstop Hnew Hcap.
    unfold RestMain.forItem, bind at 1.
    unfold RestMain.limitOrStop, stopOrLimit. rewrite Hstop.
    unfold bind at 1, get at 1.
    rewrite bool_decide_eq_false_2 by exact Hnew.
    unfold bind at 1, processedAdd at 1. unfold bind at 1, get at 1.
    cbn [processed].
    assert (size ({[full_name it]} ∪ processed st) = S (size (processed st)))
      as ->.
    { rewrite size_union, size_singleton; [reflexivity|].
      intros x Hx%elem_of_singleton Hx'. subst x. exact (Hnew Hx'). }
    apply Z.ltb_lt in Hm as ->.
    assert ((Z.of_nat (S (size (processed st))) >=? MAX_ANALYZED E) = true)
      as ->.
    { apply Z.geb_le. lia. }
    eexists. split; [reflexivity|]. repeat split.
  - intros w r st' H. apply main_keeps in H. destruct H.
    destruct (inv_cap0 Hm) as [[Hlt Hlen]|(Hr & Hs & Hlen)].
    + repeat split; try lia; auto.
    + repeat split; try lia; auto.
Qed.

Lemma analyzed_cap_witness :
  Z.of_nat (length (analyzed (snd (RestMain.main (Sample.catalogue 2) 11
                                     (start (Sample.idle 0)))))) < 2.
Proof.
  exact (proj1 (proj2 (analyzed_cap (Sample.catalogue 2) 11 eq_refl)
                  (Sample.idle 0) _ _ (surjective_pairing _))).
Defined.

(** The sample run under a cap of two: both identities are registered, one
    is analyzed and written, and the run has stopped on the limit. *)
Example capped_run :
  let st := snd (RestMain.main (Sample.catalogue 2) 11
                   (start (Sample.idle 0))) in
  size (processed st) = 2%nat /\ analyzed st = ["acme/shop"%string]
  /\ (r_nameWithOwner <$> csv st) = ["acme/shop"%string]
  /\ reachedLimit st = true.
Proof. vm_compute. repeat split. Qed.

(** The sample run without a cap: two rows for three items, ten pages for
    each of the two queries. *)
Example uncapped_run :
  let st := snd (RestMain.main (Sample.catalogue 0) 11
                   (start (Sample.idle 0))) in
  analyzed st = ["beta/site"%string; "acme/shop"%string]
  /\ (r_nameWithOwner <$> csv st) = ["beta/site"%string; "acme/shop"%string]
  /\ length (pages st) = 40%nat.
Proof. vm_compute. repeat split. Qed.

(** ** The caller of the detector *)

Lemma rest_forItem_never_throws E fuel it st e st' :
  RestMain.forItem E fuel it st = (Throw e, st') -> False.
Proof.
  unfold RestMain.forItem. intros H.
  unfold bind at 1 in H. unfold RestMain.limitOrStop, stopOrLimit in H.
  destruct (reachedLimit st || stopRequestedAt E (now (world st)));
    [discriminate H|].
  unfold bind at 1, get at 1 in H.
  destruct (bool_decide (full_name it ∈ processed st)); [discriminate H|].
  unfold bind at 1, processedAdd at 1 in H.
  unfold bind at 1, get at 1 in H.
  destruct (_ && _); [discriminate H|].
  unfold bind at 1, lift at 1, say at 1 in H.
  unfold bind at 1, noteAnalyzed at 1 in H.
  apply catch_throw_inv in H as (e0 & s1 & _ & H). discriminate H.
Qed.





(** ** The requests on the wire *)

Section Emits.

Context {A B : Type} (P : Url -> Prop).

Lemma emits_ret (a : A) : emits P (ret a).
Proof. intros w r w' [= _ <-]. exists []. split; [reflexivity|constructor]. Qed.

Lemma emits_throw e : emits P (throw e : M World A).
Proof. intros w r w' [= _ <-]. exists []. split; [reflexivity|constructor]. Qed.

Lemma emits_hang : emits P (hang : M World A).
Proof. intros w r w' [= _ <-]. exists []. split; [reflexivity|constructor]. Qed.

Lemma emits_bind (m : M World A) (k : A -> M World B) :
  emits P m -> (forall a, emits P (k a)) -> emits P (bind m k).
Proof.
  intros Hm Hk w r w' H. unfold bind in H.
  destruct (m w) as [[a|e|] w1] eqn:Hmw;
    destruct (Hm _ _ _ Hmw) as (l1 & Hl1 & HP1).
  - destruct (Hk a _ _ _ H) as (l2 & Hl2 & HP2).
    exists (l2 ++ l1). rewrite Hl2, Hl1, app_assoc.
    split; [reflexivity|apply Forall_app; split; assumption].
  - injection H as _ <-. eauto.
  - injection H as _ <-. eauto.
Qed.

Lemma emits_catch (m : M World A) (h : Err -> M World A) :
  emits P m -> (forall e, emits P (h e)) -> emits P (catch m h).
Proof.
  intros Hm Hh w r w' H. unfold catch in H.
  destruct (m w) as [[a|e|] w1] eqn:Hmw;
    destruct (Hm _ _ _ Hmw) as (l1 & Hl1 & HP1).
  - injection H as _ <-. eauto.
  - destruct (Hh e _ _ _ H) as (l2 & Hl2 & HP2).
    exists (l2 ++ l1). rewrite Hl2, Hl1, app_assoc.
    split; [reflexivity|apply Forall_app; split; assumption].
  - injection H as _ <-. eauto.
Qed.

End Emits.

Lemma emits_say P m : emits P (say m).
Proof. intros w r w' [= _ <-]. exists []. split; [reflexivity|constructor]. Qed.

Lemma emits_sleep P ms : emits P (sleep ms).
Proof. intros w r w' [= _ <-]. exists []. split; [reflexivity|constructor]. Qed.

Lemma emits_dateNow P : emits P dateNow.
Proof. intros w r w' [= _ <-]. exists []. split; [reflexivity|constructor]. Qed.

Lemma emits_fetchWithTimeout (P : Url -> Prop) E url :
  P url -> emits P (fetchWithTimeout E url).
Proof.
  intros HP w r w' H. unfold fetchWithTimeout in H.
  assert (w' = settled E url w) as ->.
  { destruct (reply (net E url (now w))); injection H as _ <-; reflexivity. }
  exists [(url, now w)]. split; [reflexivity|].
  constructor; [exact HP|constructor].
Qed.

(** Decompose a goal [emits P m] along the structure of [m]. *)
Ltac emits_step :=
  first
    [ assumption
    | apply emits_ret | apply emits_throw | apply emits_hang | apply emits_say
    | apply emits_sleep | apply emits_dateNow
    | apply emits_bind | apply emits_catch
    | match goal with
      | |- forall _, _ => intro
      | |- emits _ (if ?c then _ else _) => destruct c
      | |- emits _ (match ?x with _ => _ end) => destruct x
      | |- emits _ (let '(_, _) := ?x in _) => destruct x
      end ].

Section EmitsClient.

Context (E : Env) (fuel : nat).

Lemma emits_handleRateLimit P res : emits P (handleRateLimit res).
Proof. unfold handleRateLimit. repeat emits_step. Qed.

Lemma emits_ghGET_rounds (P : Url -> Prop) n url :
  P url -> emits P (ghGET_rounds E n url).
Proof.
  intros HP. induction n as [|n IH]; cbn [ghGET_rounds]; [apply emits_hang|].
  apply emits_bind; [apply emits_fetchWithTimeout, HP|]. intros res.
  apply emits_bind.
  - destruct (status res =? 403);
      [apply emits_handleRateLimit|apply emits_ret].
  - intros [|]; [exact IH|]. repeat emits_step.
Qed.

Lemma emits_ghGET (P : Url -> Prop) url : P url -> emits P (ghGET E fuel url).
Proof. apply emits_ghGET_rounds. Qed.

Lemma quiet_getRepoLanguages owner repo :
  emits notSearch (getRepoLanguages E fuel owner repo).
Proof.
  unfold getRepoLanguages. apply emits_bind; [apply emits_ghGET; exact I|].
  intros r. repeat emits_step.
Qed.

Lemma quiet_getRepoTopics owner repo :
  emits notSearch (getRepoTopics E fuel owner repo).
Proof.
  unfold getRepoTopics. apply emits_bind; [apply emits_ghGET; exact I|].
  intros r. repeat emits_step.
Qed.

Lemma quiet_getRepoContent owner repo pathName :
  emits notSearch (getRepoContent E fuel owner repo pathName).
Proof.
  unfold getRepoContent. apply emits_bind; [apply emits_ghGET; exact I|].
  intros r. repeat emits_step.
Qed.

Lemma quiet_getRepoReadme owner repo :
  emits notSearch (getRepoReadme E fuel owner repo).
Proof.
  unfold getRepoReadme. apply emits_bind; [apply emits_ghGET; exact I|].
  intros r. repeat emits_step.
Qed.

Lemma quiet_scanItem recur owner repo basePath item :
  (forall data path, emits notSearch (recur data path)) ->
  emits notSearch (scanItem E fuel recur owner repo basePath item).
Proof.
  intros Hrec. unfold scanItem.
  destruct (String.eqb (e_type item) "file").
  { destruct (isTestFileName (e_name item)); [|apply emits_ret].
    apply emits_catch; [|intros; apply emits_ret].
    apply emits_bind; [apply quiet_getRepoContent|].
    intros content. repeat emits_step. }
  destruct (_ && _); [|apply emits_ret].
  destruct (_ <? _)%nat; [|apply emits_ret].
  apply emits_catch; [|intros; apply emits_ret].
  apply emits_bind; [apply emits_ghGET; exact I|].
  intros r. destruct (g_status r =? 200); [|apply emits_ret].
  destruct (g_data r) as [[]|]; try apply emits_ret. apply Hrec.
Qed.

Lemma quiet_scanItems recur owner repo basePath contents :
  (forall data path, emits notSearch (recur data path)) ->
  emits notSearch (scanItems E fuel recur owner repo basePath contents).
Proof.
  intros Hrec. induction contents as [|item rest IH]; cbn [scanItems];
    [apply emits_ret|].
  apply emits_bind; [apply quiet_scanItem, Hrec|].
  intros [|]; [apply emits_ret|exact IH].
Qed.

Lemma quiet_searchDirectory_levels n owner repo contents basePath :
  emits notSearch
    (searchDirectory_levels E fuel n owner repo contents basePath).
Proof.
  revert contents basePath.
  induction n as [|n IH]; intros contents basePath;
    cbn [searchDirectory_levels]; [apply emits_hang|].
  apply quiet_scanItems, IH.
Qed.

Lemma quiet_searchPatterns owner repo found patterns :
  emits notSearch (searchPatterns E fuel owner repo found patterns).
Proof.
  revert found. induction patterns as [|p rest IH]; intros found;
    cbn [searchPatterns]; [apply emits_ret|].
  destruct found; [apply emits_ret|].
  apply emits_bind; [|intros b; apply IH].
  apply emits_catch; [|intros; apply emits_ret].
  apply emits_bind; [apply emits_ghGET; exact I|].
  intros r. destruct (g_status r =? 200); [|apply emits_ret].
  destruct (g_data r) as [[]|]; try apply emits_ret.
  apply quiet_searchDirectory_levels.
Qed.

Lemma quiet_anyTsConfig owner repo :
  emits notSearch (anyTsConfig E fuel owner repo).
Proof.
  unfold anyTsConfig. apply emits_bind; [apply quiet_getRepoContent|].
  intros tsconfig. apply emits_bind; [|intros; apply emits_ret].
  destruct (nonEmpty tsconfig); [apply emits_ret|apply quiet_getRepoContent].
Qed.

Lemma quiet_anyJestConfig owner repo candidates :
  emits notSearch (anyJestConfig E fuel owner repo candidates).
Proof.
  induction candidates as [|file rest IH]; cbn [anyJestConfig];
    [apply emits_ret|].
  apply emits_bind; [apply quiet_getRepoContent|].
  intros content. destruct (nonEmpty content); [apply emits_ret|exact IH].
Qed.

Lemma quiet_detectTech owner repo :
  emits notSearch (Rest.detectTech E fuel owner repo).
Proof.
  unfold Rest.detectTech, Rest.detectLayers, Rest.scanLayer.
  apply emits_bind.
  - apply emits_bind.
    { apply emits_catch; [apply quiet_getRepoLanguages|intros; apply emits_ret]. }
    intros langs. apply emits_bind; [apply quiet_getRepoContent|].
    intros pkgText. apply emits_bind.
    { destruct (readManifest E pkgText); [apply emits_say|apply emits_ret]. }
    intros _. apply emits_bind.
    { apply emits_catch; [apply quiet_getRepoTopics|intros; apply emits_ret]. }
    intros topics. apply emits_bind.
    { destruct (negb _); [apply quiet_anyTsConfig|apply emits_ret]. }
    intros hasTS. apply emits_bind; [|intros; apply emits_ret].
    destruct (negb _); [apply quiet_anyJestConfig|apply emits_ret].
  - intros t. apply emits_bind; [|intros; apply emits_ret].
    destruct (Rest.scanWanted t); [|apply emits_ret].
    apply emits_bind; [apply emits_say|]. intros _.
    apply emits_catch.
    + apply emits_bind; [apply quiet_searchPatterns|].
      intros [|]; repeat emits_step.
    + intros err. repeat emits_step.
Qed.

Lemma quiet_detectCourseOrBoilerplate owner repo name description topics :
  emits notSearch
    (detectCourseOrBoilerplate E fuel owner repo name description topics).
Proof.
  unfold detectCourseOrBoilerplate.
  destruct (matchesKeywords _ _ name description topics) as [c b].
  destruct (_ && _); [|apply emits_ret].
  apply emits_bind; [|intros; apply emits_ret].
  apply emits_catch; [apply quiet_getRepoReadme|intros; apply emits_ret].
Qed.

Lemma emits_searchReposREST q page perPage :
  emits (fun url => url = ApiSearch q perPage page)
    (RestMain.searchReposREST E fuel q page perPage).
Proof.
  unfold RestMain.searchReposREST.
  apply emits_bind; [apply emits_ghGET; reflexivity|].
  intros r. repeat emits_step.
Qed.

End EmitsClient.

Section WireFacts.

Context (E : Env) (fuel : nat) (w0 : World).

Import Rest RestMain.

Lemma keeps2_same {A B} (I : Run Row -> Prop) (m : M (Run Row) A)
    (k : A -> M (Run Row) B) :
  keeps2 I I m -> (forall a, keeps2 I I (k a)) -> keeps2 I I (bind m k).
Proof. intros Hm Hk. eapply keeps2_bind; eauto. Qed.

Lemma keeps2_still {A} (I : Run Row -> Prop) (m : M (Run Row) A) :
  (forall st, exists a, m st = (Ret a, st)) -> keeps2 I I m.
Proof.
  intros Hm st r st' HI H. destruct (Hm st) as [a Ha].
  rewrite Ha in H. injection H as _ <-. exact HI.
Qed.

Lemma wire_lift_quiet {A} (m : M World A) :
  emits notSearch m -> keeps2 (Wire E w0) (Wire E w0) (lift m).
Proof.
  intros Hm st r st' HW H.
  pose proof (lift_sameLedger _ _ _ _ H) as (_ & _ & _ & _ & _ & Hp).
  unfold lift in H. destruct (m (world st)) as [r0 w'] eqn:Hmw.
  injection H as _ <-.
  destruct (Hm _ _ _ Hmw) as (l & Hl & HP).
  intros q pp p t Hin. cbn [world pages] in *. rewrite Hl in Hin.
  apply in_app_or in Hin as [Hin|Hin]; [|apply HW, Hin].
  apply list_elem_of_In in Hin.
  apply (proj1 (Forall_forall _ _) HP) in Hin. destruct Hin.
Qed.

Lemma wire_lift_search {A} (m : M World A) q page :
  emits (fun url => url = ApiSearch q (BATCH_SIZE E) page) m ->
  keeps2 (fun st => Wire E w0 st /\ In (Asked q page) (pages st))
    (Wire E w0) (lift m).
Proof.
  intros Hm st r st' [HW Hasked] H.
  unfold lift in H. destruct (m (world st)) as [r0 w'] eqn:Hmw.
  injection H as _ <-.
  destruct (Hm _ _ _ Hmw) as (l & Hl & HP).
  intros q' pp p t Hin. cbn [world pages] in *. rewrite Hl in Hin.
  apply in_app_or in Hin as [Hin|Hin]; [|apply HW, Hin].
  apply list_elem_of_In in Hin.
  apply (proj1 (Forall_forall _ _) HP) in Hin. cbn in Hin.
  injection Hin as -> -> ->. right. split; [reflexivity|exact Hasked].
Qed.

Lemma wire_keepOrSkip it tech flag :
  keeps2 (Wire E w0) (Wire E w0) (keepOrSkip E it tech flag).
Proof.
  unfold keepOrSkip.
  repeat first
    [ apply keeps2_same; [|intro]
    | apply wire_lift_quiet, emits_say
    | apply keeps2_ret; solve [auto]
    | match goal with
      | |- keeps2 _ _ (if ?c then _ else _) => destruct c
      end
    | apply keeps2_still; intros st; eexists; reflexivity
    | (intros st r st' HW [= _ <-]; exact HW) ].
Qed.

Lemma wire_forItem it :
  keeps2 (Wire E w0) (Wire E w0) (forItem E fuel it).
Proof.
  unfold forItem.
  apply keeps2_same; [apply keeps2_still; intros st; eexists; reflexivity|].
  intros [|]; [apply keeps2_ret; auto|].
  apply keeps2_same; [apply keeps2_still; intros st; eexists; reflexivity|].
  intros [|]; [apply keeps2_ret; auto|].
  apply keeps2_same; [intros st r st' HW [= _ <-]; exact HW|]. intros _.
  apply keeps2_same; [apply keeps2_still; intros st; eexists; reflexivity|].
  intros size. destruct (_ && _).
  - apply keeps2_same; [apply wire_lift_quiet, emits_say|]. intros _.
    apply keeps2_same; [intros st r st' HW [= _ <-]; exact HW|]. intros _.
    apply keeps2_ret; auto.
  - apply keeps2_same; [apply wire_lift_quiet, emits_say|]. intros _.
    apply keeps2_same; [intros st r st' HW [= _ <-]; exact HW|]. intros _.
    apply keeps2_catch.
    + apply keeps2_same; [apply wire_lift_quiet, quiet_detectTech|].
      intros tech. apply keeps2_same;
        [apply wire_lift_quiet, quiet_detectCourseOrBoilerplate|].
      intros flag. apply wire_keepOrSkip.
    + intros e. apply keeps2_same; [apply wire_lift_quiet, emits_say|].
      intros _. apply keeps2_ret; auto.
Qed.

Lemma wire_forItems items :
  keeps2 (Wire E w0) (Wire E w0) (forItems E fuel items).
Proof.
  induction items as [|it rest IH]; cbn [forItems]; [apply keeps2_ret; auto|].
  apply keeps2_same; [apply wire_forItem|].
  intros [|]; [exact IH|apply keeps2_ret; auto].
Qed.

Lemma wire_notePage e :
  keeps2 (Wire E w0) (fun st => Wire E w0 st /\ In e (pages st)) (notePage e).
Proof.
  intros st r st' HW [= _ <-]. cbn. split; [|left; reflexivity].
  intros q pp p t Hin. destruct (HW q pp p t Hin) as [H|[H1 H2]];
    [left; exact H|right]. split; [exact H1|right; exact H2].
Qed.

Lemma wire_whilePages n q page :
  keeps2 (Wire E w0) (Wire E w0) (whilePages E fuel n q page).
Proof.
  revert page. induction n as [|n IH]; intros page; cbn [whilePages].
  { intros st r st' HW [= _ <-]. exact HW. }
  apply keeps2_same; [apply keeps2_still; intros st; eexists; reflexivity|].
  intros [|]; [apply keeps2_ret; auto|].
  eapply keeps2_bind; [apply wire_notePage|intros st [H _]; exact H|].
  intros _. eapply keeps2_bind with (Q := Wire E w0); [|auto|].
  - apply keeps2_catch.
    + eapply keeps2_bind with (Q := Wire E w0);
        [apply wire_lift_search, emits_searchReposREST|auto|].
      intros a. apply keeps2_ret. auto.
    + intros e. apply keeps2_same; [apply wire_lift_quiet, emits_say|].
      intros _. apply keeps2_ret; auto.
  - intros [[total_count items]|]; [|apply keeps2_ret; auto].
    apply keeps2_same.
    { intros st r st' HW H. eapply wire_notePage; eassumption. }
    intros _. apply keeps2_same; [apply wire_lift_quiet, emits_say|].
    intros _. destruct items as [|it items]; [apply keeps2_ret; auto|].
    apply keeps2_same; [apply wire_forItems|]. intros _.
    apply keeps2_same; [apply keeps2_still; intros st; eexists; reflexivity|].
    intros [|]; [apply keeps2_ret; auto|].
    destruct (pastLastPage E page total_count).
    + apply keeps2_same; [apply wire_lift_quiet, emits_say|].
      intros _. apply keeps2_ret; auto.
    + apply keeps2_same; [apply wire_lift_quiet, emits_sleep|].
      intros _. apply IH.
Qed.

Lemma wire_forQueries qs :
  keeps2 (Wire E w0) (Wire E w0) (forQueries E fuel qs).
Proof.
  induction qs as [|q rest IH]; cbn [forQueries]; [apply keeps2_ret; auto|].
  apply keeps2_same; [apply keeps2_still; intros st; eexists; reflexivity|].
  intros [|]; [apply keeps2_ret; auto|].
  apply keeps2_same; [apply wire_lift_quiet, emits_say|]. intros _.
  apply keeps2_same; [apply wire_whilePages|]. intros _.
  apply keeps2_same; [apply wire_lift_quiet, emits_say|]. intros _.
  apply keeps2_same; [apply wire_lift_quiet, emits_sleep|]. intros _.
  exact IH.
Qed.

(** The search requests that a run of [main] puts on the wire are those of
    the pages that the driver asked for. *)
Lemma main_wire r st' :
  main E fuel (start w0) = (r, st') -> Wire E w0 st'.
Proof.
  apply wire_forQueries. intros q pp p t Hin. left. exact Hin.
Qed.

End WireFacts.

(** C6.  With a positive page size, every search request that a run of the
    driver puts on the wire has the configured page size and is for a page
    that the driver asked for; every page asked for is numbered at most
    [ceil(1000 / BATCH_SIZE)] (or is page 1), and every page after the first
    was asked only after the page before it had reported a total for which
    it lies within [ceil(min(total_count, 1000) / BATCH_SIZE)]. *)
Theorem pagination_ceiling E fuel w r st' :
  0 < BATCH_SIZE E ->
  RestMain.main E fuel (start w) = (r, st') ->
  (forall q per_page p t,
     In (ApiSearch q per_page p, t) (requests (world st')) ->
     In (ApiSearch q per_page p, t) (requests w)
     \/ (per_page = BATCH_SIZE E /\ In (Asked q p) (pages st')))
  /\ (forall q p,
        In (Asked q p) (pages st') ->
        1 <= p <= Z.max 1 (ceilDiv 1000 (BATCH_SIZE E))
        /\ (p = 1
            \/ exists total_count,
                 In (Answered q (p - 1) total_count) (pages st')
                 /\ p <= ceilDiv (Z.min total_count 1000) (BATCH_SIZE E))).
Proof.
  intros Hb H. split; [exact (main_wire _ _ _ _ _ H)|].
  intros q p Hin. apply main_keeps in H. destruct H.
  destruct (inv_pages0 Hb q p Hin) as [H1 [->|(tc & Ha & Hlt)]].
  - split; [lia|left; reflexivity].
  - pose proof (ceilDiv_mono (Z.min tc 1000) 1000 _ Hb (Z.le_min_r _ _)).
    split; [lia|right]. exists tc. split; [exact Ha|lia].
Qed.

Lemma pagination_ceiling_witness :
  Forall (fun x => match fst x with
                   | ApiSearch _ per_page p => per_page = 100 /\ 1 <= p <= 10
                   | _ => True
                   end)
    (requests (world (snd (RestMain.main (Sample.catalogue 0) 11
                             (start (Sample.idle 0)))))).
Proof.
  destruct (pagination_ceiling (Sample.catalogue 0) 11 (Sample.idle 0)
              _ _ eq_refl (surjective_pairing _)) as [Hwire Hpages].
  apply Forall_forall. intros [[] t] Hin%list_elem_of_In; try exact I.
  destruct (Hwire _ _ _ _ Hin) as [[]|[-> Hasked]].
  split; [reflexivity|exact (proj1 (Hpages _ _ Hasked))].
Defined.

(** * Further properties *)

(** ** The noise filter's keywords *)

Lemma existsb_absorbed {A} (f : A -> bool) (l l' : list A) :
  (forall x, In x l' -> In x l) ->
  (forall x, In x l -> f x = true -> exists y, In y l' /\ f y = true) ->
  existsb f l = existsb f l'.
Proof.
  intros Hsub Hcov. apply eq_true_iff_eq. rewrite !existsb_exists. split.
  - intros (x & Hin & Hx). eauto.
  - intros (y & Hin & Hy). eauto.
Qed.

(** Find, in the list of the goal, a keyword that the text of [Hinc] has
    because it has a keyword that extends it. *)
Ltac covered_by Hinc :=
  match goal with
  | |- exists y, In y ?l /\ _ =>
      let rec go l :=
        lazymatch l with
        | ?y :: ?t =>
            first
              [ exists y; split;
                [ cbn; tauto
                | first [ exact Hinc
                        | eapply includes_trans;
                          [exact Hinc|vm_compute; reflexivity] ] ]
              | go t ]
        end in
      go l
  end.

(** X1.  Six of the default keywords are dead: a text that has [aulas],
    [exercicios], [exercícios], [learning], [starter-kit] or [templates] has
    the shorter keyword that each of them extends, so the lists without
    them classify every text alike. *)
Theorem default_keywords_redundant haystack :
  textIncludesAny haystack COURSE_KEYWORDS_DEFAULT
  = textIncludesAny haystack
      ["curso"; "course"; "udemy"; "alura"; "rocketseat"; "bootcamp";
       "treinamento"; "tutorial"; "aula"; "exercicio"; "exercício"; "learn";
       "education"; "formacao"; "formação"; "nanodegree"; "codecademy";
       "freecodecamp"]%string
  /\ textIncludesAny haystack BOILERPLATE_KEYWORDS_DEFAULT
     = textIncludesAny haystack
         ["boilerplate"; "starter"; "seed"; "scaffold"; "skeleton";
          "quickstart"; "template"]%string.
Proof.
  unfold textIncludesAny.
  split; apply existsb_absorbed.
  - intros x Hx. cbn in Hx |- *. tauto.
  - intros x Hx Hinc. cbn in Hx.
    repeat (destruct Hx as [<-|Hx]; [covered_by Hinc|]). destruct Hx.
  - intros x Hx. cbn in Hx |- *. tauto.
  - intros x Hx Hinc. cbn in Hx.
    repeat (destruct Hx as [<-|Hx]; [covered_by Hinc|]). destruct Hx.
Qed.

Lemma hasUpper_part pre k post :
  Txt.hasUpper (pre +:+ k +:+ post) = false -> Txt.hasUpper k = false.
Proof.
  rewrite !hasUpper_app. intros H.
  destruct (Txt.hasUpper k); [|reflexivity].
  rewrite orb_true_r in H. discriminate H.
Qed.

(** X2.  Keywords are compared with the lower-cased text as they are: a keyword
    that has an upper-case ASCII letter matches no text, so the keyword
    lists behave as the lists without such keywords. *)
Theorem upper_case_keyword_never_matches haystack keywords :
  textIncludesAny haystack keywords
  = textIncludesAny haystack
      (List.filter (fun k => negb (Txt.hasUpper k)) keywords).
Proof.
  unfold textIncludesAny. apply existsb_absorbed.
  - intros x Hx. apply filter_In in Hx. tauto.
  - intros x Hx Hinc. exists x. split; [|exact Hinc].
    apply filter_In. split; [exact Hx|].
    apply includes_split in Hinc as (pre & post & Hinc).
    rewrite (hasUpper_part pre x post); [reflexivity|].
    rewrite <- Hinc. apply toLowerCase_no_upper.
Qed.

Lemma count_append c (a b : string) :
  Str.count c (a +:+ b) = (Str.count c a + Str.count c b)%nat.
Proof.
  induction a as [|d a IH]; [reflexivity|].
  change (String d a +:+ b) with (String d (a +:+ b)).
  cbn [Str.count]. rewrite IH. lia.
Qed.

(** ** Trimming *)

Section Trimming.

Lemma string_strong_ind (P : string -> Prop) :
  (forall s, (forall t, (String.length t < String.length s)%nat -> P t) -> P s) ->
  forall s, P s.
Proof.
  intros H s.
  assert (forall n t, (String.length t < n)%nat -> P t) as Hn.
  { induction n as [|n IH]; intros t Ht; [lia|].
    apply H. intros t' Ht'. apply IH. lia. }
  apply (Hn (S (String.length s))). lia.
Qed.

Lemma isSpace_byte a :
  Str.isSpace a = true -> Utf8.byte a < 128.
Proof.
  destruct a as [[] [] [] [] [] [] [] []]; vm_compute; intros H;
    (reflexivity || discriminate H).
Qed.

Lemma white2_bytes a1 a2 :
  Str.white2 a1 a2 = true -> 128 <= Utf8.byte a2.
Proof.
  unfold Str.white2. intros [_ H]%andb_prop. apply Z.eqb_eq in H. lia.
Qed.

Lemma white3_bytes a1 a2 a3 :
  Str.white3 a1 a2 a3 = true -> 128 <= Utf8.byte a2 /\ 128 <= Utf8.byte a3.
Proof.
  unfold Str.white3. intros H.
  repeat match type of H with
         | _ || _ = true => apply orb_prop in H as [H|H]
         end;
    repeat match goal with
           | H : _ && _ = true |- _ => apply andb_prop in H as [? ?]
           | H : _ || _ = true |- _ => apply orb_prop in H as [?|?]
           | H : (_ =? _) = true |- _ => apply Z.eqb_eq in H
           | H : (_ <=? _) = true |- _ => apply Z.leb_le in H
           end; lia.
Qed.

(** One step of [skipSpaces]. *)
Lemma skipSpaces_cases s :
  s <> ""%string ->
  (exists a1 s1, s = String a1 s1 /\ Str.isSpace a1 = true)
  \/ (exists a1 a2 s2, s = String a1 (String a2 s2)
                       /\ Str.isSpace a1 = false /\ Str.white2 a1 a2 = true)
  \/ (exists a1 a2 a3 s3, s = String a1 (String a2 (String a3 s3))
                          /\ Str.isSpace a1 = false
                          /\ Str.white2 a1 a2 = false
                          /\ Str.white3 a1 a2 a3 = true)
  \/ Str.skipSpaces s = s.
Proof.
  intros Hne. destruct s as [|a1 s1]; [congruence|]. cbn [Str.skipSpaces].
  destruct (Str.isSpace a1) eqn:H1; [left; eauto 10|].
  destruct s1 as [|a2 s2]; [auto|].
  destruct (Str.white2 a1 a2) eqn:H2; [right; left; eauto 10|].
  destruct s2 as [|a3 s3]; [auto|].
  destruct (Str.white3 a1 a2 a3) eqn:H3; [right; right; left; eauto 10|].
  auto.
Qed.

Lemma skipSpaces_1 a1 s1 :
  Str.isSpace a1 = true -> Str.skipSpaces (String a1 s1) = Str.skipSpaces s1.
Proof. intros H. cbn [Str.skipSpaces]. rewrite H. reflexivity. Qed.

Lemma skipSpaces_2 a1 a2 s2 :
  Str.isSpace a1 = false -> Str.white2 a1 a2 = true ->
  Str.skipSpaces (String a1 (String a2 s2)) = Str.skipSpaces s2.
Proof. intros H1 H2. cbn [Str.skipSpaces]. rewrite H1, H2. reflexivity. Qed.

Lemma skipSpaces_3 a1 a2 a3 s3 :
  Str.isSpace a1 = false -> Str.white2 a1 a2 = false ->
  Str.white3 a1 a2 a3 = true ->
  Str.skipSpaces (String a1 (String a2 (String a3 s3))) = Str.skipSpaces s3.
Proof.
  intros H1 H2 H3. cbn [Str.skipSpaces]. rewrite H1, H2, H3. reflexivity.
Qed.

(** White space before a text is skipped. *)
Lemma skipSpaces_app_white a r :
  Str.skipSpaces a = ""%string -> Str.skipSpaces (a +:+ r) = Str.skipSpaces r.
Proof.
  induction a as [a IH] using string_strong_ind. intros Ha.
  destruct a as [|a1 s1]; [reflexivity|].
  destruct (skipSpaces_cases (String a1 s1) ltac:(discriminate))
    as [(b1 & t1 & [= <- <-] & H1)
       |[(b1 & b2 & t2 & [= <- ->] & H1 & H2)
        |[(b1 & b2 & b3 & t3 & [= <- ->] & H1 & H2 & H3)|Heq]]].
  - rewrite skipSpaces_1 in Ha by exact H1.
    change (String a1 s1 +:+ r) with (String a1 (s1 +:+ r)).
    rewrite skipSpaces_1 by exact H1. apply IH; [cbn; lia|exact Ha].
  - rewrite skipSpaces_2 in Ha by assumption.
    change (String a1 (String b2 t2) +:+ r)
      with (String a1 (String b2 (t2 +:+ r))).
    rewrite skipSpaces_2 by assumption. apply IH; [cbn; lia|exact Ha].
  - rewrite skipSpaces_3 in Ha by assumption.
    change (String a1 (String b2 (String b3 t3)) +:+ r)
      with (String a1 (String b2 (String b3 (t3 +:+ r)))).
    rewrite skipSpaces_3 by assumption. apply IH; [cbn; lia|exact Ha].
  - rewrite Heq in Ha. discriminate Ha.
Qed.

(** White space does not reach into a text that begins with an ASCII
    character. *)
Lemma skipSpaces_app_ascii s t :
  asciiHead t -> Str.skipSpaces (s +:+ t) = ""%string ->
  Str.skipSpaces t = ""%string.
Proof.
  intros Ht. destruct t as [|t0 t]; [destruct Ht|]. cbn [asciiHead] in Ht.
  induction s as [s IH] using string_strong_ind. intros Hs.
  destruct s as [|a1 s1]; [exact Hs|].
  change (String a1 s1 +:+ String t0 t)
    with (String a1 (s1 +:+ String t0 t)) in Hs.
  destruct (Str.isSpace a1) eqn:H1.
  { rewrite skipSpaces_1 in Hs by exact H1.
    apply (IH s1); [cbn; lia|exact Hs]. }
  destruct s1 as [|a2 s2].
  { exfalso. change (""%string +:+ String t0 t) with (String t0 t) in Hs.
    cbn [Str.skipSpaces] in Hs. rewrite H1 in Hs.
    destruct (Str.white2 a1 t0) eqn:H2;
      [apply white2_bytes in H2; lia|].
    destruct t as [|t1 t]; [discriminate Hs|].
    destruct (Str.white3 a1 t0 t1) eqn:H3;
      [apply white3_bytes in H3; lia|discriminate Hs]. }
  change (String a2 s2 +:+ String t0 t)
    with (String a2 (s2 +:+ String t0 t)) in Hs.
  destruct (Str.white2 a1 a2) eqn:H2.
  { rewrite skipSpaces_2 in Hs by assumption.
    apply (IH s2); [cbn; lia|exact Hs]. }
  destruct s2 as [|a3 s3].
  { exfalso. change (""%string +:+ String t0 t) with (String t0 t) in Hs.
    cbn [Str.skipSpaces] in Hs. rewrite H1, H2 in Hs.
    destruct (Str.white3 a1 a2 t0) eqn:H3;
      [apply white3_bytes in H3; lia|discriminate Hs]. }
  change (String a3 s3 +:+ String t0 t)
    with (String a3 (s3 +:+ String t0 t)) in Hs.
  destruct (Str.white3 a1 a2 a3) eqn:H3.
  { rewrite skipSpaces_3 in Hs by assumption.
    apply (IH s3); [cbn; lia|exact Hs]. }
  exfalso. cbn [Str.skipSpaces] in Hs. rewrite H1, H2, H3 in Hs.
  discriminate Hs.
Qed.

Lemma trimEnd_cons c s :
  Txt.trimEnd (String c s)
  = if String.eqb (Str.skipSpaces (String c s)) "" then EmptyString
    else String c (Txt.trimEnd s).
Proof. reflexivity. Qed.

(** What [trimEnd] cuts off is white space. *)
Lemma trimEnd_split s :
  exists r, s = Txt.trimEnd s +:+ r /\ Str.skipSpaces r = ""%string.
Proof.
  induction s as [|c s (r & Hr & Hw)]; [exists ""%string; split; reflexivity|].
  rewrite trimEnd_cons.
  destruct (String.eqb (Str.skipSpaces (String c s)) "") eqn:He.
  - exists (String c s). split; [reflexivity|]. apply String.eqb_eq, He.
  - exists r. split; [|exact Hw].
    change (String c (Txt.trimEnd s) +:+ r)
      with (String c (Txt.trimEnd s +:+ r)).
    rewrite <- Hr. reflexivity.
Qed.

(** No text that [trimEnd] leaves as it is ends in white space. *)
Lemma trimEnd_fixed_skip c s :
  Txt.trimEnd (String c s) = String c s ->
  Str.skipSpaces (String c s) <> ""%string.
Proof.
  rewrite trimEnd_cons.
  destruct (String.eqb (Str.skipSpaces (String c s)) "") eqn:He;
    [discriminate|].
  intros _. apply String.eqb_neq, He.
Qed.

Lemma trimEnd_idem s : Txt.trimEnd (Txt.trimEnd s) = Txt.trimEnd s.
Proof.
  induction s as [|c s IH]; [reflexivity|].
  rewrite trimEnd_cons.
  destruct (String.eqb (Str.skipSpaces (String c s)) "") eqn:He;
    [reflexivity|].
  rewrite trimEnd_cons, IH.
  destruct (String.eqb (Str.skipSpaces (String c (Txt.trimEnd s))) "")
    eqn:He'; [|reflexivity].
  exfalso. apply String.eqb_neq in He. apply He.
  apply String.eqb_eq in He'.
  destruct (trimEnd_split s) as (r & Hr & Hw).
  rewrite Hr. change (String c (Txt.trimEnd s +:+ r))
    with (String c (Txt.trimEnd s) +:+ r).
  rewrite skipSpaces_app_white by exact He'. exact Hw.
Qed.

Lemma kept_append s t : asciiHead t -> kept t -> kept (s +:+ t).
Proof.
  intros Ha [Ht Hne]. induction s as [|c s [IH1 IH2]]; [split; assumption|].
  change (String c s +:+ t) with (String c (s +:+ t)). split; [|discriminate].
  rewrite trimEnd_cons, IH1.
  destruct (String.eqb (Str.skipSpaces (String c (s +:+ t))) "") eqn:He;
    [|reflexivity].
  exfalso. apply String.eqb_eq in He.
  change (String c (s +:+ t)) with (String c s +:+ t) in He.
  apply (skipSpaces_app_ascii _ _ Ha) in He.
  destruct t as [|t0 t]; [congruence|].
  apply (trimEnd_fixed_skip _ _ Ht). exact He.
Qed.

Lemma kept_space t : kept t -> kept (String " " t).
Proof.
  intros [Ht Hne]. split; [|discriminate].
  rewrite trimEnd_cons, Ht.
  destruct (String.eqb (Str.skipSpaces (String " " t)) "") eqn:He;
    [|reflexivity].
  exfalso. apply String.eqb_eq in He. cbn [Str.skipSpaces] in He.
  change (Str.isSpace " ") with true in He. cbn iota in He.
  destruct t as [|t0 t]; [congruence|].
  apply (trimEnd_fixed_skip _ _ Ht). exact He.
Qed.

Lemma skipSpaces_letter a x :
  Utf8.byte a < 128 -> Str.isSpace a = false ->
  Str.skipSpaces (String a x) = String a x.
Proof.
  intros Ha Hs. cbn [Str.skipSpaces]. rewrite Hs.
  destruct x as [|a2 x]; [reflexivity|].
  destruct (Str.white2 a a2) eqn:H2.
  { unfold Str.white2 in H2. apply andb_prop in H2 as [H2 _].
    apply Z.eqb_eq in H2. lia. }
  destruct x as [|a3 x]; [reflexivity|].
  destruct (Str.white3 a a2 a3) eqn:H3; [|reflexivity].
  exfalso. unfold Str.white3 in H3.
  repeat match type of H3 with
         | _ || _ = true => apply orb_prop in H3 as [H3|H3]
         end;
    repeat match goal with
           | H : _ && _ = true |- _ => apply andb_prop in H as [? ?]
           | H : (_ =? _) = true |- _ => apply Z.eqb_eq in H
           end; lia.
Qed.

End Trimming.

(** ** Keywords from the environment *)

Section ExtraKeywords.

Import Utf8.













End ExtraKeywords.


(** ** The client's retry loop *)

(** X4.  What [ghGET] can end with: a result whose status is 404 (and no
    data) or
    a 2xx status; an error for a status that is neither; or the failure of
    the fetch itself.  The error names the URL asked for. *)
Theorem ghGET_outcomes E n url w r w' :
  ghGET_rounds E n url w = (r, w') ->
  match r with
  | Ret g =>
      (g_status g = 404 /\ g_data g = None) \/ (200 <= g_status g <= 299)
  | Throw (HttpError u code) =>
      u = url /\ code <> 404 /\ ~ (200 <= code <= 299)
  | Throw (FetchFailed u) => u = url
  | Hang => True
  end.
Proof.
  revert w. induction n as [|n IH]; intros w H.
  - injection H as <- _. exact I.
  - destruct (reply (net E url (now w))) as [res|] eqn:Hr.
    + destruct (quotaExhausted res) eqn:Hq.
      * rewrite (ghGET_rounds_retry E n url w res Hr Hq) in H.
        eapply IH, H.
      * rewrite (ghGET_rounds_conclude E n url w res Hr Hq) in H.
        injection H as <- _. unfold conclude, ok.
        destruct (status res =? 404) eqn:H404; [left; split; reflexivity|].
        destruct ((200 <=? status res) && (status res <=? 299)) eqn:Hok;
          cbn [negb g_status].
        -- right. lia.
        -- split; [reflexivity|]. split; lia.
    + rewrite (ghGET_rounds_failed E n url w Hr) in H.
      injection H as <- _. reflexivity.
Qed.

Lemma ghGET_outcomes_witness :
  match fst (ghGET_rounds Sample.brokenManifest 1
               (ApiContents "o" "r" "package.json") (Sample.idle 0)) with
  | Throw (HttpError u code) =>
      u = ApiContents "o" "r" "package.json" /\ code <> 404
      /\ ~ (200 <= code <= 299)
  | _ => False
  end.
Proof.
  exact (ghGET_outcomes Sample.brokenManifest 1
           (ApiContents "o" "r" "package.json") (Sample.idle 0) _ _ eq_refl).
Defined.

Lemma round_at_least lo z :
  0 <= lo <= 2 ^ 53 -> lo <= z ->
  Num.round z = Num.Inf false \/ exists v, Num.round z = Num.Fin v /\ lo <= v.
Proof.
  intros Hlo Hz. unfold Num.round.
  assert (2 ^ 53 = 9007199254740992) as H53 by reflexivity.
  destruct (Z.abs z <=? 2 ^ 53) eqn:Hsmall; [right; eauto|].
  apply Z.leb_gt in Hsmall. rewrite Z.abs_eq in * by lia.
  set (e := Z.log2 z - 52).
  assert (53 <= Z.log2 z) as Hlog.
  { change 53 with (Z.log2 (2 ^ 53)). apply Z.log2_le_mono. lia. }
  assert (1 <= e) as He by (subst e; lia).
  assert (2 ^ 52 <= z / 2 ^ e) as Hq.
  { replace (2 ^ 52) with (2 ^ Z.log2 z / 2 ^ e).
    - apply Z.div_le_mono; [apply Z.pow_pos_nonneg; lia|].
      apply Z.log2_spec. lia.
    - rewrite <- Z.pow_sub_r by lia. f_equal. subst e. lia. }
  set (q := z / 2 ^ e) in *.
  set (q' := if z mod 2 ^ e <? 2 ^ (e - 1) then q
             else if 2 ^ (e - 1) <? z mod 2 ^ e then q + 1
             else if Z.even q then q else q + 1).
  assert (q <= q') as Hq'.
  { subst q'. repeat match goal with |- context [if ?c then _ else _] =>
                                       destruct c end; lia. }
  assert (2 <= 2 ^ e) as H2e.
  { change 2 with (2 ^ 1) at 1. apply Z.pow_le_mono_r; lia. }
  assert (2 ^ 53 <= q' * 2 ^ e) as Hm by nia.
  replace (z <? 0) with false by (symmetry; apply Z.ltb_ge; lia).
  destruct (2 ^ 1024 <=? q' * 2 ^ e); [left; reflexivity|].
  right. exists (Z.sgn z * (q' * 2 ^ e)). split; [reflexivity|].
  rewrite Z.sgn_pos by lia. lia.
Qed.

Lemma waitMsAt_at_least t reset :
  waitMsAt t reset = Num.NaN \/ waitMsAt t reset = Num.Inf false
  \/ exists v, waitMsAt t reset = Num.Fin v /\ 5000 <= v.
Proof.
  unfold waitMsAt.
  destruct (Num.sub _ _) as [|d|[]]; cbn [Num.max Num.add]; auto.
  - destruct (round_at_least 5000 (Z.max 0 d + 5000)) as [H|H];
      [cbn; lia|lia|auto..].
  - right. right. exists 5000. split; [reflexivity|lia].
Qed.

(** X5.  The retry loop of [ghGET] asks for nothing but its URL and calls
    [sleep] once before every request after the first: when it ends, it has
    issued one request more than it has slept.  The delay that it asks for
    is NaN (a reset header that [parseInt] cannot read) or 5000 ms at least,
    and every sleep moves the clock on, by one millisecond at least. *)
Theorem ghGET_accounting E n url w r w' :
  ghGET_rounds E n url w = (r, w') ->
  exists reqs sleeps,
    requests w' = reqs ++ requests w /\ slept w' = sleeps ++ slept w
    /\ Forall (fun x => fst x = url) reqs
    /\ Forall (fun ms => ms = Num.NaN \/ ms = Num.Inf false
                         \/ exists v, ms = Num.Fin v /\ 5000 <= v) sleeps
    /\ length reqs = match r with
                     | Hang => length sleeps
                     | _ => S (length sleeps)
                     end
    /\ (r = Hang -> length reqs = n)
    /\ now w + Z.of_nat (length sleeps) <= now w'.
Proof.
  revert w. induction n as [|n IH]; intros w H.
  - injection H as <- <-. exists [], []. repeat split; try constructor.
    cbn. lia.
  - assert (forall res, exists reqs sleeps,
              requests (settled E url w) = reqs ++ requests w
              /\ slept (settled E url w) = sleeps ++ slept w
              /\ Forall (fun x => fst x = url) reqs
              /\ Forall (fun ms => ms = Num.NaN \/ ms = Num.Inf false
                                   \/ exists v, ms = Num.Fin v /\ 5000 <= v)
                   sleeps
              /\ length reqs = S (length sleeps)
              /\ (conclude url res = Hang -> length reqs = S n)
              /\ now w + Z.of_nat (length sleeps) <= now (settled E url w))
      as Hone.
    { intros res. exists [(url, now w)], []. cbn. repeat split.
      - repeat constructor.
      - constructor.
      - unfold conclude. destruct (_ =? _); [discriminate|].
        destruct (negb _); discriminate.
      - lia. }
    destruct (reply (net E url (now w))) as [res|] eqn:Hr.
    + destruct (quotaExhausted res) eqn:Hq.
      * rewrite (ghGET_rounds_retry E n url w res Hr Hq) in H.
        destruct (IH _ H) as (reqs & sleeps & H1 & H2 & H3 & H4 & H5 & H6 & H7).
        cbn [requests slept backedOff settled now] in H1, H2, H7.
        set (ms := waitMsAt (now w + Z.of_N (elapsed (net E url (now w))))
                     (default ""%string (x_ratelimit_reset res))) in *.
        pose proof (timerDelay_bounds ms) as Hd.
        exists (reqs ++ [(url, now w)]), (sleeps ++ [ms]).
        rewrite <- !app_assoc. cbn [app]. repeat split.
        -- exact H1.
        -- exact H2.
        -- apply Forall_app. split; [exact H3|repeat constructor].
        -- apply Forall_app. split; [exact H4|]. constructor; [|constructor].
           apply waitMsAt_at_least.
        -- rewrite !length_app. cbn [length]. destruct r; lia.
        -- intros Hh. rewrite length_app. cbn [length]. specialize (H6 Hh). lia.
        -- rewrite length_app. cbn [length]. lia.
      * rewrite (ghGET_rounds_conclude E n url w res Hr Hq) in H.
        injection H as <- <-.
        destruct (Hone res) as (reqs & sleeps & H1 & H2 & H3 & H4 & H5 & H6 & H7).
        exists reqs, sleeps. repeat split; try assumption.
        unfold conclude. destruct (_ =? _); [exact H5|].
        destruct (negb _); exact H5.
    + rewrite (ghGET_rounds_failed E n url w Hr) in H.
      injection H as <- <-.
      destruct (Hone {| status := 200; x_ratelimit_remaining := None;
                        x_ratelimit_reset := None; json := None |})
        as (reqs & sleeps & H1 & H2 & H3 & H4 & H5 & H6 & H7).
      exists reqs, sleeps. repeat split; try assumption. discriminate.
Qed.

Lemma ghGET_accounting_witness :
  exists reqs sleeps,
    requests (snd (ghGET_rounds Sample.throttled 2 (ApiTopics "o" "r")
                     (Sample.idle 1699999990000)))
    = reqs ++ []
    /\ slept (snd (ghGET_rounds Sample.throttled 2 (ApiTopics "o" "r")
                     (Sample.idle 1699999990000)))
       = sleeps ++ []
    /\ length reqs = S (length sleeps).
Proof.
  destruct (ghGET_accounting Sample.throttled 2 (ApiTopics "o" "r")
              (Sample.idle 1699999990000) _ _ eq_refl)
    as (reqs & sleeps & H1 & H2 & _ & _ & H5 & _).
  exists reqs, sleeps. repeat split; assumption.
Defined.

(** X6.  With an honest reset header the back-off is enough: from a clock
    that holds a time value when the first response arrives, [ghGET] ends
    within two rounds, with at most two requests, whatever the responses
    are. *)
Theorem honest_reset_two_rounds E n url w :
  honestReset E url (now w) ->
  timeValue (now (settled E url w)) ->
  exists r w',
    ghGET_rounds E (S (S n)) url w = (r, w') /\ r <> Hang
    /\ exists reqs, requests w' = reqs ++ requests w
                    /\ (1 <= length reqs <= 2)%nat.
Proof.
  intros Hhonest Hclock.
  assert (forall res, conclude url res <> Hang) as Hc.
  { intros res. unfold conclude. destruct (_ =? _); [discriminate|].
    destruct (negb _); discriminate. }
  assert (forall m w0,
            (forall res, reply (net E url (now w0)) = Some res ->
                         quotaExhausted res = false) ->
            exists r, ghGET_rounds E (S m) url w0 = (r, settled E url w0)
                      /\ r <> Hang) as Hlast.
  { intros m w0 Hq. destruct (reply (net E url (now w0))) as [res|] eqn:Hr.
    - rewrite (ghGET_rounds_conclude E m url w0 res Hr (Hq _ eq_refl)).
      eauto.
    - rewrite (ghGET_rounds_failed E m url w0 Hr). eexists.
      split; [reflexivity|discriminate]. }
  destruct (reply (net E url (now w))) as [res|] eqn:Hr.
  - destruct (quotaExhausted res) eqn:Hq.
    + rewrite (ghGET_rounds_retry E (S n) url w res Hr Hq).
      destruct (Hhonest _ _ (Z.le_refl _) Hr Hq)
        as (r0 & Hparse & Hnear & Hafter).
      rewrite (waitMsAt_exact _ _ r0 Hparse Hclock)
        by (cbn [now settled]; unfold TIMEOUT_MAX in *; lia).
      set (w2 := backedOff _ _).
      assert (r0 * 1000 <= now w2) as Hpast.
      { subst w2. cbn [now backedOff settled] in *. unfold timerDelay.
        set (t1 := now w + Z.of_N (elapsed (net E url (now w)))) in *.
        replace (1 <=? Z.max 0 (r0 * 1000 - t1) + 5000) with true
          by (symmetry; apply Z.leb_le; lia).
        replace (Z.max 0 (r0 * 1000 - t1) + 5000 <=? TIMEOUT_MAX) with true
          by (symmetry; apply Z.leb_le; unfold TIMEOUT_MAX in *; lia).
        cbn [andb]. lia. }
      destruct (Hlast n w2) as (r & -> & Hr2).
      { intros res' Hr'. eapply Hafter; [exact Hpast|exact Hr']. }
      exists r, (settled E url w2). split; [reflexivity|]. split; [exact Hr2|].
      exists [(url, now w2); (url, now w)]. split; [reflexivity|cbn; lia].
    + destruct (Hlast (S n) w) as (r & -> & Hr2).
      { intros res' Hr'. congruence. }
      exists r, (settled E url w). split; [reflexivity|]. split; [exact Hr2|].
      exists [(url, now w)]. split; [reflexivity|cbn; lia].
  - rewrite (ghGET_rounds_failed E (S n) url w Hr).
    eexists _, _. split; [reflexivity|]. split; [discriminate|].
    exists [(url, now w)]. split; [reflexivity|cbn; lia].
Qed.

Lemma throttled_honest url : honestReset Sample.throttled url 1699999990000.
Proof.
  intros t res Ht Hr Hq. exists 1700000000.
  cbn in Hr. destruct (t <? 1700000000000) eqn:Hlt; cbn in Hr;
    injection Hr as <-; [|discriminate Hq].
  split; [reflexivity|].
  split; [unfold TIMEOUT_MAX; cbn; lia|].
  intros t' res' Ht' Hr'. cbn in Hr'.
  destruct (t' <? 1700000000000) eqn:Hlt'; [lia|].
  cbn in Hr'. injection Hr' as <-. reflexivity.
Qed.

Lemma honest_reset_two_rounds_witness :
  exists r w',
    ghGET_rounds Sample.throttled 2 (ApiTopics "o" "r")
      (Sample.idle 1699999990000) = (r, w')
    /\ r <> Hang
    /\ exists reqs, requests w' = reqs ++ [] /\ (1 <= length reqs <= 2)%nat.
Proof.
  refine (honest_reset_two_rounds Sample.throttled 0 (ApiTopics "o" "r")
            (Sample.idle 1699999990000) (throttled_honest _) _).
  unfold timeValue. cbn. lia.
Defined.

(** ** The detector's list of libraries *)

(** The libraries column as the detector can fill it. *)
Lemma rest_detectLayers_libs E fuel owner repo w t w' :
  Rest.detectLayers E fuel owner repo w = (Ret t, w') ->
  exists rtl enzyme : bool,
    Rest.feLibs t
    = pushIf (Rest.hasJest t) "jest"
        (pushIf enzyme "enzyme" (pushIf rtl "testing-library" []))
    /\ Rest.hasFrontendTestLibs t = rtl || enzyme
    /\ (Rest.hasReactDeps t = true -> Rest.hasReact t = true).
Proof.
  unfold Rest.detectLayers. intros H.
  split_bind H as langs w1 Hlangs.
  split_bind H as pkgText w2 Hpkg.
  split_bind H as u w3 Hsay. split_bind H as topics w4 Htopics.
  split_bind H as hasTS w5 Hstep3.
  split_bind H as hasJest w6 Hstep4.
  injection H as <- _.
  cbn [Rest.feLibs Rest.hasJest Rest.hasFrontendTestLibs Rest.hasReactDeps
       Rest.hasReact].
  clear Hsay Hstep3 Hlangs Hpkg Htopics.
  destruct (readManifest E pkgText) as [j|];
    cbn [fmap option_fmap option_map from_option] in *.
  - unfold detectFrontendFromPkg in *.
    cbn [fe_libs fe_hasJest fe_hasFrontendTestLibs] in *.
    set (jest0 := pkgHasAnyDep j _ || scriptsContain j _) in *.
    set (rtl := pkgHasAnyDep j ["@testing-library/react"%string; _; _]) in *.
    set (enz := pkgHasAnyDep j ["enzyme"%string]) in *.
    exists rtl, enz. split; [|split; [reflexivity|]].
    + destruct jest0; cbn [negb] in Hstep4 |- *.
      * injection Hstep4 as <- _. reflexivity.
      * clear Hstep4. destruct hasJest, rtl, enz; vm_compute; reflexivity.
    + intros ->. reflexivity.
  - exists false, false. split; [|split; [reflexivity|discriminate]].
    clear Hstep4. destruct hasJest; vm_compute; reflexivity.
Qed.

(** X7.  The libraries column agrees with the flags of the same row: its
    entries come, in this order and each at most once, from
    [testing-library], [enzyme], [jest] and [test-files]; [jest] is listed
    exactly when the test-runner flag is set; the frontend-test-library
    flag is set exactly when one of the other three is listed; and
    [test-files] is listed only when the manifest named no test utility and
    the scan made the candidate pass. *)
Theorem feLibs_agree_with_flags E fuel owner repo w t w' :
  Rest.detectTech E fuel owner repo w = (Ret t, w') ->
  sublist (Rest.feLibs t)
    ["testing-library"; "enzyme"; "jest"; "test-files"]%string
  /\ (In "jest"%string (Rest.feLibs t) <-> Rest.hasJest t = true)
  /\ (Rest.hasFrontendTestLibs t = true
      <-> In "testing-library"%string (Rest.feLibs t)
          \/ In "enzyme"%string (Rest.feLibs t)
          \/ In "test-files"%string (Rest.feLibs t))
  /\ (In "test-files"%string (Rest.feLibs t) ->
      ~ In "testing-library"%string (Rest.feLibs t)
      /\ ~ In "enzyme"%string (Rest.feLibs t)
      /\ Rest.hasFrontendTests t = true)
  /\ Rest.hasFrontendTests t
     = Rest.hasReact t && Rest.hasJest t && Rest.hasFrontendTestLibs t
  /\ (Rest.hasReactDeps t = true -> Rest.hasReact t = true).
Proof.
  intros H.
  unfold Rest.detectTech in H. split_bind H as t0 w0 Hlayers.
  apply rest_detectLayers_libs in Hlayers as (rtl & enz & Hlibs & Hftl & Hdeps).
  unfold Rest.scanLayer in H. split_bind H as found w1 Hscan.
  injection H as <- _.
  cbn [Rest.feLibs Rest.hasJest Rest.hasFrontendTestLibs Rest.hasReactDeps
       Rest.hasReact Rest.hasFrontendTests].
  assert (found = true -> Rest.scanWanted t0 = true) as Hwanted.
  { intros ->. destruct (Rest.scanWanted t0); [reflexivity|].
    cbv [ret] in Hscan. discriminate Hscan. }
  unfold Rest.scanWanted in Hwanted. rewrite Hlibs, Hftl in *.
  clear Hscan Hlibs Hftl.
  destruct (Rest.hasReact t0), (Rest.hasJest t0), rtl, enz, found;
    try (specialize (Hwanted eq_refl); discriminate Hwanted);
    cbn [pushIf app orb andb negb];
    (split; [solve [repeat first [apply sublist_nil | apply sublist_skip
                                  | apply sublist_cons ] ]|]);
    cbn [In]; intuition (try discriminate; try congruence).
Qed.

Lemma feLibs_agree_with_flags_witness :
  exists t w',
    Rest.detectTech Sample.scanned 3 "acme" "shop" (Sample.idle 0)
    = (Ret t, w')
    /\ Rest.feLibs t = ["jest"; "test-files"]%string
    /\ sublist (Rest.feLibs t)
         ["testing-library"; "enzyme"; "jest"; "test-files"]%string
    /\ Rest.hasJest t = true /\ Rest.hasFrontendTestLibs t = true.
Proof.
  edestruct (feLibs_agree_with_flags Sample.scanned 3 "acme" "shop"
               (Sample.idle 0)) as (H1 & H2 & H3 & _);
    [vm_compute; reflexivity|].
  eexists _, _. split; [vm_compute; reflexivity|].
  split; [reflexivity|]. split; [exact H1|]. split.
  - apply H2. cbn. tauto.
  - apply H3. cbn. tauto.
Defined.

(** X8.  In the revision with the [REQUIRE_FRONTEND_TESTS] switch the libraries
    column lists [testing-library] and [jest], in this order and each at
    most once; [jest] is listed exactly when the test-runner flag is set,
    and the frontend-tests flag is set exactly when the column is not
    empty: a Jest configuration file alone sets it, and React plays no part
    in it. *)
Theorem filtered_feLibs_agree_with_flags E fuel owner repo w t w' :
  Filtered.detectTech E fuel owner repo w = (Ret t, w') ->
  sublist (Filtered.feLibs t) ["testing-library"; "jest"]%string
  /\ (In "jest"%string (Filtered.feLibs t) <-> Filtered.hasJest t = true)
  /\ (Filtered.hasFrontendTests t = true <-> Filtered.feLibs t <> [])
  /\ (Filtered.hasJest t = true -> Filtered.hasFrontendTests t = true).
Proof.
  unfold Filtered.detectTech. intros H.
  split_bind H as langs w1 Hlangs.
  split_bind H as pkgText w2 Hpkg.
  split_bind H as topics w4 Htopics.
  split_bind H as hasTS w5 Hstep3.
  split_bind H as hasJest w6 Hstep4.
  injection H as <- _.
  cbn [Filtered.feLibs Filtered.hasJest Filtered.hasFrontendTests].
  clear Hstep3 Hlangs Hpkg Htopics.
  assert (exists jest0 rtl : bool,
            from_option Filtered.fe_libs []
              (Filtered.detectFrontendFromPkg <$> readManifest E pkgText)
            = pushIf jest0 "jest" (pushIf rtl "testing-library" [])
            /\ from_option Filtered.fe_hasJest false
                 (Filtered.detectFrontendFromPkg <$> readManifest E pkgText)
               = jest0
            /\ from_option Filtered.fe_hasFrontendTests false
                 (Filtered.detectFrontendFromPkg <$> readManifest E pkgText)
               = jest0 || rtl) as (jest0 & rtl & -> & Hj & ->).
  { destruct (readManifest E pkgText) as [j|]; cbn.
    - eexists _, _. repeat split.
    - exists false, false. repeat split. }
  rewrite Hj in *. clear Hj.
  assert (jest0 = true -> hasJest = true) as Hkeep.
  { intros ->. cbv [negb ret] in Hstep4. congruence. }
  clear Hstep4.
  destruct jest0, rtl, hasJest;
    try (specialize (Hkeep eq_refl); discriminate Hkeep);
    (split; [vm_compute;
             solve [repeat first [apply sublist_nil | apply sublist_skip
                                  | apply sublist_cons ] ]|]);
    vm_compute; intuition (try discriminate; try congruence).
Qed.

Lemma filtered_feLibs_agree_with_flags_witness :
  exists t w',
    Filtered.detectTech (Sample.manifestOnly Sample.rtlOnlyPkg) 1 "acme"
      "widgets" (Sample.idle 0) = (Ret t, w')
    /\ Filtered.hasJest t = false
    /\ Filtered.hasFrontendTests t = true
    /\ Filtered.feLibs t <> [].
Proof.
  edestruct (filtered_feLibs_agree_with_flags
               (Sample.manifestOnly Sample.rtlOnlyPkg) 1 "acme" "widgets"
               (Sample.idle 0)) as (_ & _ & H3 & _);
    [vm_compute; reflexivity|].
  eexists _, _. split; [vm_compute; reflexivity|].
  split; [reflexivity|]. split; [reflexivity|].
  apply H3. reflexivity.
Defined.


(** ** Requests per candidate *)

Section Spends.

Context {A B : Type}.

Lemma spends_ret (a : A) : spends 0 (ret a).
Proof. intros w r w' [= _ <-]. exists []. split; [reflexivity|cbn; lia]. Qed.

Lemma spends_le n n' (m : M World A) :
  (n <= n')%nat -> spends n m -> spends n' m.
Proof.
  intros Hle Hm w r w' H. destruct (Hm _ _ _ H) as (l & Hl & Hn).
  exists l. split; [exact Hl|lia].
Qed.

Lemma spends_bind a b (m : M World A) (k : A -> M World B) :
  spends a m -> (forall x, spends b (k x)) -> spends (a + b) (bind m k).
Proof.
  intros Hm Hk w r w' H. unfold bind in H.
  destruct (m w) as [[x|e|] w1] eqn:Hmw;
    destruct (Hm _ _ _ Hmw) as (l1 & Hl1 & Hn1).
  - destruct (Hk x _ _ _ H) as (l2 & Hl2 & Hn2).
    exists (l2 ++ l1). rewrite Hl2, Hl1, app_assoc, length_app.
    split; [reflexivity|lia].
  - injection H as _ <-. exists l1. split; [exact Hl1|lia].
  - injection H as _ <-. exists l1. split; [exact Hl1|lia].
Qed.

Lemma spends_catch a b (m : M World A) (h : Err -> M World A) :
  spends a m -> (forall e, spends b (h e)) -> spends (a + b) (catch m h).
Proof.
  intros Hm Hh w r w' H. unfold catch in H.
  destruct (m w) as [[x|e|] w1] eqn:Hmw;
    destruct (Hm _ _ _ Hmw) as (l1 & Hl1 & Hn1).
  - injection H as _ <-. exists l1. split; [exact Hl1|lia].
  - destruct (Hh e _ _ _ H) as (l2 & Hl2 & Hn2).
    exists (l2 ++ l1). rewrite Hl2, Hl1, app_assoc, length_app.
    split; [reflexivity|lia].
  - injection H as _ <-. exists l1. split; [exact Hl1|lia].
Qed.

End Spends.

Lemma spends_say m : spends 0 (say m).
Proof. intros w r w' [= _ <-]. exists []. split; [reflexivity|cbn; lia]. Qed.

Section SpendsDetector.

Context (E : Env) (fuel : nat).

Hypothesis Hquota : neverExhausted E.
Hypothesis Hfuel : (0 < fuel)%nat.

Lemma spends_ghGET url : spends 1 (ghGET E fuel url).
Proof.
  intros w r w' H.
  destruct (ghGET_settles E fuel Hquota Hfuel url w) as [H'|(res & _ & H')];
    rewrite H' in H; injection H as _ <-;
    exists [(url, now w)]; split; try reflexivity; cbn; lia.
Qed.

Lemma spends_getRepoContent owner repo pathName :
  spends 1 (getRepoContent E fuel owner repo pathName).
Proof.
  unfold getRepoContent. apply (spends_bind 1 0); [apply spends_ghGET|].
  intros r. destruct (unusable r); [apply spends_ret|].
  destruct (g_data r) as [[]|]; try apply spends_ret.
  destruct (_ && _); apply spends_ret.
Qed.

Lemma spends_languages owner repo :
  spends 1 (catch (getRepoLanguages E fuel owner repo)
              (fun _ => ret (BLanguages ∅))).
Proof.
  apply (spends_catch 1 0); [|intros; apply spends_ret].
  unfold getRepoLanguages. apply (spends_bind 1 0); [apply spends_ghGET|].
  intros r. destruct (unusable r); apply spends_ret.
Qed.

Lemma spends_topics owner repo :
  spends 1 (catch (getRepoTopics E fuel owner repo) (fun _ => ret [])).
Proof.
  apply (spends_catch 1 0); [|intros; apply spends_ret].
  unfold getRepoTopics. apply (spends_bind 1 0); [apply spends_ghGET|].
  intros r. destruct (unusable r); [apply spends_ret|].
  destruct (g_data r) as [[]|]; apply spends_ret.
Qed.

Lemma spends_anyTsConfig owner repo (b : bool) :
  spends 2 (if b then anyTsConfig E fuel owner repo else ret false).
Proof.
  destruct b; [|eapply spends_le; [|apply spends_ret]; lia].
  unfold anyTsConfig. apply (spends_bind 1 1); [apply spends_getRepoContent|].
  intros tsconfig. apply (spends_bind 1 0); [|intros; apply spends_ret].
  destruct (nonEmpty tsconfig);
    [eapply spends_le; [|apply spends_ret]; lia|apply spends_getRepoContent].
Qed.

Lemma spends_anyJestConfig owner repo candidates :
  spends (length candidates) (anyJestConfig E fuel owner repo candidates).
Proof.
  induction candidates as [|file rest IH]; cbn [anyJestConfig length];
    [apply spends_ret|].
  apply (spends_bind 1 (length rest)); [apply spends_getRepoContent|].
  intros content. destruct (nonEmpty content); [|exact IH].
  eapply spends_le; [|apply spends_ret]. lia.
Qed.

Lemma spends_rest_detectLayers owner repo :
  spends 10 (Rest.detectLayers E fuel owner repo).
Proof.
  unfold Rest.detectLayers.
  apply (spends_bind 1 9); [apply spends_languages|]. intros langs.
  apply (spends_bind 1 8); [apply spends_getRepoContent|]. intros pkgText.
  apply (spends_bind 0 8).
  { destruct (readManifest E pkgText); [apply spends_say|apply spends_ret]. }
  intros _. apply (spends_bind 1 7); [apply spends_topics|]. intros topics.
  apply (spends_bind 2 5).
  { destruct (negb _); [apply (spends_anyTsConfig _ _ true)|].
    eapply spends_le; [|apply spends_ret]. lia. }
  intros hasTS. apply (spends_bind 5 0); [|intros; apply spends_ret].
  destruct (negb _); [apply spends_anyJestConfig|].
  eapply spends_le; [|apply spends_ret]. lia.
Qed.

Lemma spends_plain_detectTech owner repo :
  spends 10 (Plain.detectTech E fuel owner repo).
Proof.
  unfold Plain.detectTech.
  apply (spends_bind 1 9); [apply spends_languages|]. intros langs.
  apply (spends_bind 1 8); [apply spends_getRepoContent|]. intros pkgText.
  apply (spends_bind 1 7).
  { destruct (negb _); [|eapply spends_le; [|apply spends_ret]; lia].
    apply (spends_bind 1 0); [apply spends_topics|].
    intros; apply spends_ret. }
  intros hasReact. apply (spends_bind 2 5).
  { destruct (negb _); [apply (spends_anyTsConfig _ _ true)|].
    eapply spends_le; [|apply spends_ret]. lia. }
  intros hasTS. apply (spends_bind 5 0); [|intros; apply spends_ret].
  destruct (negb _); [apply spends_anyJestConfig|].
  eapply spends_le; [|apply spends_ret]. lia.
Qed.

Lemma spends_filtered_detectTech owner repo :
  spends 10 (Filtered.detectTech E fuel owner repo).
Proof.
  unfold Filtered.detectTech.
  apply (spends_bind 1 9); [apply spends_languages|]. intros langs.
  apply (spends_bind 1 8); [apply spends_getRepoContent|]. intros pkgText.
  apply (spends_bind 1 7); [apply spends_topics|]. intros topics.
  apply (spends_bind 2 5).
  { destruct (negb _); [apply (spends_anyTsConfig _ _ true)|].
    eapply spends_le; [|apply spends_ret]. lia. }
  intros hasTS. apply (spends_bind 5 0); [|intros; apply spends_ret].
  destruct (negb _); [apply spends_anyJestConfig|].
  eapply spends_le; [|apply spends_ret]. lia.
Qed.

Lemma spends_detectCourseOrBoilerplate owner repo name description topics :
  spends 1
    (detectCourseOrBoilerplate E fuel owner repo name description topics).
Proof.
  unfold detectCourseOrBoilerplate.
  destruct (matchesKeywords _ _ name description topics) as [c b].
  destruct (_ && _); [|eapply spends_le; [|apply spends_ret]; lia].
  apply (spends_bind 1 0); [|intros; apply spends_ret].
  apply (spends_catch 1 0); [|intros; apply spends_ret].
  unfold getRepoReadme. apply (spends_bind 1 0); [apply spends_ghGET|].
  intros r. destruct (unusable r); [apply spends_ret|].
  destruct (g_data r) as [[]|]; try apply spends_ret.
  destruct (_ && _); apply spends_ret.
Qed.

End SpendsDetector.

(** X9.  While the quota is not exhausted, the layers of the detector before
    the source scan cost ten requests at most (languages, manifest, topics,
    two [tsconfig] files, five Jest configuration files), in each revision,
    and the noise filter costs one at most (the README). *)
Theorem detector_request_budget E fuel owner repo :
  neverExhausted E -> (0 < fuel)%nat ->
  spends 10 (Rest.detectLayers E fuel owner repo)
  /\ spends 10 (Plain.detectTech E fuel owner repo)
  /\ spends 10 (Filtered.detectTech E fuel owner repo)
  /\ forall name description topics,
       spends 1
         (detectCourseOrBoilerplate E fuel owner repo name description topics).
Proof.
  intros Hq Hf. repeat split.
  - apply spends_rest_detectLayers; assumption.
  - apply spends_plain_detectTech; assumption.
  - apply spends_filtered_detectTech; assumption.
  - intros. apply spends_detectCourseOrBoilerplate; assumption.
Qed.

Lemma nowhere_neverExhausted : neverExhausted Sample.nowhere.
Proof. intros url t res [= <-]. reflexivity. Qed.

Lemma detector_request_budget_witness :
  exists l,
    requests (snd (Rest.detectLayers Sample.nowhere 1 "o" "r" (Sample.idle 0)))
    = l ++ []
    /\ (length l <= 10)%nat.
Proof.
  exact (proj1 (detector_request_budget Sample.nowhere 1 "o" "r"
                  nowhere_neverExhausted (Nat.lt_0_succ 0))
           _ _ _ (surjective_pairing _)).
Defined.

(** ** A repository that does not exist *)

Section Vanished.

Context (E : Env) (fuel : nat).

Hypothesis Hgone : allNotFound E.
Hypothesis Hfuel : (0 < fuel)%nat.

Lemma ghGET_notFound url w :
  ghGET E fuel url w
  = (Ret {| g_status := 404; g_data := None |}, settled E url w).
Proof.
  destruct (Hgone url (now w)) as (res & Hr & Hs).
  unfold ghGET. destruct fuel as [|n]; [lia|].
  rewrite (ghGET_rounds_conclude E n url w res Hr).
  - unfold conclude. rewrite Hs. reflexivity.
  - unfold quotaExhausted. rewrite Hs. reflexivity.
Qed.

Lemma getRepoContent_notFound owner repo pathName w :
  getRepoContent E fuel owner repo pathName w
  = (Ret None,
     settled E (ApiContents owner repo (Str.encodeURIComponent pathName)) w).
Proof.
  unfold getRepoContent. rewrite (bind_ret_eq _ _ _ _ _ (ghGET_notFound _ _)).
  reflexivity.
Qed.

Lemma languages_notFound owner repo w :
  catch (getRepoLanguages E fuel owner repo) (fun _ => ret (BLanguages ∅)) w
  = (Ret (BLanguages ∅), settled E (ApiLanguages owner repo) w).
Proof.
  unfold catch, getRepoLanguages.
  rewrite (bind_ret_eq _ _ _ _ _ (ghGET_notFound _ _)). reflexivity.
Qed.

Lemma topics_notFound owner repo w :
  catch (getRepoTopics E fuel owner repo) (fun _ => ret []) w
  = (Ret [], settled E (ApiTopics owner repo) w).
Proof.
  unfold catch, getRepoTopics.
  rewrite (bind_ret_eq _ _ _ _ _ (ghGET_notFound _ _)). reflexivity.
Qed.

Lemma anyJestConfig_notFound owner repo candidates w :
  exists w',
    anyJestConfig E fuel owner repo candidates w = (Ret false, w')
    /\ length (requests w') = (length candidates + length (requests w))%nat
    /\ console w' = console w.
Proof.
  revert w. induction candidates as [|file rest IH]; intros w.
  - exists w. repeat split.
  - cbn [anyJestConfig].
    rewrite (bind_ret_eq _ _ _ _ _ (getRepoContent_notFound _ _ _ _)).
    cbn [nonEmpty].
    destruct (IH (settled E (ApiContents owner repo
                               (Str.encodeURIComponent file)) w))
      as (w' & -> & Hn & Hc).
    exists w'. split; [reflexivity|]. cbn [length settled requests console] in *.
    split; [lia|exact Hc].
Qed.

Lemma rest_detectTech_notFound owner repo w :
  exists w',
    Rest.detectTech E fuel owner repo w
    = (Ret {| Rest.hasTS := false; Rest.hasReact := false;
              Rest.hasJest := false; Rest.hasFrontendTests := false;
              Rest.feLibs := []; Rest.topics := [];
              Rest.hasReactDeps := false;
              Rest.hasFrontendTestLibs := false |}, w')
    /\ length (requests w') = (10 + length (requests w))%nat
    /\ console w' = console w.
Proof.
  unfold Rest.detectTech.
  set (w1 := settled E (ApiLanguages owner repo) w).
  set (w2 := settled E (ApiContents owner repo
                          (Str.encodeURIComponent "package.json")) w1).
  set (w3 := settled E (ApiTopics owner repo) w2).
  set (w4 := settled E (ApiContents owner repo
                          (Str.encodeURIComponent "tsconfig.json")) w3).
  set (w5 := settled E (ApiContents owner repo
                          (Str.encodeURIComponent "tsconfig.base.json")) w4).
  destruct (anyJestConfig_notFound owner repo jestConfigCandidates w5)
    as (w' & Hjest & Hn & Hc).
  exists w'. split; [|split].
  - assert (Rest.detectLayers E fuel owner repo w
            = (Ret {| Rest.hasTS := false; Rest.hasReact := false;
                      Rest.hasJest := false; Rest.hasFrontendTests := false;
                      Rest.feLibs := []; Rest.topics := [];
                      Rest.hasReactDeps := false;
                      Rest.hasFrontendTestLibs := false |}, w')) as Hlayers.
    { unfold Rest.detectLayers.
      rewrite (bind_ret_eq _ _ _ _ _ (languages_notFound owner repo w)).
      rewrite (bind_ret_eq _ _ _ _ _
                 (getRepoContent_notFound owner repo "package.json" w1)).
      cbn [readManifest nonEmpty fmap option_fmap option_map from_option
           declaresTypeScript].
      unfold bind at 1. cbn [ret].
      rewrite (bind_ret_eq _ _ _ _ _ (topics_notFound owner repo w2)).
      rewrite lookup_empty. cbn [negb]. unfold anyTsConfig.
      erewrite (bind_ret_eq (bind _ _)).
      2:{ rewrite (bind_ret_eq _ _ _ _ _
                     (getRepoContent_notFound owner repo "tsconfig.json" w3)).
          cbn [nonEmpty].
          rewrite (bind_ret_eq _ _ _ _ _
                     (getRepoContent_notFound owner repo "tsconfig.base.json"
                        w4)).
          reflexivity. }
      cbn [nonEmpty orb negb].
      rewrite (bind_ret_eq _ _ _ _ _ Hjest). reflexivity. }
    rewrite (bind_ret_eq _ _ _ _ _ Hlayers). reflexivity.
  - rewrite Hn. subst w5 w4 w3 w2 w1. cbn. lia.
  - rewrite Hc. reflexivity.
Qed.

End Vanished.

(** X10.  When every request is answered 404, as for a repository that has been
    deleted or renamed, the detector throws nothing: it asks its ten
    questions, prints nothing, and returns every signal false and no
    library. *)
Theorem vanished_repository_has_no_signal E fuel owner repo w :
  allNotFound E -> (0 < fuel)%nat ->
  exists w',
    Rest.detectTech E fuel owner repo w
    = (Ret {| Rest.hasTS := false; Rest.hasReact := false;
              Rest.hasJest := false; Rest.hasFrontendTests := false;
              Rest.feLibs := []; Rest.topics := [];
              Rest.hasReactDeps := false;
              Rest.hasFrontendTestLibs := false |}, w')
    /\ length (requests w') = (10 + length (requests w))%nat
    /\ console w' = console w.
Proof. intros Hg Hf. apply rest_detectTech_notFound; assumption. Qed.

Lemma nowhere_allNotFound : allNotFound Sample.nowhere.
Proof. intros url t. eexists. split; reflexivity. Qed.

Lemma vanished_repository_has_no_signal_witness :
  exists w',
    Rest.detectTech Sample.nowhere 1 "o" "r" (Sample.idle 0)
    = (Ret {| Rest.hasTS := false; Rest.hasReact := false;
              Rest.hasJest := false; Rest.hasFrontendTests := false;
              Rest.feLibs := []; Rest.topics := [];
              Rest.hasReactDeps := false;
              Rest.hasFrontendTestLibs := false |}, w')
    /\ length (requests w') = 10%nat
    /\ console w' = [].
Proof.
  exact (vanished_repository_has_no_signal Sample.nowhere 1 "o" "r"
           (Sample.idle 0) nowhere_allNotFound (Nat.lt_0_succ 0)).
Defined.

(** ** The URLs of the contents API *)

Lemma encode_cons c s :
  Str.encodeURIComponent (String c s)
  = Str.encodeURIComponent (String c "") +:+ Str.encodeURIComponent s.
Proof. cbn [Str.encodeURIComponent]. destruct (Str.unreserved c); reflexivity. Qed.

Lemma encode_char_slash_free c :
  Str.count "/" (Str.encodeURIComponent (String c "")) = 0%nat.
Proof. destruct c as [[] [] [] [] [] [] [] []]; vm_compute; reflexivity. Qed.

Lemma encode_slash_free s : Str.count "/" (Str.encodeURIComponent s) = 0%nat.
Proof.
  induction s as [|c s IH]; [reflexivity|].
  rewrite encode_cons, count_append, encode_char_slash_free, IH. reflexivity.
Qed.

Lemma hexDigit_inj a b :
  (a < 16)%nat -> (b < 16)%nat -> Str.hexDigit a = Str.hexDigit b -> a = b.
Proof.
  unfold Str.hexDigit. intros Ha Hb H.
  apply (f_equal nat_of_ascii) in H.
  destruct (a <? 10)%nat eqn:Ea, (b <? 10)%nat eqn:Eb;
    rewrite !nat_ascii_embedding in H by lia;
    try apply Nat.ltb_lt in Ea; try apply Nat.ltb_lt in Eb;
    try apply Nat.ltb_ge in Ea; try apply Nat.ltb_ge in Eb; lia.
Qed.

Lemma encode_step c s :
  Str.encodeURIComponent (String c s)
  = if Str.unreserved c then String c (Str.encodeURIComponent s)
    else String "%"
           (String (Str.hexDigit (nat_of_ascii c / 16))
              (String (Str.hexDigit (nat_of_ascii c mod 16))
                 (Str.encodeURIComponent s))).
Proof. reflexivity. Qed.

Lemma encode_inj s1 s2 :
  Str.encodeURIComponent s1 = Str.encodeURIComponent s2 -> s1 = s2.
Proof.
  revert s2. induction s1 as [|c1 s1 IH]; intros [|c2 s2] H.
  - reflexivity.
  - cbn in H. destruct (Str.unreserved c2); discriminate H.
  - cbn in H. destruct (Str.unreserved c1); discriminate H.
  - rewrite !encode_step in H.
    destruct (Str.unreserved c1) eqn:U1, (Str.unreserved c2) eqn:U2.
    + injection H as -> H. rewrite (IH _ H). reflexivity.
    + injection H as -> _. discriminate U1.
    + injection H as <- _. discriminate U2.
    + pose proof (nat_ascii_bounded c1) as B1.
      pose proof (nat_ascii_bounded c2) as B2.
      pose proof (Nat.div_mod_eq (nat_of_ascii c1) 16) as D1.
      pose proof (Nat.div_mod_eq (nat_of_ascii c2) 16) as D2.
      assert (nat_of_ascii c1 / 16 < 16)%nat as Hq1
        by (apply Nat.Div0.div_lt_upper_bound; lia).
      assert (nat_of_ascii c2 / 16 < 16)%nat as Hq2
        by (apply Nat.Div0.div_lt_upper_bound; lia).
      assert (nat_of_ascii c1 mod 16 < 16)%nat as Hr1
        by (apply Nat.mod_upper_bound; lia).
      assert (nat_of_ascii c2 mod 16 < 16)%nat as Hr2
        by (apply Nat.mod_upper_bound; lia).
      set (q1 := (nat_of_ascii c1 / 16)%nat) in *.
      set (q2 := (nat_of_ascii c2 / 16)%nat) in *.
      set (r1 := (nat_of_ascii c1 mod 16)%nat) in *.
      set (r2 := (nat_of_ascii c2 mod 16)%nat) in *.
      injection H as Hh Hl H. rewrite (IH _ H).
      apply hexDigit_inj in Hh; [|assumption..].
      apply hexDigit_inj in Hl; [|assumption..].
      assert (nat_of_ascii c1 = nat_of_ascii c2) as Hn by lia.
      apply (f_equal ascii_of_nat) in Hn.
      rewrite !ascii_nat_embedding in Hn. rewrite Hn. reflexivity.
Qed.

(** X11.  [getRepoContent] asks for its path under [contents/] with every slash
    percent-encoded (the scan's directory listings, by contrast, ask for
    the raw path), and it asks for different URLs for different paths. *)
Theorem getRepoContent_urls E fuel owner repo :
  (forall pathName,
     emits (fun url => exists p, url = ApiContents owner repo p
                                 /\ Str.count "/" p = 0%nat)
       (getRepoContent E fuel owner repo pathName))
  /\ (forall pathName other,
        pathName <> other ->
        emits (fun url =>
                 url <> ApiContents owner repo (Str.encodeURIComponent other))
          (getRepoContent E fuel owner repo pathName)).
Proof.
  split.
  - intros pathName. unfold getRepoContent. apply emits_bind.
    + apply emits_ghGET. eexists. split; [reflexivity|apply encode_slash_free].
    + intros r. repeat emits_step.
  - intros pathName other Hne. unfold getRepoContent. apply emits_bind.
    + apply emits_ghGET. intros [= H]. apply Hne, encode_inj, H.
    + intros r. repeat emits_step.
Qed.


(** ** Induction over a run of the driver *)

Lemma ghGET_rounds_data E n url w g w' body :
  ghGET_rounds E n url w = (Ret g, w') ->
  g_data g = Some body ->
  exists t res, reply (net E url t) = Some res /\ json res = Some body.
Proof.
  revert w. induction n as [|n IH]; intros w H Hd; [discriminate H|].
  destruct (reply (net E url (now w))) as [res|] eqn:Hr.
  - destruct (quotaExhausted res) eqn:Hq.
    + rewrite (ghGET_rounds_retry E n url w res Hr Hq) in H.
      eapply IH; eassumption.
    + rewrite (ghGET_rounds_conclude E n url w res Hr Hq) in H.
      exists (now w), res. split; [exact Hr|].
      unfold conclude in H. destruct (status res =? 404).
      { injection H as <- _. discriminate Hd. }
      destruct (negb (ok res)); [discriminate H|].
      injection H as <- _. exact Hd.
  - rewrite (ghGET_rounds_failed E n url w Hr) in H. discriminate H.
Qed.

Lemma searchReposREST_served E fuel q page perPage w total items w' :
  RestMain.searchReposREST E fuel q page perPage w = (Ret (total, items), w') ->
  Forall (servedItem E) items.
Proof.
  unfold RestMain.searchReposREST. intros H. split_bind H as g w1 Hg.
  destruct (unusable g).
  { injection H as _ <- _. constructor. }
  destruct (g_data g) as [[| | | |tc its|]|] eqn:Hd;
    try (injection H as _ <- _; constructor).
  injection H as _ <- _.
  destruct (ghGET_rounds_data _ _ _ _ _ _ _ Hg Hd) as (t & res & Hr & Hj).
  apply Forall_forall. intros it Hin%list_elem_of_In.
  exists q, perPage, page, t, res, tc, its. auto.
Qed.

Section DriverInduction.

Context (E : Env) (fuel : nat).

Import Rest RestMain.

(** A property [I] of the state of [main] that the steps of the driver
    keep: the calls that only move the world, the registration of a
    candidate, the limit flag, the two history variables, and the writing
    of a row (with the limit flag raised when the row fills the quota of
    [MAX_QUALIFIED]), which happens only while the limit flag is down, for an
    item of a search result (all of which are in [V]), with signals that
    the detector has returned and that pass the filters, and which the
    noise filter has let through when the exclusion is on. *)
Context (I : Run Row -> Prop) (V : Item -> Prop).

Hypothesis V_served : forall q page w total items w',
  searchReposREST E fuel q page (BATCH_SIZE E) w = (Ret (total, items), w') ->
  Forall V items.

Hypothesis I_world : forall st st', sameLedger st st' -> I st -> I st'.

Hypothesis I_processed : forall st x,
  I st ->
  I {| processed := {[x]} ∪ processed st;
       totalQualified := totalQualified st; reachedLimit := reachedLimit st;
       csv := csv st; analyzed := analyzed st; pages := pages st;
       world := world st |}.

Hypothesis I_limit : forall st,
  I st ->
  I {| processed := processed st; totalQualified := totalQualified st;
       reachedLimit := true; csv := csv st; analyzed := analyzed st;
       pages := pages st; world := world st |}.

Hypothesis I_analyzed : forall st x,
  I st ->
  I {| processed := processed st; totalQualified := totalQualified st;
       reachedLimit := reachedLimit st; csv := csv st;
       analyzed := x :: analyzed st; pages := pages st; world := world st |}.

Hypothesis I_page : forall st e,
  I st ->
  I {| processed := processed st; totalQualified := totalQualified st;
       reachedLimit := reachedLimit st; csv := csv st;
       analyzed := analyzed st; pages := e :: pages st; world := world st |}.

Hypothesis I_row : forall st it tech,
  I st -> reachedLimit st = false ->
  V it -> detectedAs E fuel it tech ->
  (EXCLUDE_COURSE_BOILERPLATE E = true -> noiseFlag E fuel it tech false) ->
  hasTS tech = true -> hasReact tech = true -> hasFrontendTests tech = true ->
  I {| processed := processed st;
       totalQualified := totalQualified st + 1;
       reachedLimit := totalQualified st + 1 >=? MAX_QUALIFIED E;
       csv := rowOf it tech :: csv st;
       analyzed := analyzed st; pages := pages st; world := world st |}.

(** [I], while the limit flag is down. *)
Let J (st : Run Row) : Prop := I st /\ reachedLimit st = false.

Lemma J_world st st' : sameLedger st st' -> J st -> J st'.
Proof.
  intros Hs [HI Hl]. split; [eapply I_world; eassumption|].
  destruct Hs as (_ & _ & -> & _). exact Hl.
Qed.

Lemma keepOrSkip_steps it tech flag :
  V it -> detectedAs E fuel it tech ->
  noiseFlag E fuel it tech flag ->
  keeps2 J I (keepOrSkip E it tech flag).
Proof.
  intros Hserved Hdet Hflag st r st' [HI Hlim] H. unfold keepOrSkip in H.
  destruct (EXCLUDE_COURSE_BOILERPLATE E && flag) eqn:Hx.
  { unfold bind at 1, lift at 1, say at 1 in H. injection H as _ <-.
    eapply I_world; [|exact HI]. repeat split. }
  destruct (negb (hasTS tech && hasReact tech)) eqn:Htr.
  { unfold bind at 1, lift at 1, say at 1 in H. injection H as _ <-.
    eapply I_world; [|exact HI]. repeat split. }
  destruct (negb (hasFrontendTests tech)) eqn:Hft.
  { unfold bind at 1, lift at 1, say at 1 in H. injection H as _ <-.
    eapply I_world; [|exact HI]. repeat split. }
  apply negb_false_iff in Htr, Hft. apply andb_prop in Htr as [Hts Hr].
  assert (EXCLUDE_COURSE_BOILERPLATE E = true -> noiseFlag E fuel it tech false)
    as Hpass.
  { intros He. rewrite He in Hx. cbn in Hx. subst flag. exact Hflag. }
  pose proof (I_row st it tech HI Hlim Hserved Hdet Hpass Hts Hr Hft) as Hnew.
  revert H Hnew. cbn.
  destruct (totalQualified st + 1 >=? MAX_QUALIFIED E);
    intros [= _ <-] Hnew; (eapply I_world; [|exact Hnew]); repeat split;
    exact Hlim.
Qed.

Lemma forItem_steps it : V it -> keeps2 I I (forItem E fuel it).
Proof.
  intros Hserved st r st' HI H. unfold forItem in H.
  unfold bind at 1 in H. unfold limitOrStop, stopOrLimit in H.
  destruct (reachedLimit st || stopRequestedAt E (now (world st))) eqn:Hstop.
  { injection H as _ <-. exact HI. }
  apply orb_false_elim in Hstop as [Hlim _].
  unfold bind at 1, get at 1 in H.
  destruct (bool_decide (full_name it ∈ processed st)).
  { injection H as _ <-. exact HI. }
  unfold bind at 1, processedAdd at 1 in H.
  unfold bind at 1, get at 1 in H.
  pose proof (I_processed st (full_name it) HI) as HI1.
  destruct (_ && _).
  - injection H as _ <-. eapply I_world; [|apply I_limit, HI1]. repeat split.
  - unfold bind at 1, lift at 1, say at 1 in H. cbn [world] in H.
    unfold bind at 1, noteAnalyzed at 1 in H.
    cbn [processed totalQualified reachedLimit csv analyzed pages world] in H.
    refine (keeps2_catch J I _ _ _ _ _ _ _ _ H).
    + apply (keeps2_bind_lift _ _ (detectedAs E fuel it)).
      * apply J_world.
      * intros s Hs. apply Hs.
      * intros w t w' Ht. exists w, w'. exact Ht.
      * intros tech Hdet.
        apply (keeps2_bind_lift _ _ (noiseFlag E fuel it tech)).
        -- apply J_world.
        -- intros s Hs. apply Hs.
        -- intros w flag w' Hf. exists w, w'. exact Hf.
        -- intros flag Hf. apply keepOrSkip_steps; assumption.
    + intros e. eapply keeps2_same; [|intros; apply keeps2_ret; auto].
      apply keeps2_lift, I_world.
    + split; [|exact Hlim].
      refine (I_world _ _ _ (I_analyzed _ (full_name it) HI1)).
      repeat split.
Qed.

Lemma forItems_steps items :
  Forall V items -> keeps2 I I (forItems E fuel items).
Proof.
  induction items as [|it rest IH]; intros Hall; cbn [forItems].
  - apply keeps2_ret. auto.
  - inversion Hall as [|? ? Hit Hrest]; subst.
    apply keeps2_same; [apply forItem_steps, Hit|].
    intros [|]; [apply IH, Hrest|apply keeps2_ret; auto].
Qed.

Lemma searchTurn_steps q page st res st' :
  I st ->
  catch (r <- lift (searchReposREST E fuel q page (BATCH_SIZE E)) ;;
         ret (Some r))
        (fun e => lift (say (ErrSearch e)) ;;; ret None) st = (res, st') ->
  I st'
  /\ forall total items, res = Ret (Some (total, items)) -> Forall V items.
Proof.
  intros HI H. split.
  - revert H. apply keeps2_catch with (P := I); [| |exact HI].
    + apply keeps2_same; [apply keeps2_lift, I_world|].
      intros; apply keeps2_ret; auto.
    + intros e. apply keeps2_same; [apply keeps2_lift, I_world|].
      intros; apply keeps2_ret; auto.
  - intros total items ->.
    apply catch_ret_inv in H as [H|(e & s1 & _ & H)].
    + split_bind H as r s1 Hl. injection H as -> _.
      apply lift_ret_inv in Hl as [w' Hl].
      eapply V_served, Hl.
    + split_bind H as u s2 Hl. discriminate H.
Qed.

Lemma whilePages_steps n q page : keeps2 I I (whilePages E fuel n q page).
Proof.
  revert page. induction n as [|n IH]; intros page st r st' HI H.
  { injection H as _ <-. exact HI. }
  cbn [whilePages] in H.
  unfold bind at 1 in H. unfold limitOrStop, stopOrLimit in H.
  destruct (reachedLimit st || stopRequestedAt E (now (world st))).
  { injection H as _ <-. exact HI. }
  unfold bind at 1, notePage at 1 in H.
  pose proof (I_page st (Asked q page) HI) as HI1.
  unfold bind at 1 in H.
  match type of H with
  | context [catch ?m ?h ?s] =>
      destruct (catch m h s) as [res st2] eqn:Hc;
      destruct (searchTurn_steps q page _ _ _ HI1 Hc) as [HI2 Hserved]
  end.
  destruct res as [[[total_count items]|]|e|];
    try (injection H as _ <-; exact HI2).
  specialize (Hserved _ _ eq_refl).
  unfold bind at 1, notePage at 1 in H.
  pose proof (I_page st2 (Answered q page total_count) HI2) as HI3.
  revert H. apply keeps2_same with (I := I); [apply keeps2_lift, I_world| |exact HI3].
  intros _. destruct items as [|it items]; [apply keeps2_ret; auto|].
  apply keeps2_same; [apply forItems_steps, Hserved|]. intros _.
  apply keeps2_same; [apply keeps2_still; intros s; eexists; reflexivity|].
  intros [|]; [apply keeps2_ret; auto|].
  destruct (pastLastPage E page total_count).
  - apply keeps2_same; [apply keeps2_lift, I_world|].
    intros; apply keeps2_ret; auto.
  - apply keeps2_same; [apply keeps2_lift, I_world|]. intros _. apply IH.
Qed.

Lemma forQueries_steps qs : keeps2 I I (forQueries E fuel qs).
Proof.
  induction qs as [|q rest IH]; cbn [forQueries]; [apply keeps2_ret; auto|].
  apply keeps2_same; [apply keeps2_still; intros s; eexists; reflexivity|].
  intros [|]; [apply keeps2_ret; auto|].
  apply keeps2_same; [apply keeps2_lift, I_world|]. intros _.
  apply keeps2_same; [apply whilePages_steps|]. intros _.
  apply keeps2_same; [apply keeps2_lift, I_world|]. intros _.
  apply keeps2_same; [apply keeps2_lift, I_world|]. intros _.
  exact IH.
Qed.

Lemma main_steps w r st' :
  I (start w) -> main E fuel (start w) = (r, st') -> I st'.
Proof. intros HI H. eapply forQueries_steps; eassumption. Qed.

End DriverInduction.

(** ** The rows of a run *)

(** X12.  Every row that a run writes is the row of an item that the search API
    has served, with the signals that the detector has returned for that
    item's repository; these signals pass the filters, and when the noise
    exclusion is on the noise filter has let the item through. *)
Theorem rows_come_from_detection E fuel w r st' :
  RestMain.main E fuel (start w) = (r, st') ->
  Forall (fun row =>
            exists it tech,
              row = rowOf it tech /\ servedItem E it
              /\ detectedAs E fuel it tech
              /\ (EXCLUDE_COURSE_BOILERPLATE E = true ->
                  noiseFlag E fuel it tech false)
              /\ Rest.hasTS tech = true /\ Rest.hasReact tech = true
              /\ Rest.hasFrontendTests tech = true)
    (csv st').
Proof.
  apply (main_steps E fuel (fun st => Forall _ (csv st)) (servedItem E)
           (fun q page => searchReposREST_served E fuel q page _)); cbn;
    try (intros; assumption).
  - intros st st0 (_ & _ & _ & -> & _) H. exact H.
  - intros st it tech H _ Hs Hd Hn H1 H2 H3. constructor; [|exact H].
    exists it, tech. auto 10.
  - constructor.
Qed.

Lemma rows_come_from_detection_witness :
  Forall (fun row => exists it tech,
                       row = rowOf it tech
                       /\ servedItem (Sample.catalogue 0) it
                       /\ Rest.hasFrontendTests tech = true)
    (csv (snd (RestMain.main (Sample.catalogue 0) 11
                 (start (Sample.idle 0))))).
Proof.
  eapply Forall_impl;
    [exact (rows_come_from_detection (Sample.catalogue 0) 11 (Sample.idle 0)
              _ _ (surjective_pairing _))|].
  intros row (it & tech & H1 & H2 & _ & _ & _ & _ & H3).
  exists it, tech. auto.
Defined.

(** X13.  The counter of qualified repositories is the number of rows written;
    it never passes [MAX_QUALIFIED], except that the first row is always
    written (a cap of zero or less stops the run after one row, it does
    not lift the cap); and while the limit flag is down the cap has not
    been reached. *)
Theorem qualified_cap E fuel w r st' :
  RestMain.main E fuel (start w) = (r, st') ->
  totalQualified st' = Z.of_nat (length (csv st'))
  /\ Z.of_nat (length (csv st')) <= Z.max 1 (MAX_QUALIFIED E)
  /\ (reachedLimit st' = false ->
      csv st' = [] \/ Z.of_nat (length (csv st')) < MAX_QUALIFIED E).
Proof.
  intros H.
  enough (totalQualified st' = Z.of_nat (length (csv st'))
          /\ totalQualified st' <= Z.max 1 (MAX_QUALIFIED E)
          /\ (reachedLimit st' = false ->
              csv st' = [] \/ totalQualified st' < MAX_QUALIFIED E))
    as (H1 & H2 & H3) by (rewrite <- H1; auto).
  revert H.
  apply (main_steps E fuel
           (fun st => totalQualified st = Z.of_nat (length (csv st))
                      /\ totalQualified st <= Z.max 1 (MAX_QUALIFIED E)
                      /\ (reachedLimit st = false ->
                          csv st = [] \/ totalQualified st < MAX_QUALIFIED E))
           (fun _ => True));
    cbn; try (intros; assumption).
  - intros. apply Forall_forall. auto.
  - intros st st0 (_ & -> & -> & -> & _) H. exact H.
  - intros st (H1 & H2 & _). repeat split; auto. discriminate.
  - intros st it tech (H1 & H2 & H3) Hlim _ _ _ _ _ _.
    specialize (H3 Hlim). split; [lia|]. split.
    + destruct H3 as [H3|H3]; [rewrite H3 in H1; cbn in H1|]; lia.
    + intros Hge. right. rewrite Z.geb_leb in Hge. apply Z.leb_gt in Hge.
      exact Hge.
  - split; [reflexivity|]. split; [lia|]. left. reflexivity.
Qed.

Lemma qualified_cap_witness :
  Z.of_nat (length (csv (snd (RestMain.main (Sample.catalogue 0) 11
                                (start (Sample.idle 0))))))
  <= 1000.
Proof.
  exact (proj1 (proj2 (qualified_cap (Sample.catalogue 0) 11 (Sample.idle 0)
                         _ _ (surjective_pairing _)))).
Defined.

(** ** How a run ends *)

Section Throwing.

Context {S A B : Type}.

Lemma completes_throwsNothing (m : M S A) : completes m -> throwsNothing m.
Proof. intros Hm s e s' H. destruct (Hm s) as (a & s1 & Ha). congruence. Qed.

Lemma throwsNothing_ret (a : A) : throwsNothing (ret a : M S A).
Proof. intros s e s'. discriminate. Qed.

Lemma throwsNothing_hang : throwsNothing (hang : M S A).
Proof. intros s e s'. discriminate. Qed.

Lemma throwsNothing_bind (m : M S A) (k : A -> M S B) :
  throwsNothing m -> (forall a, throwsNothing (k a)) ->
  throwsNothing (bind m k).
Proof.
  intros Hm Hk s e s' H. unfold bind in H.
  destruct (m s) as [[a|e0|] s1] eqn:Hms.
  - eapply Hk, H.
  - eapply Hm, Hms.
  - discriminate H.
Qed.

Lemma throwsNothing_catch (m : M S A) (h : Err -> M S A) :
  (forall e, throwsNothing (h e)) -> throwsNothing (catch m h).
Proof.
  intros Hh s e s' H. unfold catch in H.
  destruct (m s) as [[a|e0|] s1]; try discriminate H. eapply Hh, H.
Qed.

End Throwing.

Lemma completes_lift_say {R} m : completes (lift (R := R) (say m)).
Proof. intros st. eexists _, _. reflexivity. Qed.

Lemma completes_lift_sleep {R} ms : completes (lift (R := R) (sleep ms)).
Proof. intros st. eexists _, _. reflexivity. Qed.

Lemma completes_stopOrLimit {R} E : completes (stopOrLimit (R := R) E).
Proof. intros st. eexists _, _. reflexivity. Qed.

Lemma completes_notePage {R} e : completes (notePage (R := R) e).
Proof. intros st. eexists _, _. reflexivity. Qed.

Section DriverThrows.

Context (E : Env) (fuel : nat).

Import Rest RestMain.

Lemma throwsNothing_forItems items : throwsNothing (forItems E fuel items).
Proof.
  induction items as [|it rest IH]; cbn [forItems];
    [apply throwsNothing_ret|].
  apply throwsNothing_bind.
  - intros st e st' H. eapply rest_forItem_never_throws, H.
  - intros [|]; [exact IH|apply throwsNothing_ret].
Qed.

Lemma throwsNothing_whilePages n q page :
  throwsNothing (whilePages E fuel n q page).
Proof.
  revert page. induction n as [|n IH]; intros page; cbn [whilePages];
    [apply throwsNothing_hang|].
  apply throwsNothing_bind;
    [apply completes_throwsNothing, completes_stopOrLimit|].
  intros [|]; [apply throwsNothing_ret|].
  apply throwsNothing_bind;
    [apply completes_throwsNothing, completes_notePage|]. intros _.
  apply throwsNothing_bind.
  { apply throwsNothing_catch. intros e. apply throwsNothing_bind;
      [apply completes_throwsNothing, completes_lift_say|].
    intros _. apply throwsNothing_ret. }
  intros [[total_count items]|]; [|apply throwsNothing_ret].
  apply throwsNothing_bind;
    [apply completes_throwsNothing, completes_notePage|]. intros _.
  apply throwsNothing_bind;
    [apply completes_throwsNothing, completes_lift_say|]. intros _.
  destruct items as [|it items]; [apply throwsNothing_ret|].
  apply throwsNothing_bind; [apply throwsNothing_forItems|]. intros _.
  apply throwsNothing_bind;
    [apply completes_throwsNothing, completes_stopOrLimit|].
  intros [|]; [apply throwsNothing_ret|].
  destruct (pastLastPage E page total_count).
  - apply throwsNothing_bind;
      [apply completes_throwsNothing, completes_lift_say|].
    intros _. apply throwsNothing_ret.
  - apply throwsNothing_bind;
      [apply completes_throwsNothing, completes_lift_sleep|].
    intros _. apply IH.
Qed.

Lemma throwsNothing_forQueries qs : throwsNothing (forQueries E fuel qs).
Proof.
  induction qs as [|q rest IH]; cbn [forQueries]; [apply throwsNothing_ret|].
  apply throwsNothing_bind;
    [apply completes_throwsNothing, completes_stopOrLimit|].
  intros [|]; [apply throwsNothing_ret|].
  apply throwsNothing_bind;
    [apply completes_throwsNothing, completes_lift_say|]. intros _.
  apply throwsNothing_bind; [apply throwsNothing_whilePages|]. intros _.
  apply throwsNothing_bind;
    [apply completes_throwsNothing, completes_lift_say|]. intros _.
  apply throwsNothing_bind;
    [apply completes_throwsNothing, completes_lift_sleep|]. intros _.
  exact IH.
Qed.

End DriverThrows.

(** X14.  A run of [main] never ends with an exception, from whatever state and
    whatever the network does: a failed search ends the query, a failed
    analysis ends the candidate.  The handler of fatal errors at the end of
    the script is there for nothing that the network can cause. *)
Theorem main_throws_nothing E fuel : throwsNothing (RestMain.main E fuel).
Proof. apply throwsNothing_forQueries. Qed.

(** ** Termination of a run *)

Section Ending.

Context {S A B : Type}.

Lemma completes_ret (a : A) : completes (ret a : M S A).
Proof. intros s. eexists _, _. reflexivity. Qed.

Lemma completes_bind (m : M S A) (k : A -> M S B) :
  completes m -> (forall a, completes (k a)) -> completes (bind m k).
Proof.
  intros Hm Hk s. unfold bind. destruct (Hm s) as (a & s1 & ->). apply Hk.
Qed.

Lemma completes_settles (m : M S A) : completes m -> settles m.
Proof. intros Hm s. destruct (Hm s) as (a & s1 & ->). discriminate. Qed.

Lemma settles_bind (m : M S A) (k : A -> M S B) :
  settles m -> (forall a, settles (k a)) -> settles (bind m k).
Proof.
  intros Hm Hk s. unfold bind. specialize (Hm s).
  destruct (m s) as [[a|e|] s1]; cbn in *; [apply Hk|discriminate|congruence].
Qed.

Lemma completes_catch (m : M S A) (h : Err -> M S A) :
  settles m -> (forall e, completes (h e)) -> completes (catch m h).
Proof.
  intros Hm Hh s. unfold catch. specialize (Hm s).
  destruct (m s) as [[a|e|] s1]; cbn in *; [eauto|apply Hh|congruence].
Qed.

End Ending.

Lemma settles_lift {R A} (m : M World A) :
  halts m -> settles (lift (R := R) m).
Proof.
  intros Hm st. unfold lift. specialize (Hm (world st)).
  destruct (m (world st)) as [r w']. exact Hm.
Qed.

Lemma completes_lift {R A} (m : M World A) :
  returns m -> completes (lift (R := R) m).
Proof.
  intros Hm st. unfold lift. destruct (Hm (world st)) as (a & w' & ->).
  eexists _, _. reflexivity.
Qed.

Section Terminating.

Context (E : Env) (fuel : nat).

Hypothesis Hquota : neverExhausted E.
Hypothesis Hpaths : forall owner repo, pathsDeepen E owner repo.
Hypothesis Hfuel : (3 <= fuel)%nat.

Import Rest RestMain.

Let Hfuel0 : (0 < fuel)%nat := Nat.lt_le_trans _ _ _ (Nat.lt_0_succ 2) Hfuel.

Lemma halts_content owner repo pathName :
  halts (getRepoContent E fuel owner repo pathName).
Proof. apply halts_getRepoContent; assumption. Qed.

Lemma returns_languages owner repo :
  returns (catch (getRepoLanguages E fuel owner repo)
             (fun _ => ret (BLanguages ∅))).
Proof.
  apply returns_absorbing. unfold getRepoLanguages.
  apply halts_bind; [apply halts_ghGET; assumption|].
  intros r. destruct (unusable r); apply halts_ret.
Qed.

Lemma returns_topics owner repo :
  returns (catch (getRepoTopics E fuel owner repo) (fun _ => ret [])).
Proof.
  apply returns_absorbing. unfold getRepoTopics.
  apply halts_bind; [apply halts_ghGET; assumption|].
  intros r. destruct (unusable r); [apply halts_ret|].
  destruct (g_data r) as [[]|]; apply halts_ret.
Qed.

Lemma halts_anyTsConfig owner repo : halts (anyTsConfig E fuel owner repo).
Proof.
  unfold anyTsConfig. apply halts_bind; [apply halts_content|].
  intros tsconfig. apply halts_bind; [|intros; apply halts_ret].
  destruct (nonEmpty tsconfig); [apply halts_ret|apply halts_content].
Qed.

Lemma halts_anyJestConfig owner repo candidates :
  halts (anyJestConfig E fuel owner repo candidates).
Proof.
  induction candidates as [|file rest IH]; cbn [anyJestConfig];
    [apply halts_ret|].
  apply halts_bind; [apply halts_content|].
  intros content. destruct (nonEmpty content); [apply halts_ret|exact IH].
Qed.

Lemma halts_detectLayers owner repo : halts (detectLayers E fuel owner repo).
Proof.
  unfold detectLayers.
  apply halts_bind; [apply returns_halts, returns_languages|]. intros langs.
  apply halts_bind; [apply halts_content|]. intros pkgText.
  apply halts_bind.
  { destruct (readManifest E pkgText); [apply halts_say|apply halts_ret]. }
  intros _. apply halts_bind; [apply returns_halts, returns_topics|].
  intros topics. apply halts_bind.
  { destruct (negb _); [apply halts_anyTsConfig|apply halts_ret]. }
  intros hasTS. apply halts_bind; [|intros; apply halts_ret].
  destruct (negb _); [apply halts_anyJestConfig|apply halts_ret].
Qed.

Lemma returns_searchPatterns owner repo found patterns :
  returns (searchPatterns E fuel owner repo found patterns).
Proof.
  revert found. induction patterns as [|p rest IH]; intros found;
    cbn [searchPatterns]; [apply returns_ret|].
  destruct found; [apply returns_ret|].
  apply returns_bind; [|intros b; apply IH].
  apply patternTurn_returns; auto.
Qed.

Lemma returns_scanLayer owner repo t :
  returns (scanLayer E fuel owner repo t).
Proof.
  unfold scanLayer. apply returns_bind; [|intros; apply returns_ret].
  destruct (scanWanted t); [|apply returns_ret].
  apply returns_bind; [intros w; eexists _, _; reflexivity|]. intros _.
  intros w. unfold catch, bind at 1, searchForTestFiles.
  destruct (returns_searchPatterns owner repo false testPatterns w)
    as (b & w1 & ->).
  destruct b; eexists _, _; reflexivity.
Qed.

Lemma halts_detectTech owner repo : halts (detectTech E fuel owner repo).
Proof.
  unfold detectTech. apply halts_bind; [apply halts_detectLayers|].
  intros t. apply returns_halts, returns_scanLayer.
Qed.

Lemma returns_noise owner repo name description topics :
  returns (detectCourseOrBoilerplate E fuel owner repo name description topics).
Proof.
  unfold detectCourseOrBoilerplate.
  destruct (matchesKeywords _ _ name description topics) as [c b].
  destruct (_ && _); [|apply returns_ret].
  apply returns_bind; [|intros; apply returns_ret].
  apply returns_absorbing. unfold getRepoReadme.
  apply halts_bind; [apply halts_ghGET; assumption|].
  intros r. destruct (unusable r); [apply halts_ret|].
  destruct (g_data r) as [[]|]; try apply halts_ret.
  destruct (_ && _); apply halts_ret.
Qed.

Lemma halts_searchReposREST q page perPage :
  halts (searchReposREST E fuel q page perPage).
Proof.
  unfold searchReposREST. apply halts_bind; [apply halts_ghGET; assumption|].
  intros r. destruct (unusable r); [apply halts_ret|].
  destruct (g_data r) as [[]|]; apply halts_ret.
Qed.

Lemma completes_keepOrSkip it tech flag :
  completes (keepOrSkip E it tech flag).
Proof.
  unfold keepOrSkip.
  destruct (_ && _);
    [apply completes_bind; [apply completes_lift_say|];
     intros; apply completes_ret|].
  destruct (negb (_ && _));
    [apply completes_bind; [apply completes_lift_say|];
     intros; apply completes_ret|].
  destruct (negb _);
    [apply completes_bind; [apply completes_lift_say|];
     intros; apply completes_ret|].
  apply completes_bind; [intros st; eexists _, _; reflexivity|]. intros _.
  apply completes_bind; [intros st; eexists _, _; reflexivity|]. intros total.
  apply completes_bind; [apply completes_lift_say|]. intros _.
  destruct (total >=? MAX_QUALIFIED E); [|apply completes_ret].
  apply completes_bind; [apply completes_lift_say|]. intros _.
  apply completes_bind; [intros st; eexists _, _; reflexivity|]. intros _.
  apply completes_ret.
Qed.

Lemma completes_forItem it : completes (forItem E fuel it).
Proof.
  unfold forItem.
  apply completes_bind; [apply completes_stopOrLimit|].
  intros [|]; [apply completes_ret|].
  apply completes_bind; [intros st; eexists _, _; reflexivity|].
  intros [|]; [apply completes_ret|].
  apply completes_bind; [intros st; eexists _, _; reflexivity|]. intros _.
  apply completes_bind; [intros st; eexists _, _; reflexivity|]. intros size.
  destruct (_ && _).
  - apply completes_bind; [apply completes_lift_say|]. intros _.
    apply completes_bind; [intros st; eexists _, _; reflexivity|]. intros _.
    apply completes_ret.
  - apply completes_bind; [apply completes_lift_say|]. intros _.
    apply completes_bind; [intros st; eexists _, _; reflexivity|]. intros _.
    apply completes_catch.
    + apply settles_bind; [apply settles_lift, halts_detectTech|].
      intros tech. apply settles_bind.
      * apply settles_lift, returns_halts, returns_noise.
      * intros flag. apply completes_settles, completes_keepOrSkip.
    + intros e. apply completes_bind; [apply completes_lift_say|].
      intros _. apply completes_ret.
Qed.

Lemma completes_forItems items : completes (forItems E fuel items).
Proof.
  induction items as [|it rest IH]; cbn [forItems]; [apply completes_ret|].
  apply completes_bind; [apply completes_forItem|].
  intros [|]; [exact IH|apply completes_ret].
Qed.

Hypothesis Hbatch : 0 < BATCH_SIZE E.

Lemma completes_whilePages n q page :
  (1 <= n)%nat ->
  ceilDiv 1000 (BATCH_SIZE E) - page + 1 <= Z.of_nat n ->
  completes (whilePages E fuel n q page).
Proof.
  revert page. induction n as [|n IH]; intros page Hn Hm; [lia|].
  cbn [whilePages].
  apply completes_bind; [apply completes_stopOrLimit|].
  intros [|]; [apply completes_ret|].
  apply completes_bind; [apply completes_notePage|]. intros _.
  apply completes_bind.
  { apply completes_catch.
    - apply settles_bind; [apply settles_lift, halts_searchReposREST|].
      intros r. apply completes_settles, completes_ret.
    - intros e. apply completes_bind; [apply completes_lift_say|].
      intros _. apply completes_ret. }
  intros [[total_count items]|]; [|apply completes_ret].
  apply completes_bind; [apply completes_notePage|]. intros _.
  apply completes_bind; [apply completes_lift_say|]. intros _.
  destruct items as [|it items]; [apply completes_ret|].
  apply completes_bind; [apply completes_forItems|]. intros _.
  apply completes_bind; [apply completes_stopOrLimit|].
  intros [|]; [apply completes_ret|].
  destruct (pastLastPage E page total_count) eqn:Hlast.
  - apply completes_bind; [apply completes_lift_say|].
    intros _. apply completes_ret.
  - apply completes_bind; [apply completes_lift_sleep|]. intros _.
    unfold pastLastPage in Hlast.
    destruct (BATCH_SIZE E =? 0) eqn:Hz; [apply Z.eqb_eq in Hz; lia|].
    rewrite Z.geb_leb in Hlast. apply Z.leb_gt in Hlast.
    pose proof (ceilDiv_mono (Z.min total_count 1000) 1000 _ Hbatch
                  (Z.le_min_r _ _)).
    apply IH; lia.
Qed.

Hypothesis Hpages : ceilDiv 1000 (BATCH_SIZE E) <= Z.of_nat fuel.

Lemma completes_forQueries qs : completes (forQueries E fuel qs).
Proof.
  induction qs as [|q rest IH]; cbn [forQueries]; [apply completes_ret|].
  apply completes_bind; [apply completes_stopOrLimit|].
  intros [|]; [apply completes_ret|].
  apply completes_bind; [apply completes_lift_say|]. intros _.
  apply completes_bind; [apply completes_whilePages; lia|]. intros _.
  apply completes_bind; [apply completes_lift_say|]. intros _.
  apply completes_bind; [apply completes_lift_sleep|]. intros _.
  exact IH.
Qed.

End Terminating.

(** X15.  A run ends: when no response reports the quota exhausted, the
    listings of the contents API lie deeper than the directories listed,
    and the page size is positive, [main] returns from every state, given
    three levels of directories for the scan and
    [ceil(1000 / BATCH_SIZE)] pages for each query. *)
Theorem main_terminates E fuel st :
  neverExhausted E ->
  (forall owner repo, pathsDeepen E owner repo) ->
  0 < BATCH_SIZE E ->
  (3 <= fuel)%nat ->
  ceilDiv 1000 (BATCH_SIZE E) <= Z.of_nat fuel ->
  exists st', RestMain.main E fuel st = (Ret tt, st').
Proof.
  intros Hq Hp Hb Hf Hg.
  destruct (completes_forQueries E fuel Hq Hp Hf Hb Hg (queries E) st)
    as ([] & st' & H).
  exists st'. exact H.
Qed.

(** ** The budget of search calls *)

Lemma keeps2_weaken {R A} (P Q Q' : Run R -> Prop) (m : M (Run R) A) :
  keeps2 P Q m -> (forall st, Q st -> Q' st) -> keeps2 P Q' m.
Proof. intros Hm HQ st r st' HP H. eapply HQ, Hm; eassumption. Qed.

Lemma ceilDiv_positive a b : 0 < a -> 0 < b -> 1 <= ceilDiv a b.
Proof.
  intros Ha Hb. unfold ceilDiv.
  assert (- a / b < 0) by (apply Z.div_lt_upper_bound; lia). lia.
Qed.

Section SearchBudget.

Context (E : Env) (fuel : nat).

Hypothesis Hbatch : 0 < BATCH_SIZE E.

Import Rest RestMain.

(** At most [x] pages have been asked for. *)
Let asked (x : Z) (st : Run Row) : Prop :=
  Z.of_nat (askedPages (pages st)) <= x.

Lemma asked_world x st st' : sameLedger st st' -> asked x st -> asked x st'.
Proof. intros (_ & _ & _ & _ & _ & Hp). unfold asked. rewrite Hp. auto. Qed.

Lemma asked_forItems x items :
  keeps2 (asked x) (asked x) (forItems E fuel items).
Proof.
  apply (forItems_steps E fuel (asked x) (fun _ => True));
    try (intros; assumption).
  - apply asked_world.
  - apply Forall_forall. auto.
Qed.

Lemma asked_still {A} x (m : M (Run Row) A) :
  (forall st, exists a, m st = (Ret a, st)) -> keeps2 (asked x) (asked x) m.
Proof. apply keeps2_still. Qed.

Lemma asked_whilePages n q page x :
  keeps2 (asked x)
    (asked (x + Z.max 1 (ceilDiv 1000 (BATCH_SIZE E) - page + 1)))
    (whilePages E fuel n q page).
Proof.
  revert page x. induction n as [|n IH]; intros page x; cbn [whilePages].
  { intros st r st' Hx [= _ <-]. unfold asked in *. lia. }
  set (y := x + Z.max 1 (ceilDiv 1000 (BATCH_SIZE E) - page + 1)).
  assert (forall st, asked x st -> asked y st) as Hxy.
  { unfold asked, y. intros st Hx. lia. }
  assert (forall st, asked (x + 1) st -> asked y st) as Hx1y.
  { unfold asked, y. intros st Hx. lia. }
  eapply keeps2_bind;
    [apply asked_still; intros st; eexists; reflexivity|exact Hxy|].
  intros [|]; [apply keeps2_ret, Hxy|].
  eapply keeps2_bind with (Q := asked (x + 1)); [|exact Hx1y|].
  { intros st r st' Hx [= _ <-]. unfold asked in *. cbn.
    unfold askedPages in *. cbn [List.filter length]. lia. }
  intros _.
  eapply keeps2_bind with (Q := asked (x + 1)); [|exact Hx1y|].
  { apply keeps2_catch.
    - eapply keeps2_bind with (Q := asked (x + 1)); [|auto|].
      + apply keeps2_lift, asked_world.
      + intros a. apply keeps2_ret. auto.
    - intros e. eapply keeps2_bind with (Q := asked (x + 1)); [|auto|].
      + apply keeps2_lift, asked_world.
      + intros a. apply keeps2_ret. auto. }
  intros [[total_count items]|]; [|apply keeps2_ret, Hx1y].
  eapply keeps2_bind with (Q := asked (x + 1)); [|exact Hx1y|].
  { intros st r st' Hx [= _ <-]. exact Hx. }
  intros _.
  eapply keeps2_bind with (Q := asked (x + 1)); [|exact Hx1y|];
    [apply keeps2_lift, asked_world|].
  intros _. destruct items as [|it items]; [apply keeps2_ret, Hx1y|].
  eapply keeps2_bind with (Q := asked (x + 1)); [|exact Hx1y|];
    [apply asked_forItems|].
  intros _.
  eapply keeps2_bind with (Q := asked (x + 1)); [|exact Hx1y|];
    [apply asked_still; intros st; eexists; reflexivity|].
  intros [|]; [apply keeps2_ret, Hx1y|].
  destruct (pastLastPage E page total_count) eqn:Hlast.
  - eapply keeps2_bind with (Q := asked (x + 1)); [|exact Hx1y|];
      [apply keeps2_lift, asked_world|].
    intros _. apply keeps2_ret, Hx1y.
  - eapply keeps2_bind with (Q := asked (x + 1)); [|exact Hx1y|];
      [apply keeps2_lift, asked_world|].
    intros _. eapply keeps2_weaken; [apply IH|].
    unfold pastLastPage in Hlast.
    destruct (BATCH_SIZE E =? 0) eqn:Hz; [apply Z.eqb_eq in Hz; lia|].
    rewrite Z.geb_leb in Hlast. apply Z.leb_gt in Hlast.
    pose proof (ceilDiv_mono (Z.min total_count 1000) 1000 _ Hbatch
                  (Z.le_min_r _ _)).
    unfold asked, y. intros st Hst. lia.
Qed.

Lemma asked_forQueries qs x :
  keeps2 (asked x)
    (asked (x + Z.of_nat (length qs) * ceilDiv 1000 (BATCH_SIZE E)))
    (forQueries E fuel qs).
Proof.
  pose proof (ceilDiv_positive 1000 _ ltac:(lia) Hbatch) as Hpos.
  revert x. induction qs as [|q rest IH]; intros x; cbn [forQueries].
  { apply keeps2_ret. unfold asked. intros st Hst. cbn [length]. lia. }
  set (y := x + Z.of_nat (length (q :: rest)) * _).
  assert (forall z st, z <= y -> asked z st -> asked y st) as Hy.
  { unfold asked. intros z st Hz Hst. lia. }
  assert (x + ceilDiv 1000 (BATCH_SIZE E) <= y) as Hstep.
  { unfold y. cbn [length]. nia. }
  eapply keeps2_bind with (Q := asked x);
    [apply asked_still; intros st; eexists; reflexivity
    |intros st; apply Hy; lia|].
  intros [|]; [apply keeps2_ret; intros st; apply Hy; lia|].
  eapply keeps2_bind with (Q := asked x);
    [apply keeps2_lift, asked_world|intros st; apply Hy; lia|].
  intros _.
  eapply keeps2_bind
    with (Q := asked (x + ceilDiv 1000 (BATCH_SIZE E)));
    [|intros st; apply Hy; lia|].
  { eapply keeps2_weaken; [apply (asked_whilePages fuel q 1 x)|].
    unfold asked. intros st Hst. lia. }
  intros _.
  eapply keeps2_bind with (Q := asked (x + ceilDiv 1000 (BATCH_SIZE E)));
    [apply keeps2_lift, asked_world|intros st; apply Hy; lia|].
  intros _.
  eapply keeps2_bind with (Q := asked (x + ceilDiv 1000 (BATCH_SIZE E)));
    [apply keeps2_lift, asked_world|intros st; apply Hy; lia|].
  intros _. eapply keeps2_weaken; [apply IH|].
  unfold asked, y. intros st Hst. cbn [length]. nia.
Qed.

End SearchBudget.

(** X16.  With a positive page size a run calls the search API for at most
    [ceil(1000 / BATCH_SIZE)] pages for each query: sixty queries of ten
    pages under the default configuration. *)
Theorem search_budget E fuel w r st' :
  0 < BATCH_SIZE E ->
  RestMain.main E fuel (start w) = (r, st') ->
  Z.of_nat (askedPages (pages st'))
  <= Z.of_nat (length (queries E)) * ceilDiv 1000 (BATCH_SIZE E).
Proof.
  intros Hb H.
  refine (asked_forQueries E fuel Hb (queries E) 0 _ _ _ _ H).
  cbn. lia.
Qed.

Lemma search_budget_witness :
  Z.of_nat (askedPages (pages (snd (RestMain.main (Sample.catalogue 0) 11
                                      (start (Sample.idle 0))))))
  <= 20.
Proof.
  exact (search_budget (Sample.catalogue 0) 11 (Sample.idle 0) _ _ eq_refl
           (surjective_pairing _)).
Defined.

Lemma catalogue_neverExhausted cap : neverExhausted (Sample.catalogue cap).
Proof.
  intros url t res H. cbn in H. unfold Sample.searchNet, Sample.tableNet in H.
  destruct url; try destruct (Sample.find _ _); injection H as <-;
    reflexivity.
Qed.

Lemma catalogue_pathsDeepen cap owner repo :
  pathsDeepen (Sample.catalogue cap) owner repo.
Proof.
  intros path t res entries H Hj.
  exact (scanned_pathsDeepen owner repo path t res entries H Hj).
Qed.

Lemma main_terminates_witness :
  exists st',
    RestMain.main (Sample.catalogue 0) 11 (start (Sample.idle 0))
    = (Ret tt, st').
Proof.
  apply main_terminates.
  - apply catalogue_neverExhausted.
  - apply catalogue_pathsDeepen.
  - reflexivity.
  - lia.
  - vm_compute. discriminate.
Defined.


(** ** The concurrency limiter *)

Section LimiterFacts.

Context {T : Type}.

Implicit Types (l : Limiter.t T) (es : list (Limiter.event T)).

(** The tasks, in the order of their [add]: those started, then those
    waiting. *)
Let tasks l : list T := rev (Limiter.started l) ++ Limiter.queue l.

Lemma tryNext_tasks l : tasks (Limiter.tryNext l) = tasks l.
Proof.
  unfold Limiter.tryNext, tasks. destruct (Limiter.full l); [reflexivity|].
  destruct (Limiter.queue l) as [|fn rest] eqn:Hq; [rewrite Hq; reflexivity|].
  cbn. rewrite <- app_assoc. reflexivity.
Qed.

Lemma tryNext_balance l :
  Limiter.running (Limiter.tryNext l) - Z.of_nat (length (Limiter.started (Limiter.tryNext l)))
  = Limiter.running l - Z.of_nat (length (Limiter.started l)).
Proof.
  unfold Limiter.tryNext. destruct (Limiter.full l); [reflexivity|].
  destruct (Limiter.queue l) as [|fn rest]; [reflexivity|].
  cbn [Limiter.running Limiter.started length]. lia.
Qed.

Lemma tryNext_limit l : Limiter.limit (Limiter.tryNext l) = Limiter.limit l.
Proof.
  unfold Limiter.tryNext. destruct (Limiter.full l); [reflexivity|].
  destruct (Limiter.queue l); reflexivity.
Qed.

Lemma run_order es l l' :
  Limiter.run es l = Some l' ->
  tasks l' = tasks l ++ Limiter.added es
  /\ Limiter.running l' - Z.of_nat (length (Limiter.started l'))
     = Limiter.running l - Z.of_nat (length (Limiter.started l))
       - Limiter.settled es
  /\ Limiter.limit l' = Limiter.limit l.
Proof.
  revert l. induction es as [|[fn|] es IH]; intros l H.
  - injection H as <-. rewrite app_nil_r. cbn. repeat split. lia.
  - cbn [Limiter.run] in H. destruct (IH _ H) as (H1 & H2 & H3).
    unfold Limiter.add in H1, H2, H3.
    rewrite tryNext_tasks in H1. rewrite tryNext_balance in H2.
    rewrite tryNext_limit in H3.
    split; [|split; [exact H2|exact H3]].
    rewrite H1. unfold tasks. cbn. rewrite <- !app_assoc. reflexivity.
  - cbn [Limiter.run] in H. destruct (0 <? Limiter.running l); [|discriminate].
    destruct (IH _ H) as (H1 & H2 & H3).
    unfold Limiter.settle in H1, H2, H3.
    rewrite tryNext_tasks in H1. rewrite tryNext_balance in H2.
    rewrite tryNext_limit in H3.
    split; [exact H1|split; [|exact H3]].
    cbn [Limiter.running Limiter.started Limiter.settled] in *. lia.
Qed.

(** The slots are respected and never left idle. *)
Let fair (n : Z) l : Prop :=
  0 <= Limiter.running l <= Z.max 0 n
  /\ (Limiter.queue l <> [] -> n <= Limiter.running l).

Lemma tryNext_fair n l :
  Limiter.limit l = Some n ->
  0 <= Limiter.running l <= Z.max 0 n ->
  (n <= Limiter.running l
   \/ match Limiter.queue l with [] | [_] => True | _ => False end) ->
  fair n (Limiter.tryNext l).
Proof.
  intros Hl Hr Hq. unfold Limiter.tryNext, Limiter.full, fair. rewrite Hl.
  destruct (Limiter.running l >=? n) eqn:Hge.
  - apply Z.geb_le in Hge. split; [exact Hr|]. intros _. lia.
  - rewrite Z.geb_leb in Hge. apply Z.leb_gt in Hge.
    destruct (Limiter.queue l) as [|fn [|fn' rest]] eqn:Hqueue; cbn.
    + split; [exact Hr|]. rewrite Hqueue. intros []. reflexivity.
    + split; [lia|]. intros []. reflexivity.
    + destruct Hq as [Hq|[]]. lia.
Qed.

Lemma run_fair n es l l' :
  Limiter.limit l = Some n -> fair n l ->
  Limiter.run es l = Some l' -> fair n l'.
Proof.
  revert l. induction es as [|[fn|] es IH]; intros l Hl [Hr Hq] H.
  - injection H as <-. split; assumption.
  - cbn [Limiter.run] in H. eapply IH; [| |exact H].
    + unfold Limiter.add. rewrite tryNext_limit. exact Hl.
    + apply tryNext_fair; cbn; [exact Hl|exact Hr|].
      destruct (Limiter.queue l) as [|a rest]; [right; exact I|left].
      apply Hq. discriminate.
  - cbn [Limiter.run] in H.
    destruct (0 <? Limiter.running l) eqn:Hpos; [|discriminate].
    apply Z.ltb_lt in Hpos. eapply IH; [| |exact H].
    + unfold Limiter.settle. rewrite tryNext_limit. exact Hl.
    + unfold Limiter.settle, Limiter.tryNext, Limiter.full, fair.
      cbn [Limiter.limit Limiter.running Limiter.queue]. rewrite Hl.
      destruct (Limiter.running l - 1 >=? n) eqn:Hge.
      * apply Z.geb_le in Hge. cbn. split; [lia|]. intros _. lia.
      * rewrite Z.geb_leb in Hge. apply Z.leb_gt in Hge.
        destruct (Limiter.queue l) as [|a rest] eqn:Hqueue; cbn.
        -- split; [lia|]. rewrite ?Hqueue. intros []. reflexivity.
        -- assert (n <= Limiter.running l) by (apply Hq; discriminate).
           split; [lia|]. intros _. lia.
Qed.

End LimiterFacts.

(** X17.  Tasks are started in the order of their [add], each once: after any
    events the tasks started, oldest first, followed by the tasks that wait
    are the tasks added; and the tasks running are those started whose
    promise has not settled. *)
Theorem limiter_first_in_first_out {T} (limit : option Z)
    (es : list (Limiter.event T)) l :
  Limiter.run es (Limiter.new limit) = Some l ->
  rev (Limiter.started l) ++ Limiter.queue l = Limiter.added es
  /\ Limiter.running l
     = Z.of_nat (length (Limiter.started l)) - Limiter.settled es.
Proof.
  intros H. destruct (run_order _ _ _ H) as (H1 & H2 & _).
  cbn in H1, H2. split; [exact H1|lia].
Qed.

Lemma limiter_first_in_first_out_witness :
  exists l,
    Limiter.run [Limiter.Add "a"; Limiter.Add "b"; Limiter.Add "c";
                 Limiter.Settle]%string (Limiter.new (Some 2)) = Some l
    /\ rev (Limiter.started l) ++ Limiter.queue l = ["a"; "b"; "c"]%string
    /\ Limiter.running l = 2.
Proof.
  eexists. split; [reflexivity|].
  destruct (limiter_first_in_first_out (Some 2)
              [Limiter.Add "a"; Limiter.Add "b"; Limiter.Add "c";
               Limiter.Settle]%string _ eq_refl) as [H1 H2].
  split; [exact H1|exact H2].
Defined.

(** X18.  With a limit of at least one, never more tasks run than the limit, and
    a task waits only while as many tasks as the limit are running: when
    nothing runs any more, nothing waits, and every task added has been
    started. *)
Theorem limiter_respects_limit {T} (n : Z) (es : list (Limiter.event T)) l :
  1 <= n ->
  Limiter.run es (Limiter.new (Some n)) = Some l ->
  0 <= Limiter.running l <= n
  /\ (Limiter.queue l <> [] -> Limiter.running l = n)
  /\ (Limiter.running l = 0 ->
      Limiter.queue l = [] /\ rev (Limiter.started l) = Limiter.added es).
Proof.
  intros Hn H.
  destruct (run_fair n es (Limiter.new (Some n)) l eq_refl) as [Hr Hq];
    [|exact H|].
  { split; [cbn; lia|]. intros []. reflexivity. }
  destruct (run_order _ _ _ H) as (H1 & _ & _). cbn in H1.
  split; [lia|]. split; [intros Hne; specialize (Hq Hne); lia|].
  intros H0. assert (Limiter.queue l = []) as Hnil.
  { destruct (Limiter.queue l) eqn:Hqueue; [reflexivity|].
    assert (n <= Limiter.running l) by (apply Hq; discriminate). lia. }
  split; [exact Hnil|]. rewrite Hnil, app_nil_r in H1. exact H1.
Qed.

Lemma limiter_respects_limit_witness :
  exists l,
    Limiter.run [Limiter.Add "a"; Limiter.Add "b"; Limiter.Add "c";
                 Limiter.Settle; Limiter.Settle; Limiter.Settle]%string
      (Limiter.new (Some 2)) = Some l
    /\ Limiter.queue l = [] /\ rev (Limiter.started l) = ["a"; "b"; "c"]%string.
Proof.
  eexists. split; [reflexivity|].
  refine (proj2 (proj2 (limiter_respects_limit 2
                          [Limiter.Add "a"; Limiter.Add "b"; Limiter.Add "c";
                           Limiter.Settle; Limiter.Settle; Limiter.Settle]%string
                          _ _ eq_refl)) eq_refl).
  lia.
Defined.

(** X19.  The degenerate limits.  With a limit of zero or less no task is ever
    started: every task waits for ever, and so does whoever awaits it.
    With a limit that is not a number every task is started as soon as it is
    added: there is no limit. *)
Theorem limiter_degenerate_limits {T} (es : list (Limiter.event T)) :
  (forall n l,
     n <= 0 -> Limiter.run es (Limiter.new (Some n)) = Some l ->
     Limiter.started l = [] /\ Limiter.queue l = Limiter.added es
     /\ Limiter.settled es = 0)
  /\ (forall l,
        Limiter.run es (Limiter.new None) = Some l ->
        Limiter.queue l = [] /\ rev (Limiter.started l) = Limiter.added es).
Proof.
  split.
  - intros n l Hn H.
    assert (forall l0,
              Limiter.limit l0 = Some n -> Limiter.running l0 = 0 ->
              Limiter.started l0 = [] -> Limiter.run es l0 = Some l ->
              Limiter.started l = [] /\ Limiter.settled es = 0) as Hidle.
    { clear H. induction es as [|[fn|] es IH]; intros l0 Hl Hr Hs H.
      - injection H as <-. split; [exact Hs|reflexivity].
      - cbn [Limiter.run Limiter.settled] in *.
        assert (Limiter.add fn l0
                = {| Limiter.limit := Limiter.limit l0;
                     Limiter.running := Limiter.running l0;
                     Limiter.queue := Limiter.queue l0 ++ [fn];
                     Limiter.started := Limiter.started l0 |}) as Hadd.
        { unfold Limiter.add, Limiter.tryNext, Limiter.full. cbn.
          rewrite Hl, Hr.
          destruct (0 >=? n) eqn:Hge; [reflexivity|].
          rewrite Z.geb_leb in Hge. apply Z.leb_gt in Hge. lia. }
        rewrite Hadd in H. eapply IH; [| | |exact H]; assumption.
      - cbn [Limiter.run] in H. rewrite Hr in H. discriminate H. }
    destruct (Hidle (Limiter.new (Some n)) eq_refl eq_refl eq_refl H)
      as [Hs H0].
    destruct (run_order _ _ _ H) as (H1 & _ & _). cbn in H1.
    rewrite Hs in H1. cbn in H1. repeat split; assumption.
  - intros l H.
    assert (forall l0, Limiter.limit l0 = None -> Limiter.queue l0 = [] ->
                       Limiter.run es l0 = Some l -> Limiter.queue l = [])
      as Hq.
    { clear H. induction es as [|[fn|] es IH]; intros l0 Hl Hq0 H.
      - injection H as <-. exact Hq0.
      - cbn [Limiter.run] in H. eapply IH; [| |exact H].
        + unfold Limiter.add. rewrite tryNext_limit. exact Hl.
        + unfold Limiter.add, Limiter.tryNext, Limiter.full. cbn.
          rewrite Hl, Hq0. reflexivity.
      - cbn [Limiter.run] in H.
        destruct (0 <? Limiter.running l0); [|discriminate].
        eapply IH; [| |exact H].
        + unfold Limiter.settle. rewrite tryNext_limit. exact Hl.
        + unfold Limiter.settle, Limiter.tryNext, Limiter.full. cbn.
          rewrite Hl, Hq0. reflexivity. }
    specialize (Hq (Limiter.new None) eq_refl eq_refl H).
    destruct (run_order _ _ _ H) as (H1 & _ & _). cbn in H1.
    rewrite Hq, app_nil_r in H1. split; assumption.
Qed.

Lemma limiter_degenerate_limits_witness :
  exists l,
    Limiter.run [Limiter.Add "a"; Limiter.Add "b"]%string
      (Limiter.new (Some 0)) = Some l
    /\ Limiter.started l = [] /\ Limiter.queue l = ["a"; "b"]%string.
Proof.
  eexists. split; [reflexivity|].
  destruct (proj1 (limiter_degenerate_limits
                     [Limiter.Add "a"; Limiter.Add "b"]%string)
              0 _ (Z.le_refl 0) eq_refl) as (H1 & H2 & _).
  split; [exact H1|exact H2].
Defined.


(** ** The lines of the CSV file *)

Lemma rest_detectTech_libs_shape E fuel owner repo w t w' :
  Rest.detectTech E fuel owner repo w = (Ret t, w') ->
  exists rtl enzyme found : bool,
    Rest.feLibs t
    = pushIf found "test-files"
        (pushIf (Rest.hasJest t) "jest"
           (pushIf enzyme "enzyme" (pushIf rtl "testing-library" []))).
Proof.
  intros H. unfold Rest.detectTech in H. split_bind H as t0 w0 Hlayers.
  apply rest_detectLayers_libs in Hlayers as (rtl & enz & Hlibs & _).
  unfold Rest.scanLayer in H. split_bind H as found w1 Hscan.
  injection H as <- _. cbn [Rest.feLibs Rest.hasJest].
  exists rtl, enz, found. rewrite Hlibs. reflexivity.
Qed.

Lemma count_uint c d :
  Str.digit c = None ->
  Str.count c (NilEmpty.string_of_uint d) = 0%nat.
Proof.
  intros Hc. induction d; cbn [NilEmpty.string_of_uint Str.count];
    rewrite ?IHd; try reflexivity;
    (destruct (Ascii.eqb c _) eqn:He; [|reflexivity]);
    apply Ascii.eqb_eq in He; subst c; discriminate Hc.
Qed.

Lemma count_showZ c n :
  Str.digit c = None -> c <> "-"%char -> Str.count c (showZ n) = 0%nat.
Proof.
  intros Hc Hm. unfold showZ, NilZero.string_of_int.
  assert (forall d, Str.count c (NilZero.string_of_uint d) = 0%nat) as Hu.
  { intros d. unfold NilZero.string_of_uint.
    destruct d; try apply count_uint, Hc.
    cbn. destruct (Ascii.eqb c "0") eqn:He; [|reflexivity].
    apply Ascii.eqb_eq in He. subst c. discriminate Hc. }
  destruct (Z.to_int n); [apply Hu|].
  cbn [Str.count]. rewrite Hu.
  destruct (Ascii.eqb c "-") eqn:He; [|reflexivity].
  apply Ascii.eqb_eq in He. contradiction.
Qed.

Lemma endsWith_append (a b : string) : Str.endsWith (a +:+ b) b = true.
Proof.
  induction a as [|c a IH].
  - change (""%string +:+ b) with b.
    destruct b; cbn [Str.endsWith]; rewrite String.eqb_refl; reflexivity.
  - change (String c a +:+ b) with (String c (a +:+ b)).
    cbn [Str.endsWith]. rewrite IH. apply orb_true_r.
Qed.

(** The fields of a line: no comma and no line feed inside. *)
Lemma csvLine_counts it tech (c : ascii) :
  (exists rtl enzyme found : bool,
     Rest.feLibs tech
     = pushIf found "test-files"
         (pushIf (Rest.hasJest tech) "jest"
            (pushIf enzyme "enzyme" (pushIf rtl "testing-library" [])))) ->
  c = ","%char \/ c = ascii_of_nat 10 ->
  Str.count c (full_name it) = 0%nat ->
  Str.count c (Sink.csvLine (rowOf it tech))
  = (Str.count c ",,,,,,,," + Str.count c newline)%nat.
Proof.
  intros (rtl & enz & found & Hlibs) Hc Hname.
  unfold Sink.csvLine, rowOf.
  cbn [r_nameWithOwner r_stars r_hasTS r_hasReact r_hasJest r_feLibs
       r_hasReactDeps r_hasFrontendTestLibs].
  assert (Str.digit c = None) as Hd
    by (destruct Hc as [-> | ->]; reflexivity).
  assert (c <> "-"%char) as Hm
    by (destruct Hc as [-> | ->]; intros Heq; vm_compute in Heq;
        discriminate Heq).
  rewrite Hlibs, !count_append, Hname, (count_showZ c _ Hd Hm).
  destruct Hc as [-> | ->];
    destruct found, (Rest.hasJest tech), enz, rtl, (Rest.hasTS tech),
      (Rest.hasReact tech), (Rest.hasReactDeps tech),
      (Rest.hasFrontendTestLibs tech); vm_compute; reflexivity.
Qed.

(** X20.  The lines that a run appends to the CSV file have the nine fields of
    the header and end in the one line feed they hold, as long as the names
    that the search API serves hold no comma and no line feed: no flag, no
    count of stars and no list of libraries brings a separator along. *)
Theorem csv_lines_well_formed E fuel w r st' :
  (forall it, servedItem E it ->
              Str.count "," (full_name it) = 0%nat
              /\ Str.count (ascii_of_nat 10) (full_name it) = 0%nat) ->
  RestMain.main E fuel (start w) = (r, st') ->
  Forall (fun row =>
            Str.count "," (Sink.csvLine row) = Str.count "," Sink.CSV_HEADER
            /\ Str.count (ascii_of_nat 10) (Sink.csvLine row) = 1%nat
            /\ Str.endsWith (Sink.csvLine row) newline = true)
    (csv st')
  /\ Str.count "," Sink.CSV_HEADER = 8%nat.
Proof.
  intros Hnames H. split; [|reflexivity]. revert H.
  apply (main_steps E fuel (fun st => Forall _ (csv st)) (servedItem E)
           (fun q page => searchReposREST_served E fuel q page _)); cbn;
    try (intros; assumption).
  - intros st st0 (_ & _ & _ & -> & _) H. exact H.
  - intros st it tech H _ Hs (w0 & w1 & Hd) _ _ _ _. constructor; [|exact H].
    destruct (Hnames it Hs) as [Hc Hn].
    pose proof (rest_detectTech_libs_shape _ _ _ _ _ _ _ Hd) as Hshape.
    rewrite (csvLine_counts it tech "," Hshape (or_introl eq_refl) Hc).
    rewrite (csvLine_counts it tech (ascii_of_nat 10) Hshape
               (or_intror eq_refl) Hn).
    split; [reflexivity|]. split; [reflexivity|].
    unfold Sink.csvLine. rewrite <- !app_assoc_string.
    apply endsWith_append.
  - constructor.
Qed.

Lemma catalogue_names cap it :
  servedItem (Sample.catalogue cap) it ->
  Str.count "," (full_name it) = 0%nat
  /\ Str.count (ascii_of_nat 10) (full_name it) = 0%nat.
Proof.
  intros (q & pp & p & t & res & total & items & Hr & Hj & Hin).
  cbn in Hr. injection Hr as <-. cbn in Hj. injection Hj as _ <-.
  cbn in Hin. destruct Hin as [<-|[<-|[<-|[]]]]; split; reflexivity.
Qed.

Lemma csv_lines_well_formed_witness :
  Forall (fun row => Str.count "," (Sink.csvLine row) = 8%nat)
    (csv (snd (RestMain.main (Sample.catalogue 0) 11
                 (start (Sample.idle 0))))).
Proof.
  eapply Forall_impl;
    [exact (proj1 (csv_lines_well_formed (Sample.catalogue 0) 11
                     (Sample.idle 0) _ _ (catalogue_names 0)
                     (surjective_pairing _)))|].
  intros row (H & _). exact H.
Defined.

(** ** The CSV file *)

Lemma append_empty_r (s : string) : s +:+ "" = s.
Proof.
  induction s as [|c s IH]; [reflexivity|].
  change (String c s +:+ "") with (String c (s +:+ "")).
  rewrite IH. reflexivity.
Qed.

Lemma concat_cons_lines (x : string) (l : list string) :
  String.concat "" (x :: l) = x +:+ String.concat "" l.
Proof.
  destruct l as [|y l]; [cbn; rewrite append_empty_r; reflexivity|].
  reflexivity.
Qed.

Lemma after_appends rows d content :
  Sink.csvFile d = Some content ->
  Sink.csvFile (Sink.after (Sink.Append <$> rows) d)
  = Some (content +:+ String.concat "" (Sink.csvLine <$> rows))
  /\ Sink.outputDir (Sink.after (Sink.Append <$> rows) d) = Sink.outputDir d.
Proof.
  revert d content. induction rows as [|row rows IH]; intros d content Hd.
  - cbn. rewrite append_empty_r. split; [exact Hd|reflexivity].
  - change (Sink.after (Sink.Append <$> row :: rows) d)
      with (Sink.after (Sink.Append <$> rows) (Sink.appendCsvRow row d)).
    destruct (IH (Sink.appendCsvRow row d) (content +:+ Sink.csvLine row))
      as [H1 H2].
    { cbn. rewrite Hd. reflexivity. }
    rewrite H1, H2. split; [|reflexivity].
    rewrite fmap_cons, concat_cons_lines, app_assoc_string. reflexivity.
Qed.

(** X21.  After a run the CSV file holds what it held before the run, or the
    header when there was no file, followed by the lines of the rows in
    the order in which they were written: nothing on the disk is rewritten
    or dropped, and a header is written only into a new file.  A second
    call for the header changes nothing. *)
Theorem sink_only_appends rows d :
  Sink.csvFile (Sink.after (Sink.callsOf rows) d)
  = Some (default Sink.CSV_HEADER (Sink.csvFile d)
          +:+ String.concat "" (Sink.csvLine <$> rev rows))
  /\ Sink.outputDir (Sink.after (Sink.callsOf rows) d) = true
  /\ Sink.writeCsvHeaderIfNeeded (Sink.after (Sink.callsOf rows) d)
     = Sink.after (Sink.callsOf rows) d.
Proof.
  unfold Sink.callsOf.
  change (Sink.after (Sink.Header :: (Sink.Append <$> rev rows)) d)
    with (Sink.after (Sink.Append <$> rev rows)
            (Sink.writeCsvHeaderIfNeeded d)).
  assert (Sink.csvFile (Sink.writeCsvHeaderIfNeeded d)
          = Some (default Sink.CSV_HEADER (Sink.csvFile d))
          /\ Sink.outputDir (Sink.writeCsvHeaderIfNeeded d) = true)
    as [Hf Hd].
  { unfold Sink.writeCsvHeaderIfNeeded, Sink.ensureOutput.
    destruct d as [[|] [c|]]; split; reflexivity. }
  destruct (after_appends (rev rows) _ _ Hf) as [H1 H2].
  rewrite Hd in H2.
  set (d' := Sink.after _ _) in *.
  split; [exact H1|]. split; [exact H2|].
  unfold Sink.writeCsvHeaderIfNeeded, Sink.ensureOutput.
  rewrite H2, H1. reflexivity.
Qed.

(** ** The quarters and the queries *)

Lemma utcYearMonth_plain y m :
  100 <= y -> 0 <= m < 12 -> Dates.utcYearMonth y m = (y, m).
Proof.
  intros Hy Hm. unfold Dates.utcYearMonth.
  replace (y <=? 99) with false by (symmetry; apply Z.leb_gt; lia).
  rewrite andb_false_r, Z.div_small, Z.mod_small by lia.
  f_equal. lia.
Qed.

Lemma utcYearMonth_back y :
  100 <= y -> Dates.utcYearMonth y (-3) = (y - 1, 9).
Proof.
  intros Hy. unfold Dates.utcYearMonth.
  replace (y <=? 99) with false by (symmetry; apply Z.leb_gt; lia).
  rewrite andb_false_r. reflexivity.
Qed.

Lemma quarterRange_text y q :
  100 <= y -> 0 <= q <= 3 -> quarterRange y (3 * q) = quarterText y q.
Proof.
  intros Hy Hq.
  assert (q = 0 \/ q = 1 \/ q = 2 \/ q = 3) as [-> | [-> | [-> | ->]]] by lia;
    unfold quarterRange, quarterText, Dates.lastDayOfMonth;
    rewrite utcYearMonth_plain by lia;
    rewrite !app_assoc_string; reflexivity.
Qed.

Lemma quartersFrom_length k : forall y m0,
  length (quartersFrom k y m0) = k.
Proof.
  induction k as [|k IH]; intros y m0; [reflexivity|].
  cbn [quartersFrom length].
  destruct (Dates.utcYearMonth y (m0 - 3)) as [y' m']. rewrite IH. reflexivity.
Qed.

Lemma quartersFrom_nth n : forall y q (k : nat),
  0 <= q <= 3 -> (k < n)%nat -> 400 <= 4 * y + q - Z.of_nat k ->
  quartersFrom n y (3 * q) !! k
  = Some (quarterText ((4 * y + q - Z.of_nat k) / 4)
                      ((4 * y + q - Z.of_nat k) mod 4)).
Proof.
  induction n as [|n IH]; intros y q k Hq Hk Hy; [lia|].
  cbn [quartersFrom]. destruct k as [|k].
  - cbn [lookup list_lookup]. rewrite quarterRange_text by lia.
    replace (4 * y + q - Z.of_nat 0) with (q + y * 4) by lia.
    rewrite Z.div_add, Z.mod_add, Z.div_small, Z.mod_small by lia.
    reflexivity.
  - assert (q = 0 \/ 1 <= q) as [-> | Hq1] by lia.
    + change (3 * 0 - 3) with (-3). rewrite utcYearMonth_back by lia.
      change (quarterRange y (3 * 0) :: quartersFrom n (y - 1) 9)
        with (quarterRange y (3 * 0) :: quartersFrom n (y - 1) (3 * 3)).
      rewrite lookup_cons_ne_0 by lia. cbn [Nat.pred].
      rewrite IH by lia. do 3 f_equal; lia.
    + rewrite utcYearMonth_plain by lia.
      replace (3 * q - 3) with (3 * (q - 1)) by lia.
      rewrite lookup_cons_ne_0 by lia. cbn [Nat.pred].
      rewrite IH by lia. do 3 f_equal; lia.
Qed.

(** X22.  The quarters are counted back from the current one: when today is in
    the month [nowMonth] (from 0) of the year [nowYear], entry [k] of
    [buildLastNQuarters(n)] is the range of the first to the last day of the
    quarter number [4 * nowYear + nowMonth / 3 - k], whose last day is the
    31st for the first and the fourth quarter and the 30th for the others,
    as long as that quarter is not before the year 100 (below it
    [Date.UTC] reads a year as [1900 + y]). *)
Theorem quarters_count_back nowYear nowMonth n (k : nat) :
  0 <= nowMonth <= 11 ->
  (k < Z.to_nat n)%nat ->
  400 <= 4 * nowYear + nowMonth / 3 - Z.of_nat k ->
  buildLastNQuarters nowYear nowMonth n !! k
  = Some (quarterText ((4 * nowYear + nowMonth / 3 - Z.of_nat k) / 4)
                      ((4 * nowYear + nowMonth / 3 - Z.of_nat k) mod 4)).
Proof.
  intros Hm Hk Hy. unfold buildLastNQuarters.
  assert (0 <= nowMonth / 3 <= 3) as Hq.
  { split; [apply Z.div_pos; lia|].
    enough (nowMonth / 3 < 4) by lia. apply Z.div_lt_upper_bound; lia. }
  rewrite utcYearMonth_plain by lia.
  rewrite (Z.mul_comm (nowMonth / 3) 3).
  apply quartersFrom_nth; assumption.
Qed.

Lemma quarters_count_back_witness :
  buildLastNQuarters 2025 10 6 !! 5%nat
  = Some "pushed:2024-07-01..2024-09-30"%string.
Proof.
  refine (eq_trans (quarters_count_back 2025 10 6 5 _ _ _) _).
  - lia.
  - vm_compute. lia.
  - vm_compute. discriminate.
  - vm_compute. reflexivity.
Defined.


Lemma quartersFrom_shape k : forall y m0,
  Forall (fun p => exists t, p = String "p" t) (quartersFrom k y m0).
Proof.
  induction k as [|k IH]; intros y m0; [constructor|].
  cbn [quartersFrom]. constructor.
  - eexists. reflexivity.
  - destruct (Dates.utcYearMonth y (m0 - 3)) as [y' m']. apply IH.
Qed.

Lemma buildLastNQuarters_length nowYear nowMonth n :
  length (buildLastNQuarters nowYear nowMonth n) = Z.to_nat n.
Proof.
  unfold buildLastNQuarters.
  destruct (Dates.utcYearMonth nowYear (nowMonth / 3 * 3)) as [y m0].
  apply quartersFrom_length.
Qed.

Lemma buildLastNQuarters_shape nowYear nowMonth n :
  Forall (fun p => exists t, p = String "p" t)
         (buildLastNQuarters nowYear nowMonth n).
Proof.
  unfold buildLastNQuarters.
  destruct (Dates.utcYearMonth nowYear (nowMonth / 3 * 3)) as [y m0].
  apply quartersFrom_shape.
Qed.

Lemma excludeTopics_kept env :
  excludeTopics env <> ""%string -> kept (excludeTopics env).
Proof.
  intros Hne. split; [|exact Hne]. apply trimEnd_idem.
Qed.

Lemma query_text base env t :
  In base BASES ->
  Txt.trim
    (Str.join " "
       (List.filter (fun s => negb (String.eqb s ""))
          [base; String "p" t; "fork:false"%string; "archived:false"%string;
           excludeTopics env]))
  = base +:+ " " +:+ String "p" t +:+ " fork:false archived:false"
    +:+ (if String.eqb (excludeTopics env) "" then ""
         else " " +:+ excludeTopics env).
Proof.
  intros Hbase.
  assert (exists b, base = String "l" b /\ b <> ""%string) as (b & -> & Hb).
  { destruct Hbase as [<- | [<- | [<- | []]]];
      (eexists; split; [reflexivity|discriminate]). }
  assert (kept ("archived:false" +:+
                (if String.eqb (excludeTopics env) "" then ""
                 else " " +:+ excludeTopics env))) as Hlast.
  { destruct (String.eqb (excludeTopics env) "") eqn:Hex.
    - split; [reflexivity|discriminate].
    - apply kept_append; [vm_compute; reflexivity|].
      apply kept_space, excludeTopics_kept.
      intros Heq. rewrite Heq in Hex. discriminate Hex. }
  assert (kept (String "l" b +:+ " " +:+ String "p" t +:+ " fork:false "
                +:+ "archived:false"
                +:+ (if String.eqb (excludeTopics env) "" then ""
                     else " " +:+ excludeTopics env))) as [Hkept _].
  { do 4 (apply kept_append; [vm_compute; reflexivity|]). exact Hlast. }
  cbn [List.filter String.eqb negb].
  destruct (String.eqb (excludeTopics env) "") eqn:Hex; cbn [negb];
    (etransitivity; [|exact Hkept]; unfold Txt.trim; f_equal;
     apply (skipSpaces_letter "l"); [vm_compute; reflexivity|reflexivity]).
Qed.

(** X23.  The queries are the three bases, each with every quarter in turn: a
    query is the base, the quarter's range, [fork:false], [archived:false]
    and the excluded topics when there are any, with one space between
    them and none at either end; so there are three times [QUARTERS_COUNT]
    of them. *)
Theorem queries_shape nowYear nowMonth n env :
  buildQueries nowYear nowMonth n (excludeTopics env)
  = flat_map
      (fun base =>
         (fun pushed =>
            base +:+ " " +:+ pushed +:+ " fork:false archived:false"
            +:+ (if String.eqb (excludeTopics env) "" then ""
                 else " " +:+ excludeTopics env))
         <$> buildLastNQuarters nowYear nowMonth n)
      BASES
  /\ length (buildQueries nowYear nowMonth n (excludeTopics env))
     = (3 * Z.to_nat n)%nat.
Proof.
  assert (forall base, In base BASES ->
            (fun pushed =>
               Txt.trim
                 (Str.join " "
                    (List.filter (fun s => negb (String.eqb s ""))
                       [base; pushed; "fork:false"%string;
                        "archived:false"%string; excludeTopics env])))
            <$> buildLastNQuarters nowYear nowMonth n
            = (fun pushed =>
                 base +:+ " " +:+ pushed +:+ " fork:false archived:false"
                 +:+ (if String.eqb (excludeTopics env) "" then ""
                      else " " +:+ excludeTopics env))
              <$> buildLastNQuarters nowYear nowMonth n) as Heach.
  { intros base Hbase. apply Forall_fmap_ext.
    eapply Forall_impl; [apply buildLastNQuarters_shape|].
    intros p [t ->]. apply query_text, Hbase. }
  split.
  - unfold buildQueries, BASES. cbn [flat_map].
    rewrite !Heach by (cbn; tauto). reflexivity.
  - unfold buildQueries, BASES. cbn [flat_map].
    rewrite !length_app, !length_fmap, buildLastNQuarters_length.
    cbn [length]. lia.
Qed.
